(** * Training harnesses and zero-shot fan-out: a shallow embedding

    The development follows three source files:
    - [LLM/run_zero_shot.py]          (module [ZeroShot]),
    - [Graph/models/reveal/trainer.py] (module [Reveal]),
    - [sequence/SVulD/run.py]          (module [SVulD]).

    Tensors, optimisers and the neural models are opaque: what the code
    reads from them (model parameters after an optimiser step, the values
    returned by a forward pass) enters the embedding as data.  Python
    floats are represented by the rational number they denote; comparison
    of finite floats is comparison of these rationals. *)

From Stdlib Require Import ZArith QArith Qfield List Lia Sorting Permutation.
From stdpp Require Import base decidable countable strings gmap list.

Set Warnings "-register-all".
Local Open Scope Z_scope.

(** ** Python values shared by the three scripts *)

Module Py.

Inductive exn :=
| ZeroDivisionError
| AssertionError
| ValueError
| IndexError
| TypeError
| KeyError
| FileNotFoundError
| JSONDecodeError
| EOFError
| AttributeError
| KeyboardInterrupt.

Inductive result (A : Type) :=
| Ok (a : A)
| Raised (e : exn).
Arguments Ok {A} a.
Arguments Raised {A} e.

(** What [json.load] returns and [json.dump] accepts. *)
Inductive json :=
| JNull
| JBool (b : bool)
| JInt (n : Z)
| JFloat (q : Q)
| JStr (s : string)
| JArr (items : list json)
| JObj (fields : list (string * json)).

(** [range(n)] for a Python int [n]: empty when [n <= 0]. *)
Definition range (n : Z) : list nat := seq 0 (Z.to_nat n).

(** [lst.extend(x)]: [x] is iterated.  A list gives its items, a dict
    its keys, a str its characters; the other JSON values are not
    iterable. *)
Definition chars (s : string) : list json :=
  map (fun c => JStr (String c EmptyString)) (String.list_ascii_of_string s).

Definition extend (lst : list json) (x : json) : result (list json) :=
  match x with
  | JArr items => Ok (lst ++ items)
  | JObj fields => Ok (lst ++ map (fun kv => JStr (fst kv)) fields)
  | JStr s => Ok (lst ++ chars s)
  | JNull | JBool _ | JInt _ | JFloat _ => Raised TypeError
  end.

(** A fallible function applied to every item in order (a loop or a
    comprehension): the first error ends it. *)
Fixpoint for_each {A B} (f : A -> result B) (l : list A) : result (list B) :=
  match l with
  | [] => Ok []
  | x :: rest =>
      match f x with
      | Raised e => Raised e
      | Ok y =>
          match for_each f rest with
          | Raised e => Raised e
          | Ok ys => Ok (y :: ys)
          end
      end
  end.

Definition and_then {A B} (r : result A) (k : A -> result B) : result B :=
  match r with
  | Ok a => k a
  | Raised e => Raised e
  end.

End Py.

Notation "'let?' x ':=' r 'in' k" := (Py.and_then r (fun x => k))
  (at level 10, x pattern, r at level 100, k at level 200).

(** ** LLM/run_zero_shot.py *)

Module ZeroShot.
Import Py.

(** Module constants, lines 8-9. *)
Definition all_gpus : list Z := [0; 1; 6; 7].
Definition split_cnt : Z := 2.

(** [np.array_split(ary, sections)] on a one-dimensional array:
    [sections <= 0] is a ValueError; otherwise the first
    [len % sections] parts have [len // sections + 1] items, the others
    [len // sections], cut at the running sums of these sizes. *)
Fixpoint slices {A} (st : nat) (section_sizes : list nat) (ary : list A)
  : list (list A) :=
  match section_sizes with
  | [] => []
  | n :: rest => take n (drop st ary) :: slices (st + n) rest ary
  end.

Definition array_split {A} (ary : list A) (sections : Z)
  : result (list (list A)) :=
  if sections <=? 0 then Raised ValueError
  else
    let Nsections := Z.to_nat sections in
    let Neach_section := (length ary / Nsections)%nat in
    let extras := (length ary mod Nsections)%nat in
    Ok (slices 0 (replicate extras (S Neach_section)
                  ++ replicate (Nsections - extras) Neach_section) ary).

(** The shell command of line 21, by the three values it interpolates:
    [python zero_shot.py --gpus="<gpus>" -split_idx=<i> -total_split_cnt=<n>]
    where [<gpus>] is the comma-joined list. *)
Record command := Command {
  gpus : list Z;
  split_idx : nat;
  total_split_cnt : Z
}.

(** Lines 19-22: one command per split index; [gpus_splits[split_idx]]
    is an IndexError out of range. *)
Fixpoint spawn (gpus_splits : list (list Z)) (cnt : Z) (idxs : list nat)
  : result (list command) :=
  match idxs with
  | [] => Ok []
  | i :: rest =>
      match gpus_splits !! i with
      | None => Raised IndexError
      | Some g =>
          match spawn gpus_splits cnt rest with
          | Ok all_p => Ok (Command g i cnt :: all_p)
          | Raised e => Raised e
          end
      end
  end.

(** Lines 13-22.  [len(all_gpus) % split_cnt] divides by zero when
    [split_cnt] is 0; Python's [%] takes the sign of the divisor, as
    [Z.modulo] does. *)
Definition fan_out (all_gpus : list Z) (split_cnt : Z)
  : result (list command) :=
  if split_cnt =? 0 then Raised ZeroDivisionError
  else if negb (Z.of_nat (length all_gpus) `mod` split_cnt =? 0)
  then Raised AssertionError
  else
    match array_split all_gpus split_cnt with
    | Raised e => Raised e
    | Ok gpus_splits => spawn gpus_splits split_cnt (range split_cnt)
    end.

(** Files of [save_dir].  The two name patterns
    [prompt_<p>_result_split_<i>.json] and [prompt_<p>_result.json]
    never coincide, so a file is identified by its pattern and
    numbers. *)
Inductive path :=
| SplitResult (prompt_id split_idx : nat)
| MergedResult (prompt_id : nat).

#[global] Instance path_eq_dec : EqDecision path.
Proof. solve_decision. Defined.

#[global] Instance path_countable : Countable path.
Proof.
  refine (inj_countable'
    (fun p => match p with
              | SplitResult a b => inl (a, b)
              | MergedResult a => inr a
              end)
    (fun s => match s with
              | inl (a, b) => SplitResult a b
              | inr a => MergedResult a
              end) _).
  intros []; reflexivity.
Defined.

(** A file either parses as JSON or does not. *)
Inductive file :=
| Json (j : json)
| Malformed.

(** Lines 35-37: the inner loop over the split indices. *)
Fixpoint load_splits (fs : gmap path file) (prompt_id : nat)
    (idxs : list nat) (merge_result : list json) : result (list json) :=
  match idxs with
  | [] => Ok merge_result
  | i :: rest =>
      match fs !! SplitResult prompt_id i with
      | None => Raised FileNotFoundError
      | Some Malformed => Raised JSONDecodeError
      | Some (Json split_result) =>
          match extend merge_result split_result with
          | Ok merge_result' => load_splits fs prompt_id rest merge_result'
          | Raised e => Raised e
          end
      end
  end.

(** Lines 29-39: the loop over the prompt ids.  The result pairs the
    way the loop ends with the files as they are then. *)
Fixpoint merge_loop (split_cnt : Z) (prompt_ids : list nat)
    (fs : gmap path file) : result unit * gmap path file :=
  match prompt_ids with
  | [] => (Ok tt, fs)
  | prompt_id :: rest =>
      match fs !! SplitResult prompt_id 0 with
      | None => (Ok tt, fs)                                   (* break *)
      | Some _ =>
          match load_splits fs prompt_id (range split_cnt) [] with
          | Raised e => (Raised e, fs)
          | Ok merge_result =>
              merge_loop split_cnt rest
                (<[MergedResult prompt_id := Json (JArr merge_result)]> fs)
          end
      end
  end.

Definition merge (split_cnt : Z) (fs : gmap path file)
  : result unit * gmap path file :=
  merge_loop split_cnt (range 100) fs.

Section Script.
(** The subprocesses are the absent [zero_shot.py]: all that the
    script sees of them is the files they leave behind and the return
    codes that [wait()] yields. *)
Variable zero_shot : list command -> gmap path file -> gmap path file * list Z.

(** Lines 12-39.  The list comprehension of line 24 drops the return
    codes. *)
Definition main (all_gpus : list Z) (split_cnt : Z) (fs : gmap path file)
  : result unit * gmap path file :=
  match fan_out all_gpus split_cnt with
  | Raised e => (Raised e, fs)
  | Ok all_p =>
      let '(fs', _) := zero_shot all_p fs in
      merge split_cnt fs'
  end.
End Script.

End ZeroShot.


(** ** The library calls of the two evaluators *)

(** [sklearn.metrics] on 0/1 targets with the default arguments
    ([pos_label=1], [average='binary']), in exact arithmetic.  Precision,
    recall and F1 with denominator 0 are reported as 0 (the library warns
    and returns 0.0); the accuracy of an empty sequence is not a number in
    the library and is 0 here.  The functions below take the two sequences
    already paired; [check_consistent_length] is the library's ValueError
    on sequences of different lengths. *)
Module Sklearn.
Import Py.

Fixpoint count (f : Z * Z -> bool) (pairs : list (Z * Z)) : Z :=
  match pairs with
  | [] => 0
  | yp :: rest => (if f yp then 1 else 0) + count f rest
  end.

Definition tp_sum := count (fun yp => (yp.1 =? 1) && (yp.2 =? 1)).
Definition pred_sum := count (fun yp => yp.2 =? 1).
Definition true_sum := count (fun yp => yp.1 =? 1).
Definition matches := count (fun yp => yp.1 =? yp.2).

Definition prf_divide (numerator denominator : Z) : Q :=
  if denominator =? 0 then 0%Q
  else (inject_Z numerator / inject_Z denominator)%Q.

Definition accuracy (pairs : list (Z * Z)) : Q :=
  prf_divide (matches pairs) (Z.of_nat (length pairs)).

Definition precision (pairs : list (Z * Z)) : Q :=
  prf_divide (tp_sum pairs) (pred_sum pairs).

Definition recall (pairs : list (Z * Z)) : Q :=
  prf_divide (tp_sum pairs) (true_sum pairs).

(** The F-score with [beta = 1], from the confusion counts. *)
Definition f1 (pairs : list (Z * Z)) : Q :=
  prf_divide (2 * tp_sum pairs) (true_sum pairs + pred_sum pairs).

Definition check_consistent_length {A} (y_true y_pred : list Z) (v : A)
  : result A :=
  if (length y_true =? length y_pred)%nat then Ok v else Raised ValueError.

Definition accuracy_score (y_true y_pred : list Z) : result Q :=
  check_consistent_length y_true y_pred (accuracy (zip y_true y_pred)).
Definition precision_score (y_true y_pred : list Z) : result Q :=
  check_consistent_length y_true y_pred (precision (zip y_true y_pred)).
Definition recall_score (y_true y_pred : list Z) : result Q :=
  check_consistent_length y_true y_pred (recall (zip y_true y_pred)).
Definition f1_score (y_true y_pred : list Z) : result Q :=
  check_consistent_length y_true y_pred (f1 (zip y_true y_pred)).

End Sklearn.

(** [numpy] on the probability rows of a forward pass. *)
Module Numpy.
Import Py.

(** [a > b] on floats. *)
Definition Qgtb (a b : Q) : bool := negb (Qle_bool a b).

(** [np.argmax(row)]: the index of the first maximum. *)
Fixpoint argmax_from (best : Q) (best_i i : Z) (row : list Q) : Z :=
  match row with
  | [] => best_i
  | x :: rest =>
      if Qgtb x best then argmax_from x i (i + 1) rest
      else argmax_from best best_i (i + 1) rest
  end.

Definition argmax (row : list Q) : result Z :=
  match row with
  | [] => Raised ValueError
  | x :: rest => Ok (argmax_from x 0 1 rest)
  end.

(** [np.array(rows)] on a list of one-dimensional arrays: rows of
    different lengths are a ValueError. *)
Definition array (rows : list (list Q)) : result (list (list Q)) :=
  match rows with
  | [] => Ok []
  | row :: rest =>
      if forallb (fun r => (length r =? length row)%nat) rest
      then Ok rows else Raised ValueError
  end.

(** [probs[:, 1]]: column 1 of every row. *)
Definition column1 (row : list Q) : result Q :=
  match row !! 1%nat with
  | Some x => Ok x
  | None => Raised IndexError
  end.

End Numpy.

(** ** Graph/models/reveal/trainer.py *)

Module Reveal.
Import Py Numpy Sklearn.

Section Trainer.
(** What [model.state_dict()] holds, and a batch of graph features. *)
Variable Params : Type.
Variable Features : Type.
(** [model(example_batch=features)[0]]: one row of class probabilities
    per example of the batch. *)
Variable forward : Params -> Features -> list (list Q).

(** What one call of a [dataset.get_next_*_batch] returns. *)
Record batch := Batch {
  features : Features;
  targets : list Z;
  test_ids : list Z
}.

(** The tuple [evaluate] returns, without [pr_auc] (a ranking score of
    [all_probs] that no decision of the trainer reads). *)
Record evaluation := Evaluation {
  acc : Q;
  pr : Q;
  rc : Q;
  f1 : Q;
  expectations : list Z;
  all_probs : list Q;
  all_ids : list Z;
  predictions : list Z
}.

(** Lines 173-186; the iterator is called [_batch_count] times and
    [batches] lists what it returns. *)
Fixpoint evaluate_batches (m : Params) (batches : list batch)
    (predictions expectations : list Z) (all_probs : list Q)
    (all_ids : list Z)
  : result (list Z * list Z * list Q * list Z) :=
  match batches with
  | [] => Ok (predictions, expectations, all_probs, all_ids)
  | b :: rest =>
      let probs := forward m (features b) in
      let? batch_pred := for_each argmax probs in
      let? column := for_each column1 probs in
      evaluate_batches m rest
        (predictions ++ batch_pred) (expectations ++ targets b)
        (all_probs ++ column) (all_ids ++ test_ids b)
  end.

(** Lines 161-197. *)
Definition evaluate (m : Params) (batches : list batch)
  : result evaluation :=
  let? (predictions, expectations, all_probs, all_ids) :=
    evaluate_batches m batches [] [] [] [] in
  let? a := accuracy_score expectations predictions in
  let? p := precision_score expectations predictions in
  let? r := recall_score expectations predictions in
  let? f := f1_score expectations predictions in
  Ok (Evaluation a p r f expectations all_probs all_ids predictions).

(** Lines 211-221. *)
Fixpoint evaluate_patch_batches (m : Params) (batches : list batch)
    (predictions expectations all_ids : list Z)
  : result (list Z * list Z * list Z) :=
  match batches with
  | [] => Ok (predictions, expectations, all_ids)
  | b :: rest =>
      let probs := forward m (features b) in
      let? batch_pred := for_each argmax probs in
      evaluate_patch_batches m rest
        (predictions ++ batch_pred) (expectations ++ targets b)
        (all_ids ++ test_ids b)
  end.

(** Lines 200-228: accuracy, precision, recall, F1, and the lists
    [predictions], [expectations] and [all_ids]. *)
Definition evaluate_patch (m : Params) (batches : list batch)
  : result (Q * Q * Q * Q * list Z * list Z * list Z) :=
  let? (predictions, expectations, all_ids) :=
    evaluate_patch_batches m batches [] [] [] in
  let? a := accuracy_score expectations predictions in
  let? p := precision_score expectations predictions in
  let? r := recall_score expectations predictions in
  let? f := f1_score expectations predictions in
  Ok (a, p, r, f, predictions, expectations, all_ids).

(** Lines 147-158: the targets and ids that the iterator yields are
    bound and never read; line 158 makes one array of the rows of
    all batches. *)
Definition predict_proba (m : Params) (batches : list batch)
  : result (list (list Q)) :=
  array (concat (map (fun b => forward m (features b)) batches)).

(** Lines 142-144; [np.argmax] of an empty array is a ValueError. *)
Definition predict (m : Params) (batches : list batch) : result (list Z) :=
  let? probs := predict_proba m batches in
  match probs with
  | [] => Raised ValueError
  | _ => for_each argmax probs
  end.

(** Lines 118-122.  [list.sort] is stable: an item is placed before
    the first item whose key is not smaller. *)
Fixpoint insert_by_id (x : Z * Z) (l : list (Z * Z)) : list (Z * Z) :=
  match l with
  | [] => [x]
  | y :: rest =>
      if x.1 <=? y.1 then x :: y :: rest else y :: insert_by_id x rest
  end.

Fixpoint sort_by_id (l : list (Z * Z)) : list (Z * Z) :=
  match l with
  | [] => []
  | x :: rest => insert_by_id x (sort_by_id rest)
  end.

Definition record_json (item : Z * Z) : json :=
  JObj [("id"%string, JInt item.1); ("pred"%string, JInt item.2)].

Definition test_export (ev : evaluation) : json :=
  let ans := zip (all_ids ev) (predictions ev) in
  JArr (map record_json (sort_by_id ans)).

(** *** The training loop *)

(** The file [./<dataset_name>_best_f1.model]: opened for writing it
    is empty until [torch.save] has filled it. *)
Inductive checkpoint_file :=
| Saved (state : Params)
| Truncated.

(** The local variables of [train] that outlive an iteration, the two
    files it writes, the 'Validation Set' lines it prints (F1 and
    Patience; [output_buffer] is the default [sys.stderr]), and the
    user: [sigint = Some n] when Ctrl-C arrives after [n] more steps of
    the loop, [None] when it does not arrive. *)
Record world := World {
  model : Params;
  best_f1 : Q;
  best_model : option Params;
  patience_counter : Z;
  best_f1_model : option checkpoint_file;
  test_json : option json;
  stderr : list (Q * Z);
  sigint : option nat
}.

Definition set_model (p : Params) (w : world) : world :=
  World p (best_f1 w) (best_model w) (patience_counter w)
        (best_f1_model w) (test_json w) (stderr w) (sigint w).
Definition set_best_f1 (f : Q) (w : world) : world :=
  World (model w) f (best_model w) (patience_counter w)
        (best_f1_model w) (test_json w) (stderr w) (sigint w).
Definition set_best_model (b : option Params) (w : world) : world :=
  World (model w) (best_f1 w) b (patience_counter w)
        (best_f1_model w) (test_json w) (stderr w) (sigint w).
Definition set_patience_counter (c : Z) (w : world) : world :=
  World (model w) (best_f1 w) (best_model w) c
        (best_f1_model w) (test_json w) (stderr w) (sigint w).
Definition set_best_f1_model (c : option checkpoint_file) (w : world)
  : world :=
  World (model w) (best_f1 w) (best_model w) (patience_counter w)
        c (test_json w) (stderr w) (sigint w).
Definition set_test_json (j : option json) (w : world) : world :=
  World (model w) (best_f1 w) (best_model w) (patience_counter w)
        (best_f1_model w) j (stderr w) (sigint w).
Definition print (line : Q * Z) (w : world) : world :=
  World (model w) (best_f1 w) (best_model w) (patience_counter w)
        (best_f1_model w) (test_json w) (stderr w ++ [line]) (sigint w).
Definition set_sigint (s : option nat) (w : world) : world :=
  World (model w) (best_f1 w) (best_model w) (patience_counter w)
        (best_f1_model w) (test_json w) (stderr w) s.

(** Statements: a result or an exception, and the world after. *)
Definition M (A : Type) : Type := world -> result A * world.

Definition ret {A} (a : A) : M A := fun w => (Ok a, w).
Definition raise {A} (e : exn) : M A := fun w => (Raised e, w).
Definition bind {A B} (c : M A) (k : A -> M B) : M B :=
  fun w =>
    match c w with
    | (Ok a, w') => k a w'
    | (Raised e, w') => (Raised e, w')
    end.
Definition gets {A} (f : world -> A) : M A := fun w => (Ok (f w), w).
Definition modify (f : world -> world) : M unit := fun w => (Ok tt, f w).
Definition lift {A} (r : result A) : M A := fun w => (r, w).

(** [try: body except KeyboardInterrupt: handler]. *)
Definition try_except_KeyboardInterrupt (body handler : M unit)
  : M unit :=
  fun w =>
    match body w with
    | (Raised KeyboardInterrupt, w') => handler w'
    | other => other
    end.

(** One step of the loop: KeyboardInterrupt is raised here when the
    count of [sigint] has run out. *)
Definition tick : M unit :=
  fun w =>
    match sigint w with
    | None => (Ok tt, w)
    | Some (S n) => (Ok tt, set_sigint (Some n) w)
    | Some O => (Raised KeyboardInterrupt, set_sigint None w)
    end.

Declare Scope py_scope.
Delimit Scope py_scope with py.
Notation "x <- c1 ;; c2" := (bind c1 (fun x => c2))
  (at level 100, c1 at next level, right associativity) : py_scope.
Notation "c1 ;; c2" := (bind c1 (fun _ => c2))
  (at level 100, right associativity) : py_scope.
Local Open Scope py_scope.

(** A statement of the loop that changes the world. *)
Definition statement (f : world -> world) : M unit :=
  tick ;; modify f.

(** [evaluate] on the validation split, as the F1 it returns for given
    parameters (or the exception it raises). *)
Variable validate : Params -> result Q.

(** Lines 41-57: one optimiser step per batch; [steps] lists the
    parameters after each step of the epoch. *)
Fixpoint train_batches (steps : list Params) : M unit :=
  match steps with
  | [] => ret tt
  | p :: rest => statement (set_model p) ;; train_batches rest
  end.

(** Lines 65-94, one validation cycle; the result tells whether the
    loop breaks. *)
Definition validation (max_patience : Z) : M bool :=
  m <- gets model ;;
  vf1 <- lift (validate m) ;;
  best <- gets best_f1 ;;
  (if Qgtb vf1 best then
     statement (set_best_f1 vf1) ;;
     statement (set_patience_counter 0) ;;
     statement (set_best_model (Some m)) ;;
     statement (set_best_f1_model (Some Truncated)) ;;
     statement (set_best_f1_model (Some (Saved m)))
   else
     statement (fun w => set_patience_counter (patience_counter w + 1) w)) ;;
  statement (fun w => print (vf1, patience_counter w) w) ;;
  c <- gets patience_counter ;;
  if c =? max_patience then
    b <- gets best_model ;;
    match b with
    | Some p => statement (set_model p)
    | None => ret tt
    end ;;
    ret true
  else ret false.

(** Lines 35-94, the [for] loop: [epochs] has one entry per value of
    [range(num_epochs)].  [epoch_count % valid_every] divides by zero
    when [valid_every] is 0. *)
Fixpoint epochs_loop (max_patience valid_every epoch_count : Z)
    (epochs : list (list Params)) : M unit :=
  match epochs with
  | [] => tick
  | steps :: rest =>
      tick ;;
      train_batches steps ;;
      (if valid_every =? 0 then raise ZeroDivisionError else ret tt) ;;
      if epoch_count `mod` valid_every =? 0 then
        stop <- validation max_patience ;;
        if stop : bool then ret tt
        else epochs_loop max_patience valid_every (epoch_count + 1) rest
      else epochs_loop max_patience valid_every (epoch_count + 1) rest
  end.

(** Lines 95-101, the handler. *)
Definition restore_best_model : M unit :=
  b <- gets best_model ;;
  match b with
  | Some p => modify (set_model p)
  | None => ret tt
  end.

(** Lines 34-101. *)
Definition training (max_patience valid_every : Z)
    (epochs : list (list Params)) : M unit :=
  try_except_KeyboardInterrupt
    (epochs_loop max_patience valid_every 0 epochs)
    restore_best_model.

(** Line 107, [torch.load]. *)
Definition torch_load : M Params :=
  c <- gets best_f1_model ;;
  match c with
  | None => raise FileNotFoundError
  | Some Truncated => raise EOFError
  | Some (Saved p) => ret p
  end.

(** Lines 105-122; [test_batches] is the test split, and
    [initialize_test_batches()] its length. *)
Definition test_phase (test_batches : list batch) : M unit :=
  p <- torch_load ;;
  modify (set_model p) ;;
  if (length test_batches =? 0)%nat then ret tt
  else
    m <- gets model ;;
    ev <- lift (evaluate m test_batches) ;;
    modify (set_test_json (Some (test_export ev))).

(** Lines 24-139. *)
Definition train (epochs : list (list Params))
    (max_patience valid_every : Z) (test_batches : list batch) : M unit :=
  modify (set_best_f1 0) ;;
  modify (set_best_model None) ;;
  modify (set_patience_counter 0) ;;
  training max_patience valid_every epochs ;;
  test_phase test_batches.

End Trainer.

Arguments Batch {Features}.
Arguments features {Features}.
Arguments targets {Features}.
Arguments test_ids {Features}.
Arguments Saved {Params}.
Arguments Truncated {Params}.
Arguments World {Params}.
Arguments model {Params}.
Arguments best_f1 {Params}.
Arguments best_model {Params}.
Arguments patience_counter {Params}.
Arguments best_f1_model {Params}.
Arguments test_json {Params}.
Arguments stderr {Params}.
Arguments sigint {Params}.
Arguments set_model {Params}.
Arguments set_best_f1 {Params}.
Arguments set_best_model {Params}.
Arguments set_patience_counter {Params}.
Arguments set_best_f1_model {Params}.
Arguments set_test_json {Params}.
Arguments print {Params}.
Arguments set_sigint {Params}.
Arguments ret {Params A}.
Arguments raise {Params A}.
Arguments bind {Params A B}.
Arguments gets {Params A}.
Arguments modify {Params}.
Arguments lift {Params A}.
Arguments tick {Params}.
Arguments statement {Params}.
Arguments try_except_KeyboardInterrupt {Params}.
Arguments restore_best_model {Params}.
Arguments torch_load {Params}.
Arguments train_batches {Params}.
Arguments validation {Params}.
Arguments epochs_loop {Params}.
Arguments training {Params}.
Arguments evaluate_batches {Params Features}.
Arguments evaluate {Params Features}.
Arguments evaluate_patch_batches {Params Features}.
Arguments evaluate_patch {Params Features}.
Arguments predict_proba {Params Features}.
Arguments predict {Params Features}.
Arguments test_phase {Params Features}.
Arguments train {Params Features}.

(** Lines 65-67, the call of [evaluate] inside [train]: the validation
    split is [valid_batches], and [vf1] is the fourth value returned. *)
Definition validate_on {Params Features}
    (forward : Params -> Features -> list (list Q))
    (valid_batches : list (batch Features)) (m : Params) : result Q :=
  let? ev := evaluate forward m valid_batches in
  Ok (f1 ev).

End Reveal.

(** ** sequence/SVulD/run.py *)

Module SVulD.
Import Py Numpy Sklearn.

(** [l[:k]] and [[x] * n] for Python ints [k] and [n]. *)
Definition slice_to {A} (l : list A) (k : Z) : list A :=
  if 0 <=? k then take (Z.to_nat k) l
  else take (Z.to_nat (Z.of_nat (length l) + k)) l.

Definition times {A} (x : A) (n : Z) : list A := replicate (Z.to_nat n) x.

(** One item of a data file: a JSON object with a string [code], a
    string [contrast], an integer [index] and, when the data is
    labelled, an integer [label]. *)
Record js := Js {
  js_code : string;
  js_contrast : string;
  js_label : option Z;
  js_index : Z
}.

(** [js['label']]. *)
Definition getitem_label (j : js) : result Z :=
  match js_label j with
  | Some l => Ok l
  | None => Raised KeyError
  end.

Record InputFeatures := Build_InputFeatures {
  input_tokens : list string;
  input_ids : list Z;
  contrast_tokens : list string;
  contrast_ids : list Z;
  label : Z;
  index : Z
}.

(** [DataLoader(dataset, sampler=SequentialSampler(dataset),
    batch_size=n)]: consecutive groups of [n] items, the last one
    shorter; a batch size that is not positive is a ValueError. *)
Fixpoint batches_of {A} (fuel n : nat) (l : list A) : list (list A) :=
  match fuel with
  | O => []
  | S fuel' =>
      match l with
      | [] => []
      | _ => take n l :: batches_of fuel' n (drop n l)
      end
  end.

Definition DataLoader {A} (dataset : list A) (batch_size : Z)
  : result (list (list A)) :=
  if batch_size <=? 0 then Raised ValueError
  else Ok (batches_of (length dataset) (Z.to_nat batch_size) dataset).

(** [np.concatenate(arrays, 0)]: a ValueError on an empty list. *)
Definition concatenate {A} (arrays : list (list A)) : result (list A) :=
  match arrays with
  | [] => Raised ValueError
  | _ => Ok (concat arrays)
  end.

(** [logits[:, 1] > 0.5]. *)
Definition threshold (logits : list (list Q)) : result (list bool) :=
  for_each (fun row => let? x := column1 row in Ok (Qgtb x (1 # 2))) logits.

(** [results] of [evaluate], without the two ranking scores [pr_auc]
    and [roc_auc] of the probabilities. *)
Record results := Build_results {
  acc : Q;
  recall : Q;
  precision : Q;
  f1 : Q
}.

(** The tokenizer, by what the script calls on it. *)
Record Tokenizer := Build_Tokenizer {
  tokenize : string -> list string;
  convert_tokens_to_ids : list string -> list Z;
  cls_token : string;
  sep_token : string;
  pad_token_id : Z
}.

(** The entries of [args] that the evaluators read. *)
Record Args := Build_Args {
  block_size : Z;
  eval_batch_size : Z
}.

Section Run.
Variable Params : Type.
Variable args : Args.
Variable tokenizer : Tokenizer.

(** [model(inputs, contrasts, labels)] in eval mode, for one batch: the
    mean loss and one row of class probabilities per example. *)
Variable forward :
  Params -> list (list Z) -> option (list (list Z)) -> list Z ->
  Q * list (list Q).

(** Float addition, for [eval_loss += ...]. *)
Variable float_add : Q -> Q -> Q.

(** Lines 73-93. *)
Definition convert_examples_to_features (j : js) : result InputFeatures :=
  let code_tokens :=
    slice_to (tokenize tokenizer (js_code j)) (block_size args - 4) in
  let source_tokens :=
    [cls_token tokenizer; "<encoder_only>"%string; sep_token tokenizer]
    ++ code_tokens ++ [sep_token tokenizer] in
  let source_ids := convert_tokens_to_ids tokenizer source_tokens in
  let padding_length := block_size args - Z.of_nat (length source_ids) in
  let source_ids :=
    source_ids ++ times (pad_token_id tokenizer) padding_length in
  let contrast_tokens :=
    slice_to (tokenize tokenizer (js_contrast j)) (block_size args - 4) in
  let contrast_tokens :=
    [cls_token tokenizer; "<encoder_only>"%string; sep_token tokenizer]
    ++ contrast_tokens ++ [sep_token tokenizer] in
  let contrast_ids := convert_tokens_to_ids tokenizer contrast_tokens in
  let padding_length := block_size args - Z.of_nat (length contrast_ids) in
  let contrast_ids :=
    contrast_ids ++ times (pad_token_id tokenizer) padding_length in
  let? l := getitem_label j in
  Ok (Build_InputFeatures source_tokens source_ids
        contrast_tokens contrast_ids l (js_index j)).

(** Lines 96-101: every item of the file is converted on loading. *)
Definition TextDataset (data : list js) : result (list InputFeatures) :=
  for_each convert_examples_to_features data.

(** Lines 231-242. *)
Fixpoint evaluate_batches (m : Params) (batches : list (list InputFeatures))
    (eval_loss : Q) (logits : list (list (list Q)))
    (labels indices : list (list Z))
  : Q * list (list (list Q)) * list (list Z) * list (list Z) :=
  match batches with
  | [] => (eval_loss, logits, labels, indices)
  | batch :: rest =>
      let input := map input_ids batch in
      let contrast := map contrast_ids batch in
      let label := map label batch in
      let index := map index batch in
      let '(lm_loss, logit) := forward m input (Some contrast) label in
      evaluate_batches m rest (float_add eval_loss lm_loss)
        (logits ++ [logit]) (labels ++ [label]) (indices ++ [index])
  end.

(** Lines 213-262. *)
Definition evaluate (m : Params) (data_file : list js)
  : result (results * Q * list Z * list bool) :=
  let? eval_dataset := TextDataset data_file in
  let? eval_dataloader := DataLoader eval_dataset (eval_batch_size args) in
  let '(eval_loss, logits, labels, indices) :=
    evaluate_batches m eval_dataloader 0%Q [] [] [] in
  let? logits := concatenate logits in
  let? labels := concatenate labels in
  let? indices := concatenate indices in
  let? preds := threshold logits in
  let y_pred := map Z.b2z preds in
  let? a := accuracy_score labels y_pred in
  let? r := recall_score labels y_pred in
  let? p := precision_score labels y_pred in
  let? f := f1_score labels y_pred in
  Ok (Build_results a r p f, eval_loss, indices, preds).

(** Lines 346-355: the model is given the contrast sequence and the
    label of every example. *)
Fixpoint detect_batches (m : Params) (batches : list (list InputFeatures))
    (logits : list (list (list Q))) (labels indices : list (list Z))
  : list (list (list Q)) * list (list Z) * list (list Z) :=
  match batches with
  | [] => (logits, labels, indices)
  | batch :: rest =>
      let contrast := map contrast_ids batch in
      let label := map label batch in
      let index := map index batch in
      let '(_, logit) := forward m contrast None label in
      detect_batches m rest
        (logits ++ [logit]) (labels ++ [label]) (indices ++ [index])
  end.

(** Lines 326-364: the result is [results] (its one entry, [acc]), the
    list [indices] of the per-batch index arrays, and [preds]. *)
Definition detect (m : Params) (data_file : list js)
  : result (Q * list (list Z) * list bool) :=
  let? detect_dataset := TextDataset data_file in
  let? detect_dataloader := DataLoader detect_dataset (eval_batch_size args) in
  let '(logits, labels, indices) :=
    detect_batches m detect_dataloader [] [] [] in
  let? logits := concatenate logits in
  let? labels := concatenate labels in
  let? preds := threshold logits in
  let? a := accuracy_score labels (map Z.b2z preds) in
  Ok (a, indices, preds).

(** Lines 467-468: [pd.DataFrame] wants columns of one length;
    [to_dict("records")] gives one dict per row, in row order. *)
Definition record_json (row : Z * bool) : json :=
  JObj [("id"%string, JInt row.1); ("pred"%string, JBool row.2)].

Definition test_export (indices : list Z) (preds : list bool)
  : result json :=
  if (length indices =? length preds)%nat
  then Ok (JArr (map record_json (zip indices preds)))
  else Raised ValueError.

(** *** Training *)

(** The global [early_stopping] object of line 53; its class is in
    the absent [utils/early_stopping.py].  The loop calls it with the
    validation loss and reads its [early_stop] flag. *)
Variable EarlyStopping : Type.
Variable early_stopping_call : EarlyStopping -> Q -> EarlyStopping.
Variable early_stop : EarlyStopping -> bool.

(** [evaluate] on [args.eval_data_file], as the [results] and the
    [eval_loss] it returns for given parameters. *)
Variable validate : Params -> result (results * Q).

(** The model, the global early-stopping object and the two files:
    [<output_dir>/checkpoint-best-f1/model.bin] and
    [storage/test.json]. *)
Record state := State {
  model : Params;
  early_stopping : EarlyStopping;
  checkpoint : option Params;
  test_json : option json
}.

Definition set_model (p : Params) (s : state) : state :=
  State p (early_stopping s) (checkpoint s) (test_json s).
Definition set_early_stopping (e : EarlyStopping) (s : state) : state :=
  State (model s) e (checkpoint s) (test_json s).
Definition set_checkpoint (c : option Params) (s : state) : state :=
  State (model s) (early_stopping s) c (test_json s).
Definition set_test_json (j : option json) (s : state) : state :=
  State (model s) (early_stopping s) (checkpoint s) j.

(** Lines 187-208, after the batches of an epoch: the state and
    [best_f1] after, and whether the loop breaks.  With more than one
    GPU [main] has wrapped the model in [DataParallel] (lines
    441-442): the wrapper has the attribute [module], and line 203
    then reads its attribute [model], which it has not. *)
Definition validation (n_gpu : Z) (s : state) (best_f1 : Q)
  : result (state * Q * bool) :=
  let? (res, eval_loss) := validate (model s) in
  let? (s, best_f1) :=
    if Qgtb (f1 res) best_f1
    then if 1 <? n_gpu then Raised AttributeError
         else Ok (set_checkpoint (Some (model s)) s, f1 res)
    else Ok (s, best_f1) in
  let s := set_early_stopping
             (early_stopping_call (early_stopping s) eval_loss) s in
  Ok (s, best_f1, early_stop (early_stopping s)).

(** Lines 162-210: [epochs] has one entry per value of
    [range(num_train_epochs)], the parameters after each optimiser
    step of that epoch. *)
Fixpoint train_loop (n_gpu : Z) (epochs : list (list Params)) (s : state)
    (best_f1 : Q) : result state :=
  match epochs with
  | [] => Ok s
  | steps :: rest =>
      let s := set_model (List.last steps (model s)) s in
      let? (s, best_f1, stop) := validation n_gpu s best_f1 in
      if stop : bool then Ok s else train_loop n_gpu rest s best_f1
  end.

(** Lines 159-210: [train] from [best_f1 = 0] on. *)
Definition train (n_gpu : Z) (epochs : list (list Params)) (s : state)
  : result state :=
  train_loop n_gpu epochs s 0%Q.

(** Lines 452-469, the test branch of [main]: the checkpoint is
    loaded, the test file evaluated and the predictions written. *)
Definition test (test_data_file : list js) (s : state) : result state :=
  match checkpoint s with
  | None => Raised FileNotFoundError
  | Some p =>
      let s := set_model p s in
      let? (_, _, indices, preds) := evaluate (model s) test_data_file in
      let? records := test_export indices preds in
      Ok (set_test_json (Some records) s)
  end.


(** Lines 133-157 of [train], before the first epoch: the loader of
    the training data, [args.max_steps], the optimiser with its
    scheduler ([optimizer] is what building them gives), and the
    figures that are logged, of which
    [args.train_batch_size // args.n_gpu] divides by the number of
    GPUs that [torch.cuda.device_count()] has counted.  The result is
    [args.max_steps]. *)
Definition train_setup {Optimizer : Type}
    (train_batch_size num_train_epochs n_gpu : Z)
    (optimizer : Z -> result Optimizer)
    (train_dataset : list InputFeatures) : result Z :=
  let? train_dataloader := DataLoader train_dataset train_batch_size in
  let max_steps :=
    num_train_epochs * Z.of_nat (length train_dataloader) in
  let? _ := optimizer max_steps in
  if n_gpu =? 0 then Raised ZeroDivisionError else Ok max_steps.

(** Lines 131-210: [train] from its first line. *)
Definition train_from_setup {Optimizer : Type}
    (train_batch_size num_train_epochs n_gpu : Z)
    (optimizer : Z -> result Optimizer)
    (train_dataset : list InputFeatures)
    (epochs : list (list Params)) (s : state) : result state :=
  let? _ := train_setup train_batch_size num_train_epochs n_gpu
                        optimizer train_dataset in
  train n_gpu epochs s.

(** Lines 481-482: [pd.DataFrame] wants columns of one length, and
    [indices] is the list of the per-batch arrays; [to_csv] writes
    one row per item, the array of a batch beside a prediction. *)
Definition detect_export (indices : list (list Z)) (preds : list bool)
  : result (list (list Z * bool)) :=
  if (length indices =? length preds)%nat
  then Ok (zip indices preds)
  else Raised ValueError.

(** Lines 471-482, the [do_detect] branch of [main]: the state
    after, and the rows of the CSV file. *)
Definition detect_branch (test_data_file : list js) (s : state)
  : result (state * list (list Z * bool)) :=
  match checkpoint s with
  | None => Raised FileNotFoundError
  | Some p =>
      let s := set_model p s in
      let? (_, indices, preds) := detect (model s) test_data_file in
      let? rows := detect_export indices preds in
      Ok (s, rows)
  end.

End Run.

Arguments State {Params EarlyStopping}.
Arguments model {Params EarlyStopping}.
Arguments early_stopping {Params EarlyStopping}.
Arguments checkpoint {Params EarlyStopping}.
Arguments test_json {Params EarlyStopping}.
Arguments set_model {Params EarlyStopping}.
Arguments set_early_stopping {Params EarlyStopping}.
Arguments set_checkpoint {Params EarlyStopping}.
Arguments set_test_json {Params EarlyStopping}.
Arguments validation {Params EarlyStopping}.
Arguments train_loop {Params EarlyStopping}.
Arguments train {Params EarlyStopping}.
Arguments evaluate_batches {Params}.
Arguments evaluate {Params}.
Arguments detect_batches {Params}.
Arguments detect {Params}.
Arguments test {Params}.
Arguments train_from_setup {Params EarlyStopping} _ _ _ {Optimizer}.
Arguments detect_branch {Params}.

Section Main.
Context {Params EarlyStopping : Type}.
Variable args : Args.
Variable tokenizer : Tokenizer.
Variable forward :
  Params -> list (list Z) -> option (list (list Z)) -> list Z ->
  Q * list (list Q).
Variable float_add : Q -> Q -> Q.
Variable early_stopping_call : EarlyStopping -> Q -> EarlyStopping.
Variable early_stop : EarlyStopping -> bool.
(** [args.n_gpu], line 424. *)
Variable n_gpu : Z.

(** Line 187, the call of [evaluate] inside [train]. *)
Definition validate_on (eval_data_file : list js) (m : Params)
  : result (results * Q) :=
  let? (res, eval_loss, _, _) :=
    evaluate args tokenizer forward float_add m eval_data_file in
  Ok (res, eval_loss).

(** Lines 445-469: the [do_train] and [do_test] branches of [main]. *)
Definition main (do_train do_test : bool)
    (train_data_file eval_data_file test_data_file : list js)
    (epochs : list (list Params)) (s : state Params EarlyStopping)
  : result (state Params EarlyStopping) :=
  let? s :=
    if do_train then
      let? train_dataset := TextDataset args tokenizer train_data_file in
      train early_stopping_call early_stop (validate_on eval_data_file)
            n_gpu epochs s
    else Ok s in
  if do_test then
    test args tokenizer forward float_add EarlyStopping test_data_file s
  else Ok s.
End Main.

Module EarlyStoppingSpec.
(** Modelled from the spec: the class [EarlyStopping] of the absent
    [utils/early_stopping.py], after the EarlyStoppingState of the data
    model: [best_score], [patience_counter], [max_patience]. *)
Record EarlyStoppingState := Build_EarlyStoppingState {
  best_score : option Q;
  patience_counter : Z;
  max_patience : Z
}.

(** Modelled from the spec: [EarlyStopping()], with no score seen and
    patience 0. *)
Definition init (max_patience : Z) : EarlyStoppingState :=
  Build_EarlyStoppingState None 0 max_patience.

(** Modelled from the spec: the monitored metric improves; for a loss,
    lower is better. *)
Definition improves (s : EarlyStoppingState) (loss : Q) : bool :=
  match best_score s with
  | None => true
  | Some best => Qgtb best loss
  end.

(** Modelled from the spec: [early_stopping(eval_loss)], the transition
    on a validation cycle: an improvement resets the patience to 0,
    anything else increments it. *)
Definition call (s : EarlyStoppingState) (loss : Q) : EarlyStoppingState :=
  if improves s loss
  then Build_EarlyStoppingState (Some loss) 0 (max_patience s)
  else Build_EarlyStoppingState (best_score s) (patience_counter s + 1)
                                (max_patience s).

(** Modelled from the spec: [early_stopping.early_stop], the terminal
    state, reached when the patience equals [max_patience]. *)
Definition early_stop (s : EarlyStoppingState) : bool :=
  patience_counter s =? max_patience s.
End EarlyStoppingSpec.

End SVulD.


Module ZeroShotClaims.
Import Py ZeroShot.

(** The per-split result arrays of a prompt: file [i] of the prompt
    holds the JSON array [arrays !! i], for every [i] of
    [range(split_cnt)]. *)
Definition split_arrays (split_cnt : Z) (fs : gmap path file)
    (prompt_id : nat) (arrays : list (list json)) : Prop :=
  Forall2 (fun i items =>
             fs !! SplitResult prompt_id i = Some (Json (JArr items)))
          (range split_cnt) arrays.

(** All the files that the merge of a prompt reads are there. *)
Definition complete (split_cnt : Z) (fs : gmap path file) (prompt_id : nat)
  : Prop :=
  is_Some (fs !! SplitResult prompt_id 0)
  /\ exists arrays, split_arrays split_cnt fs prompt_id arrays.

Definition merged_with (split_cnt : Z) (fs : gmap path file)
    (prompt_id : nat) (arrays : list (list json)) : Prop :=
  (merge split_cnt fs).2 !! MergedResult prompt_id
  = Some (Json (JArr (concat arrays))).

(** C6 as the spec words it: whenever the split-0 file of a prompt
    exists, the merged file of that prompt is the concatenation. *)
Definition every_prompt_with_split_0_is_merged (split_cnt : Z)
    (fs : gmap path file) : Prop :=
  forall prompt_id arrays,
    is_Some (fs !! SplitResult prompt_id 0) ->
    split_arrays split_cnt fs prompt_id arrays ->
    merged_with split_cnt fs prompt_id arrays.

(** C7 as the spec words it: a prompt of which some split file was
    produced and another one, of any index, is missing makes the merge
    end with an error. *)
Definition every_missing_split_is_an_error (split_cnt : Z)
    (fs : gmap path file) : Prop :=
  forall prompt_id i j,
    (prompt_id < 100)%nat ->
    (i < Z.to_nat split_cnt)%nat -> (j < Z.to_nat split_cnt)%nat ->
    fs !! SplitResult prompt_id i = None ->
    is_Some (fs !! SplitResult prompt_id j) ->
    exists e, (merge split_cnt fs).1 = Raised e.

(** C10 as the spec words it. *)
Definition assertion_iff_not_divisible (all_gpus : list Z) (split_cnt : Z)
  : Prop :=
  fan_out all_gpus split_cnt = Raised AssertionError
  <-> ~ (split_cnt | Z.of_nat (length all_gpus)).

Definition item_a : json := JObj [("a"%string, JInt 1)].
Definition item_b : json := JObj [("b"%string, JInt 2)].

(** Both split files of prompt 0, as in the example of the spec. *)
Definition fs_example : gmap path file :=
  <[SplitResult 0 0 := Json (JArr [item_a])]>
    (<[SplitResult 0 1 := Json (JArr [item_b])]> ∅).

(** Prompt 1 has both its files, prompt 0 has none. *)
Definition fs_gap : gmap path file :=
  <[SplitResult 1 0 := Json (JArr [item_a])]>
    (<[SplitResult 1 1 := Json (JArr [item_b])]> ∅).

(** The subprocess of split 0 wrote nothing, that of split 1 did. *)
Definition fs_split_0_failed : gmap path file :=
  <[SplitResult 0 1 := Json (JArr [item_b])]> ∅.

(** The subprocess of split 1 wrote nothing, that of split 0 did. *)
Definition fs_split_1_failed : gmap path file :=
  <[SplitResult 0 0 := Json (JArr [item_a])]> ∅.
End ZeroShotClaims.


Module MetricsClaims.
Import Py Sklearn.

Definition binary (l : list Z) : Prop :=
  Forall (fun v => v = 0 \/ v = 1) l.

Definition both_classes (y_true : list Z) : Prop :=
  0 ∈ y_true /\ 1 ∈ y_true.

Definition unit_interval (q : Q) : Prop := (0 <= q /\ q <= 1)%Q.

(** F1 is the harmonic mean of precision and recall whenever their sum
    is positive. *)
Definition harmonic_mean (p r f : Q) : Prop :=
  (0 < p + r -> f == 2 * p * r / (p + r))%Q.

Definition well_scored (a p r f : Q) : Prop :=
  unit_interval a /\ unit_interval p /\ unit_interval r /\ unit_interval f
  /\ harmonic_mean p r f.

(** The labels of a data file of SVulD. *)
Definition labels_of (data : list SVulD.js) : list Z :=
  omap SVulD.js_label data.

(** A small validation split for Reveal: the features of a batch are
    taken to be the probability rows that the model gives for it. *)
Definition reveal_rows (m : unit) (rows : list (list Q)) : list (list Q) :=
  rows.

Definition reveal_split : list (Reveal.batch (list (list Q))) :=
  [Reveal.Batch [[1 # 5; 4 # 5]; [9 # 10; 1 # 10]]%Q [1; 0] [7; 3];
   Reveal.Batch [[3 # 10; 7 # 10]; [3 # 5; 2 # 5]]%Q [0; 1] [5; 1]].

(** A small data file for SVulD, with a tokenizer that makes one token
    per character and a model that gives class 1 to the inputs with at
    least [threshold] one-character tokens. *)
Definition toy_tokenizer : SVulD.Tokenizer :=
  SVulD.Build_Tokenizer
    (fun s => map (fun c => String c EmptyString)
                  (String.list_ascii_of_string s))
    (map (fun t => Z.of_nat (String.length t)))
    "<s>" "</s>" 0.

Definition toy_args : SVulD.Args := SVulD.Build_Args 8 2.

Definition toy_forward (threshold : Z) (inputs : list (list Z))
    (contrasts : option (list (list Z))) (labels : list Z)
  : Q * list (list Q) :=
  (1%Q,
   map (fun ids =>
          if Z.of_nat (length (List.filter (Z.eqb 1) ids)) <? threshold
          then [4 # 5; 1 # 5]%Q else [1 # 5; 4 # 5]%Q)
       inputs).

Definition toy_data : list SVulD.js :=
  [SVulD.Js "ab" "abcdefgh" (Some 1) 4;
   SVulD.Js "abc" "ab" (Some 0) 2;
   SVulD.Js "a" "abcdefghij" (Some 1) 9].
End MetricsClaims.


Module ExportClaims.
Import Py MetricsClaims.

(** The test prediction file of the spec: a JSON array of objects
    [{"id": <int>, "pred": <int 0|1>}], in ascending order of id. *)
Definition prediction_record (j : json) : option (Z * Z) :=
  match j with
  | JObj [(k1, JInt id); (k2, JInt pred)] =>
      if String.eqb k1 "id" && String.eqb k2 "pred"
         && ((pred =? 0) || (pred =? 1))
      then Some (id, pred) else None
  | _ => None
  end.

Definition record_id (j : json) : option Z :=
  match j with
  | JObj ((k1, JInt id) :: _) => if String.eqb k1 "id" then Some id else None
  | _ => None
  end.

Definition sorted_by_id (j : json) : Prop :=
  exists items ids,
    j = JArr items
    /\ Forall2 (fun item id => record_id item = Some id) items ids
    /\ Sorted Z.le ids.

Definition prediction_file (j : json) : Prop :=
  (exists items, j = JArr items
                 /\ Forall (fun item => is_Some (prediction_record item)) items)
  /\ sorted_by_id j.

(** C3 as the spec words it, for the file that a test run leaves. *)
Definition test_file_as_specified {Params EarlyStopping}
    (run : result (SVulD.state Params EarlyStopping)) : Prop :=
  forall s j, run = Ok s -> SVulD.test_json s = Some j -> prediction_file j.

(** Every probability row of the model has two columns. *)
Definition two_classes {Params Features}
    (forward : Params -> Features -> list (list Q)) (m : Params)
    (batches : list (Reveal.batch Features)) : Prop :=
  forall b row, b ∈ batches -> row ∈ forward m (Reveal.features b) ->
                length row = 2%nat.

(** The same data without its labels. *)
Definition unlabel (j : SVulD.js) : SVulD.js :=
  SVulD.Js (SVulD.js_code j) (SVulD.js_contrast j) None (SVulD.js_index j).

(** C4 as the spec words it: what a prediction mode returns does not
    depend on the labels of its input, present or not. *)
Definition label_free {A} (mode : list SVulD.js -> result A) : Prop :=
  forall data data',
    map unlabel data = map unlabel data' -> mode data = mode data'.

(** The state before a test run of SVulD: a checkpoint with threshold 2
    is on disk. *)
Definition toy_state : SVulD.state Z unit :=
  SVulD.State 0 tt (Some 2) None.

(** What the model gives for the batches of [detect]: it is handed
    the contrast ids of a batch as its input, no contrast, and the
    labels of the batch. *)
Definition detect_logits {Params}
    (forward : Params -> list (list Z) -> option (list (list Z)) ->
               list Z -> Q * list (list Q))
    (m : Params) (batches : list (list SVulD.InputFeatures))
  : list (list (list Q)) :=
  map (fun batch =>
         (forward m (map SVulD.contrast_ids batch) None
                  (map SVulD.label batch)).2)
      batches.

(** The probability rows that the Reveal model gives for the examples
    of the batches, in order. *)
Definition rows_of {Params Features}
    (forward : Params -> Features -> list (list Q)) (m : Params)
    (batches : list (Reveal.batch Features)) : list (list Q) :=
  concat (map (fun b => forward m (Reveal.features b)) batches).
End ExportClaims.


Module TrainerClaims.
Import Py Numpy.

(** *** A validation cycle of Reveal that no interrupt disturbs *)

Section Cycle.
Context {Params : Type}.
Implicit Type w : Reveal.world Params.

(** The world after lines 68-88 of a cycle with validation F1 [vf1]. *)
Definition after_cycle (vf1 : Q) w : Reveal.world Params :=
  if Qgtb vf1 (Reveal.best_f1 w) then
    Reveal.print (vf1, 0)
      (Reveal.set_best_f1_model (Some (Reveal.Saved (Reveal.model w)))
         (Reveal.set_best_model (Some (Reveal.model w))
            (Reveal.set_patience_counter 0 (Reveal.set_best_f1 vf1 w))))
  else
    Reveal.print (vf1, Reveal.patience_counter w + 1)
      (Reveal.set_patience_counter (Reveal.patience_counter w + 1) w).

(** Lines 90-93. *)
Definition restored w : Reveal.world Params :=
  match Reveal.best_model w with
  | Some p => Reveal.set_model p w
  | None => w
  end.

(** The bookkeeping variables as [train] initialises them. *)
Definition fresh w : Reveal.world Params :=
  Reveal.set_patience_counter 0
    (Reveal.set_best_model None (Reveal.set_best_f1 0 w)).

(** The world in which [train] is called: the model as it was built,
    the two files as earlier runs left them, nothing printed yet, and
    the interrupt to come after [sig] steps of the loop, if at all. *)
Definition before_run (m : Params)
    (file : option (Reveal.checkpoint_file Params))
    (test_file : option json) (sig : option nat) : Reveal.world Params :=
  Reveal.World m 0%Q None 0 file test_file [] sig.
End Cycle.

(** The number of validated epochs among [num_epochs] epochs counted
    from [epoch_count]. *)
Fixpoint validations_from (valid_every epoch_count : Z) (num_epochs : nat)
  : nat :=
  match num_epochs with
  | O => O
  | S n =>
      let rest := validations_from valid_every (epoch_count + 1) n in
      if epoch_count `mod` valid_every =? 0 then S rest else rest
  end.

Definition validations (valid_every : Z) (num_epochs : nat) : nat :=
  validations_from valid_every 0 num_epochs.

(** What holds of the bookkeeping of Reveal between two epochs when no
    interrupt has arrived: no reported F1 exceeds [best_f1]; while no
    snapshot has been taken [best_f1] is 0 and the checkpoint file is as
    it was before the run ([file0]); once one has been taken, the file
    holds it, its validation F1 is [best_f1], a positive value that a
    report shows. *)
Definition kept_best {Params} (validate : Params -> result Q)
    (file0 : option (Reveal.checkpoint_file Params))
    (w : Reveal.world Params) : Prop :=
  (forall line, line ∈ Reveal.stderr w -> (line.1 <= Reveal.best_f1 w)%Q)
  /\ match Reveal.best_model w with
     | None => Reveal.best_f1 w = 0%Q /\ Reveal.best_f1_model w = file0
     | Some p =>
         validate p = Ok (Reveal.best_f1 w)
         /\ (0 < Reveal.best_f1 w)%Q
         /\ Reveal.best_f1_model w = Some (Reveal.Saved p)
         /\ exists c, (Reveal.best_f1 w, c) ∈ Reveal.stderr w
     end.

(** What holds of the checkpoint file at every step of the loop: it is
    as before the run and no positive F1 was reported; or it is being
    written; or it holds a snapshot that validates with a positive F1
    that no reported F1 exceeds. *)
Definition file_so_far {Params} (validate : Params -> result Q)
    (file0 : option (Reveal.checkpoint_file Params))
    (w : Reveal.world Params) : Prop :=
  (Reveal.best_f1_model w = file0
   /\ forall line, line ∈ Reveal.stderr w -> (line.1 <= 0)%Q)
  \/ Reveal.best_f1_model w = Some Reveal.Truncated
  \/ exists p fb,
       Reveal.best_f1_model w = Some (Reveal.Saved p)
       /\ validate p = Ok fb /\ (0 < fb)%Q
       /\ forall line, line ∈ Reveal.stderr w -> (line.1 <= fb)%Q.

(** The same without the file, which an interrupt can leave behind the
    snapshot in memory. *)
Definition kept_in_memory {Params} (validate : Params -> result Q)
    (w : Reveal.world Params) : Prop :=
  (forall line, line ∈ Reveal.stderr w -> (line.1 <= Reveal.best_f1 w)%Q)
  /\ match Reveal.best_model w with
     | None => Reveal.best_f1 w = 0%Q
     | Some p => validate p = Ok (Reveal.best_f1 w)
                 /\ (0 < Reveal.best_f1 w)%Q
     end.

(** What holds of [best_model] at every step of the loop: the snapshot
    validates with a positive F1 that no reported F1 exceeds; when there
    is none, no positive F1 was reported. *)
Definition best_so_far {Params} (validate : Params -> result Q)
    (w : Reveal.world Params) : Prop :=
  match Reveal.best_model w with
  | None => forall line, line ∈ Reveal.stderr w -> (line.1 <= 0)%Q
  | Some p =>
      exists fb, validate p = Ok fb /\ (0 < fb)%Q
                 /\ forall line, line ∈ Reveal.stderr w -> (line.1 <= fb)%Q
  end.

(** What a statement establishes: [post] of its result and of the world
    after it. *)
Definition wp {Params A} (c : Reveal.M Params A)
    (post : result A -> Reveal.world Params -> Prop)
    (w : Reveal.world Params) : Prop :=
  post (c w).1 (c w).2.

(** What a loop establishes: [any] holds of the world however the loop
    ends, [inv] when it ends normally, and it raises only exceptions of
    [exns]. *)
Definition loop_post {Params A} (inv any : Reveal.world Params -> Prop)
    (exns : exn -> Prop) (r : result A) (w : Reveal.world Params) : Prop :=
  any w /\ match r with
           | Ok _ => inv w
           | Raised e => exns e
           end.




(** The reports of a run that stops exactly when the counter reaches
    [max_patience]: only the last report can show [max_patience], there
    are at most as many reports as validated epochs, and fewer only when
    the last one shows [max_patience]. *)
Definition stops_at_max_patience (max_patience : Z) (validated : nat)
    (log : list (Q * Z)) : Prop :=
  (forall i line, log !! i = Some line -> line.2 = max_patience ->
                  S i = length log)
  /\ (length log <= validated)%nat
  /\ ((length log < validated)%nat ->
      exists f, last log = Some (f, max_patience)).

(** *** The synthetic run of the spec *)

(** Parameters are named by the epoch that produced them, and the
    validation score of epoch [i] is the [i]-th of the sequence; two more
    epochs with a high score follow the six of the spec. *)
Definition scores : list Q := [1; 2; 3; 2; 2; 2; 9; 9]%Q.

Definition score_of (p : nat) : result Q := Ok (nth p scores 0%Q).

(** A validation that always yields F1 0. *)
Definition zero_score (p : nat) : result Q := Ok 0%Q.

Definition eight_epochs : list (list nat) := map (fun i => [i]) (seq 0 8).

Definition no_forward (p : nat) (f : unit) : list (list Q) := [].

Definition start : Reveal.world nat := before_run 100%nat None None None.

(** The same with Ctrl-C after 13 steps of the loop: the second cycle
    has then taken its snapshot and not yet written the file. *)
Definition interrupted_start : Reveal.world nat :=
  before_run 100%nat None None (Some 13%nat).



(** C1 as the spec words it for Reveal, at a point of a run: the
    checkpoint on disk is the snapshot taken at the best validation F1
    seen so far. *)
Definition on_disk_is_best_seen {Params} (validate : Params -> result Q)
    (w : Reveal.world Params) : Prop :=
  exists p, Reveal.best_f1_model w = Some (Reveal.Saved p)
            /\ validate p = Ok (Reveal.best_f1 w).

(** The loop has stopped for want of patience: the last report shows
    [max_patience]. *)
Definition stopped_at {Params} (max_patience : Z)
    (w : Reveal.world Params) : Prop :=
  exists f, last (Reveal.stderr w) = Some (f, max_patience).

(** The synthetic run with Ctrl-C one step later than in
    [interrupted_start]: the second cycle has then opened its file and
    not yet saved into it. *)
Definition interrupted_in_write : Reveal.world nat :=
  before_run 100%nat None None (Some 14%nat).
End TrainerClaims.


Module SVulDClaims.
Import Py Numpy.

(** The parameters at the end of each epoch, from the parameters [m]
    before the first one: those that [evaluate] is called on. *)
Fixpoint models_after {Params} (m : Params) (epochs : list (list Params))
  : list Params :=
  match epochs with
  | [] => []
  | steps :: rest =>
      let m' := List.last steps m in
      m' :: models_after m' rest
  end.

Section Kept.
Context {Params EarlyStopping : Type}.
Variable validate : Params -> result (SVulD.results * Q).

(** What [train] of SVulD keeps: [best] bounds the F1 of every
    evaluated model; while it is 0 the checkpoint file is as it was
    ([file0]), and otherwise the file holds an evaluated model whose
    F1 is [best]. *)
Definition kept_best_f1 (file0 : option Params) (evaluated : list Params)
    (s : SVulD.state Params EarlyStopping) (best : Q) : Prop :=
  (forall p, p ∈ evaluated ->
             exists res loss, validate p = Ok (res, loss)
                              /\ (SVulD.f1 res <= best)%Q)
  /\ ((best = 0%Q /\ SVulD.checkpoint s = file0)
      \/ exists p res loss,
           p ∈ evaluated /\ SVulD.checkpoint s = Some p
           /\ validate p = Ok (res, loss)
           /\ SVulD.f1 res = best /\ (0 < best)%Q).

(** The validation losses of the evaluated models, in order. *)
Definition losses_of (evaluated : list Params) (losses : list Q) : Prop :=
  Forall2 (fun p loss => exists res, validate p = Ok (res, loss))
          evaluated losses.

(** C1 as the spec words it for SVulD: the model in the checkpoint
    file has the lowest validation loss of the evaluated models. *)
Definition checkpoint_at_lowest_loss (evaluated : list Params)
    (s : SVulD.state Params EarlyStopping) : Prop :=
  forall p res loss,
    SVulD.checkpoint s = Some p -> validate p = Ok (res, loss) ->
    forall q res' loss',
      q ∈ evaluated -> validate q = Ok (res', loss') ->
      (loss <= loss')%Q.
End Kept.

(** Two epochs: the validation F1 rises from 1/2 to 3/5 while the
    validation loss rises from 1 to 2. *)
Definition rising (p : nat) : result (SVulD.results * Q) :=
  match p with
  | 1%nat => Ok (SVulD.Build_results (1 # 2) (1 # 2) (1 # 2) (1 # 2), 1%Q)
  | 2%nat => Ok (SVulD.Build_results (3 # 5) (3 # 5) (3 # 5) (3 # 5), 2%Q)
  | _ => Raised ValueError
  end.

Definition two_epochs : list (list nat) := [[1%nat]; [2%nat]].

Definition before_training
  : SVulD.state nat SVulD.EarlyStoppingSpec.EarlyStoppingState :=
  SVulD.State 0%nat (SVulD.EarlyStoppingSpec.init 3) None None.

(** C1 as the spec words it for the stop of SVulD: as in Reveal, the
    best checkpoint is then the model in memory. *)
Definition restored_on_stop {Params EarlyStopping}
    (s : SVulD.state Params EarlyStopping) : Prop :=
  forall p, SVulD.checkpoint s = Some p -> SVulD.model s = p.

(** Three epochs: the validation F1 is 3/5 and then 1/2, while the
    validation loss rises from 1 to 3. *)
Definition peaking (p : nat) : result (SVulD.results * Q) :=
  match p with
  | 1%nat => Ok (SVulD.Build_results (3 # 5) (3 # 5) (3 # 5) (3 # 5), 1%Q)
  | 2%nat => Ok (SVulD.Build_results (1 # 2) (1 # 2) (1 # 2) (1 # 2), 2%Q)
  | 3%nat => Ok (SVulD.Build_results (1 # 2) (1 # 2) (1 # 2) (1 # 2), 3%Q)
  | _ => Raised ValueError
  end.

Definition three_epochs : list (list nat) := [[1%nat]; [2%nat]; [3%nat]].

(** The state before a training that stops at the first loss that is
    no improvement. *)
Definition impatient
  : SVulD.state nat SVulD.EarlyStoppingSpec.EarlyStoppingState :=
  SVulD.State 0%nat (SVulD.EarlyStoppingSpec.init 1) None None.
End SVulDClaims.


(** * Further properties of the three scripts *)

Module ZeroShotCases.
Import Py ZeroShot.

(** What reading a split file raises when it does not give something
    that [extend] can iterate: a file that is not JSON, or a JSON null,
    boolean or number. *)
Definition load_error (f : file) : option exn :=
  match f with
  | Malformed => Some JSONDecodeError
  | Json (JNull | JBool _ | JInt _ | JFloat _) => Some TypeError
  | Json (JArr _ | JObj _ | JStr _) => None
  end.

(** Prompt 0 is complete, split 1 of prompt 1 is cut short. *)
Definition fs_cut_short : gmap path file :=
  <[SplitResult 0 0 := Json (JArr [JInt 1])]>
    (<[SplitResult 0 1 := Json (JArr [JInt 2])]>
       (<[SplitResult 1 0 := Json (JArr [JInt 3])]>
          (<[SplitResult 1 1 := Malformed]> ∅))).
End ZeroShotCases.

Module RevealCases.
Import Py MetricsClaims ExportClaims.

(** The probability rows of the batches all have one width, as the
    rows of a model with a fixed number of classes have. *)
Definition same_width {Params Features}
    (forward : Params -> Features -> list (list Q)) (m : Params)
    (batches : list (Reveal.batch Features)) : Prop :=
  exists n, Forall (fun row : list Q => length row = n)
                   (rows_of forward m batches).

(** A split on which the model of [reveal_rows] gives class 0 to
    every example. *)
Definition negative_split : list (Reveal.batch (list (list Q))) :=
  [Reveal.Batch [[4 # 5; 1 # 5]; [9 # 10; 1 # 10]]%Q [1; 0] [7; 3];
   Reveal.Batch [[7 # 10; 3 # 10]]%Q [1] [5]].
End RevealCases.


Module SVulDCases.
Import Py MetricsClaims.

(** A tokenizer that gives one id per token, as
    [convert_tokens_to_ids] does on a list of tokens. *)
Definition keeps_length (tokenizer : SVulD.Tokenizer) : Prop :=
  forall tokens,
    length (SVulD.convert_tokens_to_ids tokenizer tokens) = length tokens.

(** The three special tokens before the text and the one after it. *)
Definition framed (tokenizer : SVulD.Tokenizer) (text : list string)
  : list string :=
  [SVulD.cls_token tokenizer; "<encoder_only>"%string;
   SVulD.sep_token tokenizer] ++ text ++ [SVulD.sep_token tokenizer].

(** The loss that the model gives for one batch of [evaluate]. *)
Definition batch_loss {Params}
    (forward : Params -> list (list Z) -> option (list (list Z)) ->
               list Z -> Q * list (list Q))
    (m : Params) (batch : list SVulD.InputFeatures) : Q :=
  (forward m (map SVulD.input_ids batch)
           (Some (map SVulD.contrast_ids batch))
           (map SVulD.label batch)).1.

(** What [detect] hands to the model and returns of an example. *)
Definition detect_view (j : SVulD.js) : string * option Z * Z :=
  (SVulD.js_contrast j, SVulD.js_label j, SVulD.js_index j).

(** The defaults of the command line: [--block_size -1] and
    [--eval_batch_size 4]. *)
Definition default_args : SVulD.Args := SVulD.Build_Args (-1) 4.

(** The arguments of [toy_args] with batches of one example. *)
Definition single_args : SVulD.Args := SVulD.Build_Args 8 1.

(** The data of [toy_data] with other code. *)
Definition other_code : list SVulD.js :=
  [SVulD.Js "x" "abcdefgh" (Some 1) 4;
   SVulD.Js "" "ab" (Some 0) 2;
   SVulD.Js "abcdef" "abcdefghij" (Some 1) 9].

(** A validation that finds F1 0 and loss 1 whatever the model. *)
Definition flat (p : nat) : result (SVulD.results * Q) :=
  Ok (SVulD.Build_results (1 # 2) 0 0 0, 1%Q).

(** A model whose every evaluation has F1 0: it gives class 0 to
    every example. *)
Definition all_negative (m : unit) (inputs : list (list Z))
    (contrasts : option (list (list Z))) (labels : list Z)
  : Q * list (list Q) :=
  (1%Q, map (fun _ => [4 # 5; 1 # 5]%Q) inputs).
End SVulDCases.

Module ZeroShotProofs.
Import Py ZeroShot ZeroShotClaims.

Lemma load_splits_arrays fs p idxs arrays acc :
  Forall2 (fun i items => fs !! SplitResult p i = Some (Json (JArr items)))
          idxs arrays ->
  load_splits fs p idxs acc = Ok (acc ++ concat arrays).
Proof.
  intros H. revert acc.
  induction H as [|i items idxs arrays Hi _ IH]; intros acc; simpl.
  - by rewrite app_nil_r.
  - rewrite Hi. simpl. rewrite IH. by rewrite app_assoc.
Qed.

Lemma merge_loop_split split_cnt ps fs q i :
  (merge_loop split_cnt ps fs).2 !! SplitResult q i = fs !! SplitResult q i.
Proof.
  revert fs. induction ps as [|p ps IH]; intros fs; simpl; [done|].
  destruct (fs !! SplitResult p 0); [|done].
  destruct (load_splits _ _ _ _); [|done].
  rewrite IH. by rewrite lookup_insert_ne.
Qed.

Lemma merge_loop_other split_cnt ps fs q :
  q ∉ ps ->
  (merge_loop split_cnt ps fs).2 !! MergedResult q = fs !! MergedResult q.
Proof.
  revert fs. induction ps as [|p ps IH]; intros fs Hq; simpl; [done|].
  apply not_elem_of_cons in Hq as [Hne Hq].
  destruct (fs !! SplitResult p 0); [|done].
  destruct (load_splits _ _ _ _); [|done].
  rewrite IH; [|done]. rewrite lookup_insert_ne; [done|congruence].
Qed.

Lemma split_arrays_insert split_cnt fs p q v arrays :
  split_arrays split_cnt fs p arrays ->
  split_arrays split_cnt (<[MergedResult q := v]> fs) p arrays.
Proof.
  unfold split_arrays. intros H. eapply Forall2_impl; [exact H|].
  intros i items Hi. by rewrite lookup_insert_ne.
Qed.

Lemma complete_insert split_cnt fs p q v :
  complete split_cnt fs p ->
  complete split_cnt (<[MergedResult q := v]> fs) p.
Proof.
  intros [H0 [arrays Ha]]. split.
  - by rewrite lookup_insert_ne.
  - exists arrays. by apply split_arrays_insert.
Qed.

(** The loop over [a, a+1, ...] writes the merged file of [p] once it
    has found every prompt from [a] to [p] complete. *)
Lemma merge_loop_reaches split_cnt n : forall a fs p arrays,
  (a <= p < a + n)%nat ->
  (forall q, (a <= q <= p)%nat -> complete split_cnt fs q) ->
  split_arrays split_cnt fs p arrays ->
  (merge_loop split_cnt (seq a n) fs).2 !! MergedResult p
  = Some (Json (JArr (concat arrays))).
Proof.
  induction n as [|n IH]; intros a fs p arrays Hp Hall Hp_arr; [lia|].
  simpl. destruct (Hall a ltac:(lia)) as [[f0 Hf0] [arrays_a Ha]].
  rewrite Hf0. rewrite (load_splits_arrays _ _ _ arrays_a []); [|done].
  simpl. destruct (decide (a = p)) as [->|Hne].
  - rewrite merge_loop_other.
    + rewrite lookup_insert_eq.
      unfold split_arrays in *.
      assert (arrays_a = arrays) as ->; [|done].
      revert Ha Hp_arr. generalize (range split_cnt).
      intros idxs Ha. revert arrays.
      induction Ha as [|i x idxs arrays_a Hx _ IHa]; intros arrays Hb;
        inversion Hb; subst; [done|].
      f_equal; [congruence|]. by apply IHa.
    + rewrite elem_of_seq. lia.
  - apply IH; [lia| |by apply split_arrays_insert].
    intros q Hq. apply complete_insert. apply Hall. lia.
Qed.


(** C6 (amended).  The merged file of prompt [p] is the concatenation of
    the arrays of its split files, in ascending split index, when [p] is
    below 100 and every prompt from 0 to [p] has its split-0 file and
    an array in each of its split files.  This holds of the files left
    by the merge however the loop ends afterwards. *)
Theorem merge_concatenates_splits split_cnt fs p arrays :
  (p < 100)%nat ->
  (forall q, (q <= p)%nat -> complete split_cnt fs q) ->
  split_arrays split_cnt fs p arrays ->
  merged_with split_cnt fs p arrays.
Proof.
  intros Hp Hall Harr. unfold merged_with, merge, range.
  apply merge_loop_reaches; [lia| |done].
  intros q Hq. apply Hall. lia.
Qed.

(** The example of the spec: both split files of prompt 0. *)
Lemma merge_concatenates_splits_witness :
  merged_with 2 fs_example 0 [[item_a]; [item_b]].
Proof.
  apply (merge_concatenates_splits 2 fs_example 0 [[item_a]; [item_b]]).
  - lia.
  - intros q Hq. assert (q = 0%nat) as -> by lia.
    split; [by eexists|].
    exists [[item_a]; [item_b]]. repeat constructor.
  - repeat constructor.
Defined.

(** Prompt 1 has its split-0 file and both its arrays, and is not merged:
    the loop has stopped at prompt 0, which has no split-0 file. *)
Lemma merge_stops_at_first_gap :
  ~ every_prompt_with_split_0_is_merged 2 fs_gap.
Proof.
  intros H.
  specialize (H 1%nat [[item_a]; [item_b]]).
  assert (merged_with 2 fs_gap 1 [[item_a]; [item_b]]) as Hm.
  { apply H; [by eexists|repeat constructor]. }
  unfold merged_with in Hm. vm_compute in Hm. discriminate.
Qed.

Lemma load_splits_missing fs p i k : forall a acc,
  (a <= i < a + k)%nat ->
  (forall j, (a <= j < i)%nat ->
             exists items, fs !! SplitResult p j = Some (Json (JArr items))) ->
  fs !! SplitResult p i = None ->
  load_splits fs p (seq a k) acc = Raised FileNotFoundError.
Proof.
  induction k as [|k IH]; intros a acc Hi Hbefore Hnone; [lia|].
  simpl. destruct (decide (a = i)) as [->|Hne].
  - by rewrite Hnone.
  - destruct (Hbefore a ltac:(lia)) as [items ->]. simpl.
    apply IH; [lia| |done]. intros j Hj. apply Hbefore. lia.
Qed.

(** How the loop over [a, a+1, ...] ends at a prompt [p] that lacks its
    split file [i], the prompts before [p] being complete: silently when
    [i] is 0, with FileNotFoundError otherwise; and no merged file is
    written for [p] or a later prompt. *)
Lemma merge_loop_missing split_cnt p i n : forall a fs,
  (a <= p < a + n)%nat ->
  (forall q, (a <= q < p)%nat -> complete split_cnt fs q) ->
  (i < Z.to_nat split_cnt)%nat ->
  (forall j, (j < i)%nat ->
             exists items, fs !! SplitResult p j = Some (Json (JArr items))) ->
  fs !! SplitResult p i = None ->
  exists fs',
    merge_loop split_cnt (seq a n) fs
    = (if decide (i = 0%nat) then Ok tt else Raised FileNotFoundError, fs')
    /\ forall q, (p <= q)%nat -> fs' !! MergedResult q = fs !! MergedResult q.
Proof.
  induction n as [|n IH]; intros a fs Hp Hall Hi Hbefore Hnone; [lia|].
  simpl. destruct (decide (a = p)) as [->|Hne].
  - destruct (decide (i = 0%nat)) as [->|Hi0].
    + rewrite Hnone. by exists fs.
    + destruct (Hbefore 0%nat ltac:(lia)) as [items0 ->].
      unfold range.
      rewrite (load_splits_missing fs p i); [by exists fs|lia| |done].
      intros j Hj. apply Hbefore. lia.
  - destruct (Hall a ltac:(lia)) as [[f0 Hf0] [arrays_a Ha]].
    rewrite Hf0. rewrite (load_splits_arrays _ _ _ arrays_a []); [|done].
    destruct (IH (S a) (<[MergedResult a := Json (JArr ([] ++ concat arrays_a))]> fs))
      as [fs' [Heq Hfs']]; [lia| |done| | |].
    + intros q Hq. apply complete_insert. apply Hall. lia.
    + intros j Hj. rewrite lookup_insert_ne; [|done]. by apply Hbefore.
    + by rewrite lookup_insert_ne.
    + exists fs'. split; [done|]. intros q Hq. rewrite Hfs'; [|done].
      rewrite lookup_insert_ne; [done|]. intros [=]. lia.
Qed.

(** C7 (amended).  The fan-out does not look at the return codes of the
    subprocesses: runs that leave the same files end the same.  At a
    prompt [p] below 100 that lacks its split file [i], all prompts
    before it being complete and the files of [p] below [i] holding
    arrays, the merge ends with FileNotFoundError when [i] is not 0, and
    ends normally, without any error, when [i] is 0; either way no
    merged file is written for [p] or for a later prompt. *)
Theorem missing_split_file split_cnt fs p i :
  (p < 100)%nat ->
  (forall q, (q < p)%nat -> complete split_cnt fs q) ->
  (i < Z.to_nat split_cnt)%nat ->
  (forall j, (j < i)%nat ->
             exists items, fs !! SplitResult p j = Some (Json (JArr items))) ->
  fs !! SplitResult p i = None ->
  (forall zero_shot zero_shot' all_gpus cnt fs0,
      (forall all_p, (zero_shot all_p fs0).1 = (zero_shot' all_p fs0).1) ->
      main zero_shot all_gpus cnt fs0 = main zero_shot' all_gpus cnt fs0)
  /\ exists fs',
       merge split_cnt fs
       = (if decide (i = 0%nat) then Ok tt else Raised FileNotFoundError, fs')
       /\ forall q, (p <= q)%nat ->
                    fs' !! MergedResult q = fs !! MergedResult q.
Proof.
  intros Hp Hall Hi Hbefore Hnone. split.
  - intros zero_shot zero_shot' all_gpus cnt fs0 Hsame. unfold main.
    destruct (fan_out all_gpus cnt) as [all_p|e]; [|done].
    specialize (Hsame all_p).
    destruct (zero_shot all_p fs0), (zero_shot' all_p fs0).
    simpl in Hsame. by subst.
  - unfold merge, range.
    apply (merge_loop_missing split_cnt p i); try done; try lia.
    intros q Hq. apply Hall. lia.
Qed.

(** The file of split 1 of prompt 0 is missing: FileNotFoundError. *)
Lemma missing_split_file_witness :
  exists fs',
    merge 2 fs_split_1_failed = (Raised FileNotFoundError, fs')
    /\ forall q, (0 <= q)%nat ->
                 fs' !! MergedResult q = fs_split_1_failed !! MergedResult q.
Proof.
  apply (missing_split_file 2 fs_split_1_failed 0 1).
  - lia.
  - intros q Hq. lia.
  - simpl. lia.
  - intros j Hj. assert (j = 0%nat) as -> by lia. by eexists.
  - reflexivity.
Defined.

(** The file of split 0 of prompt 0 is missing while that of split 1 is
    there: the merge ends normally. *)
Lemma missing_split_0_is_silent :
  ~ every_missing_split_is_an_error 2 fs_split_0_failed.
Proof.
  intros H.
  destruct (H 0%nat 0%nat 1%nat) as [e He];
    [lia|simpl; lia|simpl; lia|reflexivity|by eexists|].
  vm_compute in He. discriminate.
Qed.


Lemma slices_concat {A} (ary : list A) sizes : forall st,
  concat (slices st sizes ary) = take (sum_list sizes) (drop st ary).
Proof.
  induction sizes as [|n sizes IH]; intros st; simpl; [done|].
  rewrite IH. rewrite <- drop_drop. by rewrite take_take_drop.
Qed.

Lemma slices_lookup {A} (ary : list A) sizes : forall st i n,
  sizes !! i = Some n ->
  slices st sizes ary !! i
  = Some (take n (drop (st + sum_list (take i sizes)) ary)).
Proof.
  induction sizes as [|m sizes IH]; intros st i n Hi; [done|].
  destruct i as [|i]; simpl in *.
  - inversion Hi; subst. by rewrite Nat.add_0_r.
  - rewrite (IH _ _ n Hi). by rewrite Nat.add_assoc.
Qed.

Lemma slices_length {A} (ary : list A) sizes : forall st,
  length (slices st sizes ary) = length sizes.
Proof. induction sizes as [|n sizes IH]; intros st; simpl; [done|]. by rewrite IH. Qed.

Lemma sum_list_replicate n k : sum_list (replicate n k) = (n * k)%nat.
Proof. induction n as [|n IH]; simpl; [done|]. rewrite IH. lia. Qed.

(** [spawn] over [range(len(gpus_splits))] makes one command per group,
    in order. *)
Lemma spawn_seq cnt suf : forall pre,
  spawn (pre ++ suf) cnt (seq (length pre) (length suf))
  = Ok (imap (fun i g => Command g (length pre + i) cnt) suf).
Proof.
  induction suf as [|g suf IH]; intros pre; simpl; [done|].
  rewrite lookup_app_r; [|lia]. rewrite Nat.sub_diag. simpl.
  specialize (IH (pre ++ [g])). rewrite <- app_assoc in IH. simpl in IH.
  rewrite length_app in IH. simpl in IH.
  rewrite Nat.add_1_r in IH. rewrite IH.
  do 2 f_equal; [f_equal; lia|].
  apply imap_ext. intros i x _. simpl. f_equal. lia.
Qed.

Lemma spawn_all cnt gpus_splits :
  spawn gpus_splits cnt (seq 0 (length gpus_splits))
  = Ok (imap (fun i g => Command g i cnt) gpus_splits).
Proof. apply (spawn_seq cnt gpus_splits []). Qed.

Lemma concat_NoDup_unique {A} (ls : list (list A)) : forall i j a b g,
  NoDup (concat ls) ->
  ls !! i = Some a -> ls !! j = Some b -> g ∈ a -> g ∈ b -> i = j.
Proof.
  induction ls as [|l ls IH]; intros i j a b g Hnd Hi Hj Ha Hb; [done|].
  simpl in Hnd. apply NoDup_app in Hnd as (Hl & Hdisj & Hrest).
  destruct i as [|i], j as [|j]; simpl in *.
  - done.
  - inversion Hi; subst. exfalso. apply (Hdisj g Ha).
    apply list_elem_of_In, in_concat. exists b.
    split; [|by apply list_elem_of_In].
    apply list_elem_of_In. by eapply list_elem_of_lookup_2.
  - inversion Hj; subst. exfalso. apply (Hdisj g Hb).
    apply list_elem_of_In, in_concat. exists a.
    split; [|by apply list_elem_of_In].
    apply list_elem_of_In. by eapply list_elem_of_lookup_2.
  - f_equal. by apply (IH i j a b g).
Qed.

Lemma gpus_imap cnt (l : list (list Z)) :
  map gpus (imap (fun i g => Command g i cnt) l) = l.
Proof.
  assert (forall (f : nat -> list Z -> command) (l : list (list Z)),
             (forall i g, gpus (f i g) = g) -> map gpus (imap f l) = l) as H.
  { clear. intros f l. revert f.
    induction l as [|x l IH]; intros f Hf; simpl; [done|].
    rewrite Hf. f_equal. apply IH. intros i g. apply Hf. }
  by apply H.
Qed.

Lemma divides_nat (len : nat) (split_cnt : Z) :
  0 < split_cnt ->
  ((split_cnt | Z.of_nat len)
   <-> (len `mod` Z.to_nat split_cnt = 0)%nat).
Proof.
  intros Hpos. rewrite <- Z.mod_divide by lia.
  rewrite <- (Z2Nat.id split_cnt) at 1 by lia.
  rewrite <- Nat2Z.inj_mod. lia.
Qed.

Lemma fan_out_divisible all_gpus split_cnt :
  0 < split_cnt ->
  (split_cnt | Z.of_nat (length all_gpus)) ->
  fan_out all_gpus split_cnt
  = Ok (imap (fun i g => Command g i split_cnt)
             (slices 0 (replicate (Z.to_nat split_cnt)
                                  (length all_gpus / Z.to_nat split_cnt)%nat)
                     all_gpus)).
Proof.
  intros Hpos Hdiv. unfold fan_out, array_split.
  destruct (Z.eqb_spec split_cnt 0) as [|_]; [lia|].
  pose proof Hdiv as Hmod. rewrite <- Z.mod_divide in Hmod by lia.
  rewrite Hmod. simpl.
  destruct (Z.leb_spec split_cnt 0) as [|_]; [lia|].
  apply divides_nat in Hdiv; [|done]. rewrite Hdiv. simpl.
  rewrite Nat.sub_0_r. unfold range.
  set (splits := slices _ _ _).
  assert (length splits = Z.to_nat split_cnt) as <-.
  { unfold splits. by rewrite slices_length, length_replicate. }
  apply spawn_all.
Qed.

(** C10 (amended).  For a positive [split_cnt]: the script ends with
    AssertionError exactly when [split_cnt] does not divide the number
    of GPUs; when it divides, there are [split_cnt] commands, numbered
    in order, whose GPU groups are consecutive pieces of [all_gpus], of
    [len(all_gpus) // split_cnt] GPUs each, that together make up
    [all_gpus]; and when the GPU ids are pairwise distinct, each id is
    in the group of exactly one command. *)
Theorem fan_out_partitions all_gpus split_cnt :
  0 < split_cnt ->
  (fan_out all_gpus split_cnt = Raised AssertionError
   <-> ~ (split_cnt | Z.of_nat (length all_gpus)))
  /\ ((split_cnt | Z.of_nat (length all_gpus)) ->
      exists all_p,
        fan_out all_gpus split_cnt = Ok all_p
        /\ length all_p = Z.to_nat split_cnt
        /\ concat (map gpus all_p) = all_gpus
        /\ (forall i c, all_p !! i = Some c ->
              split_idx c = i /\ total_split_cnt c = split_cnt
              /\ Z.of_nat (length (gpus c))
                 = Z.of_nat (length all_gpus) / split_cnt)
        /\ (NoDup all_gpus -> forall g, g ∈ all_gpus ->
              exists i c, all_p !! i = Some c /\ g ∈ gpus c
                /\ forall j c', all_p !! j = Some c' -> g ∈ gpus c' -> j = i)).
Proof.
  intros Hpos. split.
  - split.
    + intros Herr Hdiv. rewrite fan_out_divisible in Herr; [|done|done].
      discriminate.
    + intros Hndiv. unfold fan_out.
      destruct (Z.eqb_spec split_cnt 0) as [|_]; [lia|].
      destruct (Z.eqb_spec (Z.of_nat (length all_gpus) `mod` split_cnt) 0)
        as [Hmod|_]; [|done].
      exfalso. apply Hndiv. apply Z.mod_divide; [lia|done].
  - intros Hdiv. eexists. split; [by apply fan_out_divisible|].
    set (n := Z.to_nat split_cnt).
    set (each := (length all_gpus / n)%nat).
    set (splits := slices 0 (replicate n each) all_gpus).
    assert (n <> 0%nat) as Hn by lia.
    assert (length all_gpus = (n * each)%nat) as Hlen.
    { apply divides_nat in Hdiv; [|done]. fold n in Hdiv.
      unfold each. pose proof (Nat.div_mod_eq (length all_gpus) n). lia. }
    assert (map gpus (imap (fun i g => Command g i split_cnt) splits) = splits)
      as Hgpus.
    { apply gpus_imap. }
    assert (concat splits = all_gpus) as Hconcat.
    { unfold splits. rewrite slices_concat, sum_list_replicate. simpl.
      rewrite <- Hlen. apply firstn_all. }
    split; [|split; [|split]].
    + rewrite length_imap. unfold splits.
      by rewrite slices_length, length_replicate.
    + by rewrite Hgpus.
    + intros i c Hc. apply list_lookup_imap_Some in Hc as (g & Hg & ->).
      simpl. split; [done|]. split; [done|].
      assert (i < n)%nat as Hi.
      { apply lookup_lt_Some in Hg. unfold splits in Hg.
        by rewrite slices_length, length_replicate in Hg. }
      unfold splits in Hg.
      rewrite (slices_lookup _ _ _ _ each) in Hg
        by (by apply lookup_replicate_2).
      inversion Hg; subst g. rewrite length_take, length_drop.
      rewrite take_replicate, sum_list_replicate.
      replace (i `min` n)%nat with i by lia.
      assert (i * each + each <= n * each)%nat by nia.
      assert (Z.of_nat (length all_gpus) `div` split_cnt = Z.of_nat each)
        as ->.
      { rewrite Hlen, Nat2Z.inj_mul. unfold n. rewrite Z2Nat.id by lia.
        rewrite Z.mul_comm, Z.div_mul by lia. done. }
      lia.
    + intros Hnd g Hg. rewrite <- Hconcat in Hg, Hnd.
      apply list_elem_of_In, in_concat in Hg as (grp & Hgrp & Hin).
      apply list_elem_of_In, list_elem_of_lookup in Hgrp as [i Hi].
      exists i, (Command grp i split_cnt). split; [|split].
      * apply list_lookup_imap_Some. by exists grp.
      * simpl. by apply list_elem_of_In.
      * intros j c' Hj Hgc'.
        apply list_lookup_imap_Some in Hj as (grp' & Hj & ->). simpl in Hgc'.
        apply (concat_NoDup_unique splits j i grp' grp g); try done.
        by apply list_elem_of_In.
Qed.

(** The constants of the script. *)
Lemma fan_out_partitions_witness :
  0 < split_cnt
  /\ (fan_out all_gpus split_cnt = Raised AssertionError
      <-> ~ (split_cnt | Z.of_nat (length all_gpus))).
Proof.
  split; [reflexivity|].
  apply (fan_out_partitions all_gpus split_cnt). reflexivity.
Defined.

(** With [split_cnt = 0], which does not divide 4, the script ends with
    ZeroDivisionError, not with AssertionError. *)
Lemma zero_split_cnt_is_no_assertion :
  ~ assertion_iff_not_divisible all_gpus 0.
Proof.
  intros [_ H].
  assert (fan_out all_gpus 0 = Raised AssertionError) as Herr.
  { apply H. intros [k Hk]. simpl in Hk. lia. }
  vm_compute in Herr. discriminate.
Qed.
End ZeroShotProofs.


Module MetricsProofs.
Import Py Numpy Sklearn MetricsClaims.

Lemma count_nonneg f pairs : 0 <= count f pairs.
Proof. induction pairs as [|yp pairs IH]; simpl; [lia|]. destruct (f yp); lia. Qed.

Lemma count_le_length f pairs : count f pairs <= Z.of_nat (length pairs).
Proof.
  induction pairs as [|yp pairs IH]; simpl length; simpl count; [lia|].
  destruct (f yp); lia.
Qed.

Lemma count_mono f g pairs :
  (forall yp, f yp = true -> g yp = true) ->
  count f pairs <= count g pairs.
Proof.
  intros Hfg. induction pairs as [|yp pairs IH]; simpl; [lia|].
  specialize (Hfg yp).
  destruct (f yp), (g yp); try lia; discriminate (Hfg eq_refl).
Qed.

Lemma tp_le_pred pairs : tp_sum pairs <= pred_sum pairs.
Proof. apply count_mono. intros yp H. by apply andb_true_iff in H as [_ H]. Qed.

Lemma tp_le_true pairs : tp_sum pairs <= true_sum pairs.
Proof. apply count_mono. intros yp H. by apply andb_true_iff in H as [H _]. Qed.

Lemma prf_divide_unit num den :
  0 <= num <= den -> unit_interval (prf_divide num den).
Proof.
  intros [Hnum Hden]. unfold unit_interval, prf_divide.
  destruct (Z.eqb_spec den 0) as [|Hne]; [split; discriminate|].
  assert (0 < inject_Z den)%Q as Hpos.
  { change 0%Q with (inject_Z 0). rewrite <- Zlt_Qlt. lia. }
  split.
  - apply Qle_shift_div_l; [done|]. rewrite Qmult_0_l.
    change 0%Q with (inject_Z 0). by rewrite <- Zle_Qle.
  - apply Qle_shift_div_r; [done|]. rewrite Qmult_1_l.
    by rewrite <- Zle_Qle.
Qed.

Lemma inject_Z_nonzero z : z <> 0 -> ~ (inject_Z z == 0)%Q.
Proof. intros Hz H. unfold Qeq in H. simpl in H. lia. Qed.

Lemma scores_well (pairs : list (Z * Z)) :
  well_scored (accuracy pairs) (precision pairs) (recall pairs) (f1 pairs).
Proof.
  pose proof (count_nonneg (fun yp => (yp.1 =? 1) && (yp.2 =? 1)) pairs) as Htp.
  fold (tp_sum pairs) in Htp.
  pose proof (tp_le_pred pairs) as Hp. pose proof (tp_le_true pairs) as Ht.
  unfold well_scored, accuracy, precision, recall, f1.
  split; [|split; [|split; [|split]]].
  - apply prf_divide_unit. split; [apply count_nonneg|apply count_le_length].
  - by apply prf_divide_unit.
  - by apply prf_divide_unit.
  - apply prf_divide_unit. lia.
  - unfold harmonic_mean, prf_divide.
    destruct (Z.eqb_spec (pred_sum pairs) 0) as [Hp0|Hp0].
    { destruct (Z.eqb_spec (true_sum pairs) 0) as [Ht0|Ht0].
      - intros H. by apply Qlt_irrefl in H.
      - assert (tp_sum pairs = 0) as -> by lia.
        intros H. exfalso. revert H. unfold Qdiv.
        rewrite Qmult_0_l, Qplus_0_l. apply Qlt_irrefl. }
    destruct (Z.eqb_spec (true_sum pairs) 0) as [Ht0|Ht0].
    { assert (tp_sum pairs = 0) as -> by lia.
      intros H. exfalso. revert H. unfold Qdiv.
      rewrite Qmult_0_l, Qplus_0_l. apply Qlt_irrefl. }
    intros Hsum.
    assert (tp_sum pairs <> 0) as Htp0.
    { intros H0. rewrite H0 in Hsum. revert Hsum. unfold Qdiv.
      rewrite !Qmult_0_l, Qplus_0_l. apply Qlt_irrefl. }
    destruct (Z.eqb_spec (true_sum pairs + pred_sum pairs) 0) as [|_]; [lia|].
    rewrite inject_Z_mult, inject_Z_plus.
    pose proof (inject_Z_nonzero _ Htp0) as Hq1.
    pose proof (inject_Z_nonzero _ Hp0) as Hq2.
    pose proof (inject_Z_nonzero _ Ht0) as Hq3.
    assert (true_sum pairs + pred_sum pairs <> 0) as Hq4 by lia.
    apply inject_Z_nonzero in Hq4. rewrite inject_Z_plus in Hq4.
    change (inject_Z 2) with 2%Q.
    field. repeat split; try done.
    rewrite <- !inject_Z_mult, <- inject_Z_plus. apply inject_Z_nonzero. nia.
Qed.

(** What [evaluate] of Reveal returns are the scores of the pairs
    (expectation, prediction). *)
Lemma reveal_evaluate_scores {Params Features}
    (forward : Params -> Features -> list (list Q)) m batches ev :
  Reveal.evaluate forward m batches = Ok ev ->
  let pairs := zip (Reveal.expectations ev) (Reveal.predictions ev) in
  Reveal.acc ev = accuracy pairs /\ Reveal.pr ev = precision pairs
  /\ Reveal.rc ev = recall pairs /\ Reveal.f1 ev = f1 pairs.
Proof.
  unfold Reveal.evaluate.
  destruct (Reveal.evaluate_batches _ _ _ _ _ _ _)
    as [[[[predictions expectations] all_probs] all_ids]|e]; [|done].
  simpl. unfold accuracy_score, precision_score, recall_score, f1_score,
    check_consistent_length.
  destruct (length expectations =? length predictions)%nat; [|done].
  simpl. intros [= <-]. simpl. done.
Qed.

Lemma svuld_evaluate_scores {Params} args tokenizer
    (forward : Params -> list (list Z) -> option (list (list Z)) ->
               list Z -> Q * list (list Q))
    float_add m data res eval_loss indices preds :
  SVulD.evaluate args tokenizer forward float_add m data
  = Ok (res, eval_loss, indices, preds) ->
  exists pairs,
    SVulD.acc res = accuracy pairs /\ SVulD.precision res = precision pairs
    /\ SVulD.recall res = recall pairs /\ SVulD.f1 res = f1 pairs.
Proof.
  unfold SVulD.evaluate.
  destruct (SVulD.TextDataset _ _ _) as [dataset|e]; [|done]. simpl.
  destruct (SVulD.DataLoader _ _) as [loader|e]; [|done]. simpl.
  destruct (SVulD.evaluate_batches _ _ _ _ _ _ _ _)
    as [[[loss logits] labels] idx].
  destruct (SVulD.concatenate logits) as [logits'|e]; [|done]. simpl.
  destruct (SVulD.concatenate labels) as [labels'|e]; [|done]. simpl.
  destruct (SVulD.concatenate idx) as [idx'|e]; [|done]. simpl.
  destruct (SVulD.threshold logits') as [preds'|e]; [|done]. simpl.
  unfold accuracy_score, precision_score, recall_score, f1_score,
    check_consistent_length.
  destruct (length labels' =? length (map Z.b2z preds'))%nat; [|done].
  simpl. intros [= <- _ _ _].
  by exists (zip labels' (map Z.b2z preds')).
Qed.

(** C8.  For an evaluation over a split with 0/1 labels of which both
    classes are present, accuracy, precision, recall and F1 lie in
    [0, 1], and F1 is the harmonic mean of precision and recall whenever
    their sum is positive: for [evaluate] of the Reveal trainer and for
    [evaluate] of the SVulD runner. *)
Theorem evaluation_scores :
  (forall (Params Features : Type)
          (forward : Params -> Features -> list (list Q)) m batches ev,
      Reveal.evaluate forward m batches = Ok ev ->
      binary (Reveal.expectations ev) -> binary (Reveal.predictions ev) ->
      both_classes (Reveal.expectations ev) ->
      well_scored (Reveal.acc ev) (Reveal.pr ev) (Reveal.rc ev)
                  (Reveal.f1 ev))
  /\ (forall (Params : Type) args tokenizer
             (forward : Params -> list (list Z) -> option (list (list Z)) ->
                        list Z -> Q * list (list Q))
             float_add m data res eval_loss indices preds,
        SVulD.evaluate args tokenizer forward float_add m data
        = Ok (res, eval_loss, indices, preds) ->
        binary (labels_of data) -> both_classes (labels_of data) ->
        well_scored (SVulD.acc res) (SVulD.precision res) (SVulD.recall res)
                    (SVulD.f1 res)).
Proof.
  split.
  - intros Params Features forward m batches ev Hev _ _ _.
    apply reveal_evaluate_scores in Hev as (-> & -> & -> & ->).
    apply scores_well.
  - intros Params args tokenizer forward float_add m data res eval_loss
      indices preds Hev _ _.
    apply svuld_evaluate_scores in Hev as (pairs & -> & -> & -> & ->).
    apply scores_well.
Qed.

(** Two small splits with both classes. *)
Lemma evaluation_scores_witness :
  (exists ev,
      Reveal.evaluate reveal_rows tt reveal_split = Ok ev
      /\ both_classes (Reveal.expectations ev)
      /\ well_scored (Reveal.acc ev) (Reveal.pr ev) (Reveal.rc ev)
                     (Reveal.f1 ev))
  /\ (exists res eval_loss indices preds,
        SVulD.evaluate toy_args toy_tokenizer toy_forward Qplus 2 toy_data
        = Ok (res, eval_loss, indices, preds)
        /\ both_classes (labels_of toy_data)
        /\ well_scored (SVulD.acc res) (SVulD.precision res)
                       (SVulD.recall res) (SVulD.f1 res)).
Proof.
  split.
  - eexists. split; [vm_compute; reflexivity|].
    assert (both_classes [1; 0; 0; 1]) as Hboth.
    { split; [apply list_elem_of_In; simpl; tauto
             |apply list_elem_of_In; simpl; tauto]. }
    split; [exact Hboth|].
    apply (proj1 evaluation_scores unit (list (list Q)) reveal_rows tt
                 reveal_split).
    + vm_compute; reflexivity.
    + unfold binary; simpl; repeat (constructor; [lia|]); constructor.
    + unfold binary; simpl; repeat (constructor; [lia|]); constructor.
    + exact Hboth.
  - do 4 eexists. split; [vm_compute; reflexivity|].
    assert (both_classes (labels_of toy_data)) as Hboth.
    { split; [apply list_elem_of_In; simpl; tauto
             |apply list_elem_of_In; simpl; tauto]. }
    split; [exact Hboth|].
    eapply (proj2 evaluation_scores Z toy_args toy_tokenizer toy_forward
                  Qplus 2 toy_data).
    + vm_compute; reflexivity.
    + unfold binary; simpl; repeat (constructor; [lia|]); constructor.
    + exact Hboth.
Defined.
End MetricsProofs.


Module ExportProofs.
Import Py Numpy Sklearn MetricsClaims ExportClaims.

(** *** Sorting by id *)

Lemma insert_by_id_perm x l : Permutation (Reveal.insert_by_id x l) (x :: l).
Proof.
  induction l as [|y l IH]; simpl; [done|].
  destruct (x.1 <=? y.1); [done|].
  rewrite IH. apply perm_swap.
Qed.

Lemma sort_by_id_perm l : Permutation (Reveal.sort_by_id l) l.
Proof.
  induction l as [|x l IH]; simpl; [done|].
  rewrite insert_by_id_perm. by constructor.
Qed.

Lemma insert_by_id_sorted x l :
  Sorted Z.le (map fst l) -> Sorted Z.le (map fst (Reveal.insert_by_id x l)).
Proof.
  induction l as [|y l IH]; simpl; intros Hs.
  - repeat constructor.
  - destruct (Z.leb_spec x.1 y.1) as [Hle|Hgt]; simpl.
    + constructor; [done|]. by constructor.
    + inversion Hs as [|? ? Hs' Hhd]; subst.
      constructor; [by apply IH|].
      destruct l as [|z l]; simpl.
      * constructor. lia.
      * destruct (x.1 <=? z.1); simpl; constructor; [lia|].
        inversion Hhd; subst. done.
Qed.

Lemma sort_by_id_sorted l : Sorted Z.le (map fst (Reveal.sort_by_id l)).
Proof.
  induction l as [|x l IH]; simpl; [constructor|].
  by apply insert_by_id_sorted.
Qed.

(** *** The class index that [argmax] gives *)

Lemma argmax_from_range row : forall best best_i i,
  0 <= best_i < i ->
  0 <= argmax_from best best_i i row < i + Z.of_nat (length row).
Proof.
  induction row as [|x row IH]; intros best best_i i Hi; simpl; [lia|].
  destruct (Qgtb x best).
  - specialize (IH x i (i + 1)). lia.
  - specialize (IH best best_i (i + 1)). lia.
Qed.

Lemma argmax_range row p :
  argmax row = Ok p -> 0 <= p < Z.of_nat (length row).
Proof.
  destruct row as [|x row]; simpl; [done|]. intros [= <-].
  pose proof (argmax_from_range row x 0 1). lia.
Qed.

Lemma for_each_Forall2 {A B} (f : A -> result B) l l' :
  for_each f l = Ok l' <-> Forall2 (fun x y => f x = Ok y) l l'.
Proof.
  revert l'. induction l as [|x l IH]; intros l'; simpl.
  - split; [intros [= <-]; constructor|by inversion 1].
  - destruct (f x) as [y|e] eqn:Hfx.
    + destruct (for_each f l) as [ys|e].
      * split.
        -- intros [= <-]. constructor; [done|]. by apply IH.
        -- inversion 1 as [|? y' ? ys' Hy Hys]; subst.
           apply IH in Hys. congruence.
      * split; [done|].
        inversion 1 as [|? y' ? ys' Hy Hys]; subst. by apply IH in Hys.
    + split; [done|]. inversion 1; congruence.
Qed.

Lemma for_each_length {A B} (f : A -> result B) l l' :
  for_each f l = Ok l' -> length l' = length l.
Proof. intros H. apply for_each_Forall2 in H. symmetry. by eapply Forall2_length. Qed.

Lemma evaluate_batches_binary {Params Features}
    (forward : Params -> Features -> list (list Q)) m batches :
  forall predictions expectations all_probs all_ids out,
    two_classes forward m batches ->
    Reveal.evaluate_batches forward m batches predictions expectations
                            all_probs all_ids = Ok out ->
    binary predictions -> binary out.1.1.1.
Proof.
  induction batches as [|b batches IH];
    intros predictions expectations all_probs all_ids out Htwo; simpl.
  - by intros [= <-].
  - destruct (for_each argmax _) as [batch_pred|e] eqn:Hpred; [|done]. simpl.
    destruct (for_each column1 _) as [column|e]; [|done]. simpl.
    intros Hout Hbin. eapply IH; [|exact Hout|].
    + intros b' row Hb' Hrow. apply (Htwo b' row); [|done]. by right.
    + apply Forall_app. split; [done|].
      apply for_each_Forall2 in Hpred.
      assert (forall row, row ∈ forward m (Reveal.features b) ->
                          length row = 2%nat) as Hrows.
      { intros row Hrow. apply (Htwo b row); [by left|done]. }
      clear -Hpred Hrows.
      induction Hpred as [|row p rows ps Hp _ IHp]; constructor.
      * apply argmax_range in Hp. rewrite (Hrows row) in Hp; [lia|by left].
      * apply IHp. intros row' Hrow'. apply Hrows. by right.
Qed.

(** *** The order of a sequential loader *)

Lemma batches_of_concat {A} (n : nat) : forall fuel (l : list A),
  (0 < n)%nat -> (length l <= fuel)%nat ->
  concat (SVulD.batches_of fuel n l) = l.
Proof.
  induction fuel as [|fuel IH]; intros l Hn Hlen; simpl.
  - destruct l; [done|simpl in Hlen; lia].
  - destruct l as [|x l]; [done|].
    change (concat (?a :: ?b)) with (a ++ concat b).
    rewrite IH; [apply take_drop|done|].
    rewrite length_drop. simpl in *. lia.
Qed.

Lemma DataLoader_concat {A} (dataset : list A) batch_size loader :
  SVulD.DataLoader dataset batch_size = Ok loader -> concat loader = dataset.
Proof.
  unfold SVulD.DataLoader.
  destruct (Z.leb_spec batch_size 0) as [|Hpos]; [done|].
  intros [= <-]. apply batches_of_concat; lia.
Qed.

Lemma concatenate_concat {A} (arrays : list (list A)) l :
  SVulD.concatenate arrays = Ok l -> l = concat arrays.
Proof. destruct arrays; [done|]. by intros [= <-]. Qed.

Lemma TextDataset_fields args tokenizer data dataset :
  SVulD.TextDataset args tokenizer data = Ok dataset ->
  map SVulD.index dataset = map SVulD.js_index data
  /\ map SVulD.label dataset = labels_of data.
Proof.
  unfold SVulD.TextDataset. intros H. apply for_each_Forall2 in H.
  induction H as [|j ft data dataset Hj _ [IH1 IH2]]; [done|].
  unfold SVulD.convert_examples_to_features, SVulD.getitem_label in Hj.
  unfold labels_of. simpl.
  destruct (SVulD.js_label j) as [l|]; [|done].
  simpl in Hj. inversion Hj; subst ft. simpl.
  split; f_equal; done.
Qed.

Lemma TextDataset_unlabelled args tokenizer data :
  (exists j, j ∈ data /\ SVulD.js_label j = None) ->
  SVulD.TextDataset args tokenizer data = Raised KeyError.
Proof.
  intros (j & Hj & Hnone). unfold SVulD.TextDataset.
  induction data as [|j' data IH]; [by apply elem_of_nil in Hj|].
  simpl. unfold SVulD.convert_examples_to_features at 1, SVulD.getitem_label.
  destruct (SVulD.js_label j') as [l|] eqn:Hl; [|done]. simpl.
  apply elem_of_cons in Hj as [->|Hj]; [congruence|].
  by rewrite IH.
Qed.

Lemma evaluate_batches_indices {Params}
    (forward : Params -> list (list Z) -> option (list (list Z)) ->
               list Z -> Q * list (list Q))
    float_add m batches : forall eval_loss logits labels indices,
  (SVulD.evaluate_batches forward float_add m batches eval_loss logits
                          labels indices).2
  = indices ++ map (map SVulD.index) batches.
Proof.
  induction batches as [|b batches IH]; intros; simpl.
  - by rewrite app_nil_r.
  - destruct (forward _ _ _ _). rewrite IH. by rewrite <- app_assoc.
Qed.

Lemma detect_batches_labels {Params}
    (forward : Params -> list (list Z) -> option (list (list Z)) ->
               list Z -> Q * list (list Q))
    m batches : forall logits labels indices,
  let out := SVulD.detect_batches forward m batches logits labels indices in
  out.1.2 = labels ++ map (map SVulD.label) batches
  /\ out.2 = indices ++ map (map SVulD.index) batches.
Proof.
  induction batches as [|b batches IH]; intros; simpl.
  - by rewrite !app_nil_r.
  - subst out. simpl. destruct (forward _ _ _ _).
    destruct (IH (logits ++ [l]) (labels ++ [map SVulD.label b])
                 (indices ++ [map SVulD.index b])) as [-> ->].
    by rewrite <- !app_assoc.
Qed.

Lemma concat_map_map {A B} (f : A -> B) (ls : list (list A)) :
  concat (map (map f) ls) = map f (concat ls).
Proof. by rewrite concat_map. Qed.

Lemma svuld_evaluate_indices {Params} args tokenizer
    (forward : Params -> list (list Z) -> option (list (list Z)) ->
               list Z -> Q * list (list Q))
    float_add m data res eval_loss indices preds :
  SVulD.evaluate args tokenizer forward float_add m data
  = Ok (res, eval_loss, indices, preds) ->
  indices = map SVulD.js_index data.
Proof.
  unfold SVulD.evaluate.
  destruct (SVulD.TextDataset _ _ _) as [dataset|e] eqn:Hds; [|done]. simpl.
  destruct (SVulD.DataLoader _ _) as [loader|e] eqn:Hdl; [|done]. simpl.
  pose proof (evaluate_batches_indices forward float_add m loader 0%Q [] [] [])
    as Hidx.
  destruct (SVulD.evaluate_batches _ _ _ _ _ _ _ _)
    as [[[loss logits] labels] idx].
  simpl in Hidx. subst idx.
  destruct (SVulD.concatenate logits) as [logits'|e]; [|done]. simpl.
  destruct (SVulD.concatenate labels) as [labels'|e]; [|done]. simpl.
  destruct (SVulD.concatenate _) as [idx'|e] eqn:Hcat; [|done]. simpl.
  destruct (SVulD.threshold logits') as [preds'|e]; [|done]. simpl.
  destruct (accuracy_score _ _); [|done]. simpl.
  destruct (recall_score _ _); [|done]. simpl.
  destruct (precision_score _ _); [|done]. simpl.
  destruct (f1_score _ _); [|done]. simpl.
  intros [= _ _ <- _].
  apply concatenate_concat in Hcat. subst idx'.
  rewrite concat_map_map. apply DataLoader_concat in Hdl. rewrite Hdl.
  by apply TextDataset_fields in Hds as [-> _].
Qed.

Lemma reveal_export_file {Params Features}
    (forward : Params -> Features -> list (list Q)) m batches ev :
  Reveal.evaluate forward m batches = Ok ev ->
  two_classes forward m batches ->
  binary (Reveal.predictions ev).
Proof.
  unfold Reveal.evaluate. intros Hev Htwo.
  destruct (Reveal.evaluate_batches _ _ _ _ _ _ _)
    as [[[[predictions expectations] all_probs] all_ids]|e] eqn:Hb; [|done].
  apply (evaluate_batches_binary _ _ _ _ _ _ _ _ Htwo) in Hb;
    [|constructor].
  simpl in Hev, Hb.
  destruct (accuracy_score _ _); [|done]. simpl in Hev.
  destruct (precision_score _ _); [|done]. simpl in Hev.
  destruct (recall_score _ _); [|done]. simpl in Hev.
  destruct (f1_score _ _); [|done]. simpl in Hev.
  by inversion Hev.
Qed.

(** C3 (amended).  The test file of Reveal is a JSON array of objects
    [{"id": i, "pred": p}], one per pair of an id and a prediction, in
    ascending order of id; [p] is 0 or 1 when the model gives two
    probabilities per example, and the file is then as the spec has it.
    The test file of SVulD is a JSON array with one object
    [{"id": i, "pred": b}] per example of the test data, [b] a boolean,
    in the order of the data file: it is not sorted. *)
Theorem test_prediction_files :
  (forall (Params Features : Type)
          (forward : Params -> Features -> list (list Q)) m batches ev,
      Reveal.evaluate forward m batches = Ok ev ->
      exists items,
        Reveal.test_export ev = JArr (map Reveal.record_json items)
        /\ Permutation items
                       (zip (Reveal.all_ids ev) (Reveal.predictions ev))
        /\ Sorted Z.le (map fst items)
        /\ (two_classes forward m batches ->
            prediction_file (Reveal.test_export ev)))
  /\ (forall (Params EarlyStopping : Type) args tokenizer
             (forward : Params -> list (list Z) -> option (list (list Z)) ->
                        list Z -> Q * list (list Q))
             float_add data (s s' : SVulD.state Params EarlyStopping),
        SVulD.test args tokenizer forward float_add EarlyStopping data s
        = Ok s' ->
        exists preds : list bool,
          length preds = length data
          /\ SVulD.test_json s'
             = Some (JArr (map SVulD.record_json
                               (zip (map SVulD.js_index data) preds)))).
Proof.
  split.
  - intros Params Features forward m batches ev Hev.
    set (ans := zip (Reveal.all_ids ev) (Reveal.predictions ev)).
    exists (Reveal.sort_by_id ans).
    split; [done|]. split; [apply sort_by_id_perm|].
    split; [apply sort_by_id_sorted|].
    intros Htwo. pose proof (reveal_export_file _ _ _ _ Hev Htwo) as Hbin.
    assert (Forall (fun it : Z * Z => it.2 = 0 \/ it.2 = 1)
                   (Reveal.sort_by_id ans)) as Hitems.
    { rewrite (sort_by_id_perm ans). unfold ans.
      clear -Hbin. revert Hbin. generalize (Reveal.all_ids ev).
      induction (Reveal.predictions ev) as [|p ps IH]; intros ids Hbin.
      - destruct ids; constructor.
      - destruct ids as [|i ids]; [constructor|]. simpl.
        inversion Hbin; subst. constructor; [done|]. by apply IH. }
    unfold prediction_file, sorted_by_id, Reveal.test_export. fold ans.
    split.
    + eexists. split; [done|].
      apply Forall_fmap. eapply Forall_impl; [exact Hitems|].
      intros [i p] [Hp|Hp]; simpl in *; subst; by eexists.
    + exists (map Reveal.record_json (Reveal.sort_by_id ans)),
             (map fst (Reveal.sort_by_id ans)).
      split; [done|]. split; [|apply sort_by_id_sorted].
      apply Forall2_fmap. apply Forall_Forall2_diag.
      apply Forall_forall. intros x _. done.
  - intros Params EarlyStopping args tokenizer forward float_add data s s'.
    unfold SVulD.test.
    destruct (SVulD.checkpoint s) as [p|]; [|done].
    destruct (SVulD.evaluate _ _ _ _ _ _)
      as [[[[res loss] indices] preds]|e] eqn:Hev; [|done].
    simpl. unfold SVulD.test_export.
    destruct (Nat.eqb_spec (length indices) (length preds)) as [Hlen|];
      [|done].
    simpl. intros [= <-]. exists preds.
    apply svuld_evaluate_indices in Hev. subst indices.
    rewrite length_map in Hlen. split; [done|]. done.
Qed.

(** A test run of SVulD on three examples. *)
Lemma test_prediction_files_witness :
  exists s' preds,
    SVulD.test toy_args toy_tokenizer toy_forward Qplus unit toy_data
               toy_state = Ok s'
    /\ SVulD.test_json s'
       = Some (JArr (map SVulD.record_json
                         (zip (map SVulD.js_index toy_data) preds))).
Proof.
  destruct (proj2 test_prediction_files Z unit toy_args toy_tokenizer
                  toy_forward Qplus toy_data toy_state
                  (SVulD.State 2 tt (Some 2)
                     (Some (JArr (map SVulD.record_json
                                      [(4, true); (2, true); (9, false)])))))
    as (preds & _ & Hfile); [vm_compute; reflexivity|].
  eexists _, preds. split; [vm_compute; reflexivity|exact Hfile].
Defined.

(** The test data has the indices 4, 2, 9 in this order, and so has the
    test file of SVulD. *)
Lemma svuld_test_file_is_not_sorted :
  (exists s j,
      SVulD.test toy_args toy_tokenizer toy_forward Qplus unit toy_data
                 toy_state = Ok s
      /\ SVulD.test_json s = Some j /\ ~ sorted_by_id j)
  /\ ~ test_file_as_specified
         (SVulD.test toy_args toy_tokenizer toy_forward Qplus unit toy_data
                     toy_state).
Proof.
  assert (~ sorted_by_id
            (JArr (map SVulD.record_json [(4, true); (2, true); (9, false)])))
    as Hns.
  { intros (items & ids & [= <-] & Hids & Hsorted).
    simpl in Hids.
    inversion Hids as [|? i1 ? ids1 H1 Hids1]; subst.
    inversion Hids1 as [|? i2 ? ids2 H2 Hids2]; subst.
    simpl in H1, H2. inversion H1; inversion H2; subst.
    inversion Hsorted as [|? ? _ Hhd]; subst.
    inversion Hhd; subst. lia. }
  split.
  - eexists _, _. split; [vm_compute; reflexivity|]. split; [reflexivity|].
    exact Hns.
  - intros Hspec. apply Hns. eapply Hspec; [vm_compute|]; reflexivity.
Qed.

Lemma detect_batches_logits {Params}
    (forward : Params -> list (list Z) -> option (list (list Z)) ->
               list Z -> Q * list (list Q))
    m batches : forall logits labels indices,
  (SVulD.detect_batches forward m batches logits labels indices).1.1
  = logits ++ detect_logits forward m batches.
Proof.
  induction batches as [|b batches IH]; intros;
    unfold detect_logits in *; simpl.
  - by rewrite app_nil_r.
  - destruct (forward _ _ _ _) as [loss logit]. simpl.
    by rewrite IH, <- app_assoc.
Qed.

Lemma array_rows rows probs : array rows = Ok probs -> probs = rows.
Proof.
  unfold array. destruct rows as [|row rest]; [by intros [= <-]|].
  destruct (forallb _ _); [by intros [= <-]|done].
Qed.

(** C4 (amended).  [detect] of SVulD reads the label of every example:
    on data with an unlabelled example it ends with KeyError; on
    labelled data it hands the model, batch by batch, the contrast ids
    and the labels, and what it returns is the accuracy of the
    predictions against the labels, the indices of the examples (one
    array per batch) and one prediction per example, which tells
    whether the second probability of the example exceeds 0.5.
    [predict] of Reveal does not read the targets and ids that the
    iterator yields: it returns, for the examples in order, the index of
    the highest probability of each, and nothing else. *)
Theorem prediction_modes :
  (forall (Params : Type) args tokenizer
          (forward : Params -> list (list Z) -> option (list (list Z)) ->
                     list Z -> Q * list (list Q)) m data,
      (exists j, j ∈ data /\ SVulD.js_label j = None) ->
      SVulD.detect args tokenizer forward m data = Raised KeyError)
  /\ (forall (Params : Type) args tokenizer
             (forward : Params -> list (list Z) -> option (list (list Z)) ->
                        list Z -> Q * list (list Q)) m data a indices preds,
        SVulD.detect args tokenizer forward m data = Ok (a, indices, preds) ->
        a = accuracy (zip (labels_of data) (map Z.b2z preds))
        /\ concat indices = map SVulD.js_index data
        /\ length preds = length data
        /\ exists dataset batches,
             SVulD.TextDataset args tokenizer data = Ok dataset
             /\ SVulD.DataLoader dataset (SVulD.eval_batch_size args)
                = Ok batches
             /\ indices = map (map SVulD.index) batches
             /\ SVulD.threshold (concat (detect_logits forward m batches))
                = Ok preds)
  /\ (forall (Params Features : Type)
             (forward : Params -> Features -> list (list Q)) m
             (batches batches' : list (Reveal.batch Features)),
        map Reveal.features batches = map Reveal.features batches' ->
        Reveal.predict forward m batches = Reveal.predict forward m batches')
  /\ (forall (Params Features : Type)
             (forward : Params -> Features -> list (list Q)) m
             (batches : list (Reveal.batch Features)) preds,
        Reveal.predict forward m batches = Ok preds ->
        preds <> []
        /\ Forall2 (fun row p => argmax row = Ok p
                                 /\ 0 <= p < Z.of_nat (length row))
                   (rows_of forward m batches) preds).
Proof.
  split; [|split; [|split]].
  - intros Params args tokenizer forward m data Hnone. unfold SVulD.detect.
    by rewrite TextDataset_unlabelled.
  - intros Params args tokenizer forward m data a indices preds.
    unfold SVulD.detect.
    destruct (SVulD.TextDataset _ _ _) as [dataset|e] eqn:Hds; [|done]. simpl.
    destruct (SVulD.DataLoader _ _) as [loader|e] eqn:Hdl; [|done]. simpl.
    pose proof (detect_batches_labels forward m loader [] [] []) as [Hlb Hix].
    pose proof (detect_batches_logits forward m loader [] [] []) as Hlg.
    destruct (SVulD.detect_batches _ _ _ _ _ _) as [[logits labels] idx].
    simpl in Hlb, Hix, Hlg. subst labels idx logits.
    destruct (SVulD.concatenate (detect_logits forward m loader))
      as [logits'|e] eqn:Hcatl; [|done]. simpl.
    destruct (SVulD.concatenate (map (map SVulD.label) loader))
      as [labels'|e] eqn:Hcat; [|done]. simpl.
    destruct (SVulD.threshold logits') as [preds'|e] eqn:Hth; [|done]. simpl.
    unfold accuracy_score, check_consistent_length.
    destruct (Nat.eqb_spec (length labels') (length (map Z.b2z preds')))
      as [Hlen|]; [|done].
    simpl. intros [= <- <- <-].
    apply concatenate_concat in Hcat. subst labels'.
    apply concatenate_concat in Hcatl. subst logits'.
    pose proof (DataLoader_concat _ _ _ Hdl) as Hcc.
    pose proof (for_each_length _ _ _ Hds) as Hdslen.
    pose proof (TextDataset_fields _ _ _ _ Hds) as [Hidx Hlab].
    rewrite concat_map_map, Hcc in Hlen |- *. rewrite Hlab in Hlen |- *.
    rewrite concat_map_map, Hcc, Hidx.
    split; [done|]. split; [done|]. split.
    { rewrite length_map in Hlen. rewrite <- Hlen, <- Hlab, length_map.
      done. }
    by exists dataset, loader.
  - intros Params Features forward m batches batches' Hsame.
    unfold Reveal.predict, Reveal.predict_proba.
    rewrite <- (map_map Reveal.features (forward m) batches).
    rewrite <- (map_map Reveal.features (forward m) batches').
    by rewrite Hsame.
  - intros Params Features forward m batches preds.
    unfold Reveal.predict, Reveal.predict_proba.
    fold (rows_of forward m batches).
    destruct (array (rows_of forward m batches)) as [probs|e] eqn:Harr;
      [|done].
    apply array_rows in Harr. subst probs. simpl.
    destruct (rows_of forward m batches) as [|row rows] eqn:Hrows; [done|].
    intros Hp. pose proof (for_each_length _ _ _ Hp) as Hlen.
    split; [intros ->; done|].
    apply for_each_Forall2 in Hp.
    eapply Forall2_impl; [exact Hp|].
    intros r p Hr. split; [done|by apply argmax_range].
Qed.

(** [detect] on data without labels, and [predict] on the small split
    of two batches. *)
Lemma prediction_modes_witness :
  SVulD.detect toy_args toy_tokenizer toy_forward 3 (map unlabel toy_data)
  = Raised KeyError
  /\ Forall2 (fun row p => argmax row = Ok p
                           /\ 0 <= p < Z.of_nat (length row))
             (rows_of reveal_rows tt reveal_split) [1; 0; 1; 0].
Proof.
  split.
  - apply (proj1 prediction_modes Z toy_args toy_tokenizer toy_forward 3
                 (map unlabel toy_data)).
    exists (unlabel (SVulD.Js "ab" "abcdefgh" (Some 1) 4)).
    split; [left|reflexivity].
  - apply (proj2 (proj2 (proj2 prediction_modes)) unit (list (list Q))
                 reveal_rows tt reveal_split [1; 0; 1; 0]).
    vm_compute. reflexivity.
Defined.

(** [detect] gives a result on the labelled data and KeyError on the
    same data without labels. *)
Lemma svuld_detect_needs_labels :
  ~ label_free (SVulD.detect toy_args toy_tokenizer toy_forward 3).
Proof.
  intros Hfree.
  specialize (Hfree toy_data (map unlabel toy_data) eq_refl).
  vm_compute in Hfree. discriminate.
Qed.
End ExportProofs.


Module TrainerProofs.
Import Py Numpy Reveal TrainerClaims.

Lemma Qgtb_true a b : Qgtb a b = true <-> (b < a)%Q.
Proof.
  unfold Qgtb. rewrite negb_true_iff, <- not_true_iff_false, Qle_bool_iff.
  split; [apply Qnot_le_lt|apply Qlt_not_le].
Qed.

Lemma Qgtb_false a b : Qgtb a b = false <-> (a <= b)%Q.
Proof.
  unfold Qgtb. rewrite negb_false_iff, Qle_bool_iff. done.
Qed.

Lemma List_last_cons {A} (x : A) l d : List.last (x :: l) d = List.last l x.
Proof.
  revert x d. induction l as [|y l IH]; intros x d; [done|].
  change (List.last (x :: y :: l) d) with (List.last (y :: l) d).
  rewrite (IH y d). symmetry. apply IH.
Qed.

Section Quiet.
Context {Params : Type}.
Variable validate : Params -> result Q.
Implicit Type w : world Params.

Lemma tick_quiet w : sigint w = None -> tick w = (Ok tt, w).
Proof. unfold tick. by intros ->. Qed.

Lemma train_batches_quiet steps : forall w,
  sigint w = None ->
  train_batches steps w = (Ok tt, set_model (List.last steps (model w)) w).
Proof.
  induction steps as [|p steps IH]; intros w Hq.
  - destruct w. reflexivity.
  - cbn [train_batches]. unfold bind at 1, statement, bind at 1.
    rewrite tick_quiet by done. unfold modify at 1.
    rewrite IH by done. rewrite List_last_cons. by destruct w.
Qed.

(** A cycle that no interrupt disturbs. *)
Lemma validation_quiet max_patience w vf1 :
  sigint w = None ->
  validate (model w) = Ok vf1 ->
  validation validate max_patience w
  = let w1 := after_cycle vf1 w in
    if patience_counter w1 =? max_patience
    then (Ok true, restored w1) else (Ok false, w1).
Proof.
  intros Hq Hv. destruct w as [m bf bm pc file tj log sig].
  simpl in Hq, Hv. subst sig.
  unfold validation, after_cycle, restored, bind, gets, lift, statement,
    bind, tick, modify, ret. simpl. rewrite Hv.
  destruct (Qgtb vf1 bf); simpl.
  - destruct max_patience; reflexivity.
  - destruct (pc + 1 =? max_patience); [|reflexivity].
    destruct bm; reflexivity.
Qed.

Lemma after_cycle_quiet vf1 w : sigint (after_cycle vf1 w) = sigint w.
Proof. unfold after_cycle. by destruct (Qgtb _ _). Qed.

Lemma restored_quiet w : sigint (restored w) = sigint w.
Proof. unfold restored. by destruct (best_model w). Qed.

(** An epoch that no interrupt disturbs. *)
Lemma epochs_loop_quiet max_patience valid_every epoch_count steps rest w :
  sigint w = None -> valid_every <> 0 ->
  epochs_loop validate max_patience valid_every epoch_count
              (steps :: rest) w
  = let w1 := set_model (List.last steps (model w)) w in
    if epoch_count `mod` valid_every =? 0 then
      match validate (model w1) with
      | Ok vf1 =>
          let w2 := after_cycle vf1 w1 in
          if patience_counter w2 =? max_patience
          then (Ok tt, restored w2)
          else epochs_loop validate max_patience valid_every
                           (epoch_count + 1) rest w2
      | Raised e => (Raised e, w1)
      end
    else epochs_loop validate max_patience valid_every
                     (epoch_count + 1) rest w1.
Proof.
  intros Hq Hve. cbn [epochs_loop]. unfold bind at 1.
  rewrite tick_quiet by done. unfold bind at 1.
  rewrite train_batches_quiet by done.
  destruct (Z.eqb_spec valid_every 0) as [|_]; [done|].
  unfold bind at 1, ret at 1. cbv zeta.
  set (w1 := set_model _ w).
  assert (sigint w1 = None) as Hq1 by (by destruct w).
  destruct (epoch_count `mod` valid_every =? 0); [|done].
  unfold bind at 1.
  destruct (validate (model w1)) as [vf1|e] eqn:Hv.
  - rewrite (validation_quiet _ _ vf1) by done. cbv zeta.
    by destruct (patience_counter _ =? max_patience).
  - unfold validation, bind, gets, lift. by rewrite Hv.
Qed.

Lemma kept_best_cycle file0 w vf1 :
  validate (model w) = Ok vf1 ->
  kept_best validate file0 w -> kept_best validate file0 (after_cycle vf1 w).
Proof.
  intros Hv [Hlog Hbest]. unfold after_cycle.
  destruct (Qgtb vf1 (best_f1 w)) eqn:Hgt.
  - apply Qgtb_true in Hgt. split; simpl.
    + intros line Hline. apply elem_of_app in Hline as [Hline|Hline].
      * apply Qlt_le_weak. eapply Qle_lt_trans; [by apply Hlog|done].
      * apply list_elem_of_singleton in Hline. subst line. apply Qle_refl.
    + split; [done|]. split.
      * eapply Qle_lt_trans; [|exact Hgt].
        destruct (best_model w) as [p|].
        -- apply Qlt_le_weak. apply Hbest.
        -- destruct Hbest as [-> _]. apply Qle_refl.
      * split; [done|]. exists 0. apply elem_of_app. right. by left.
  - apply Qgtb_false in Hgt. split; simpl.
    + intros line Hline. apply elem_of_app in Hline as [Hline|Hline].
      * by apply Hlog.
      * apply list_elem_of_singleton in Hline. by subst line.
    + destruct (best_model w) as [p|]; [|done].
      destruct Hbest as (Hp & Hpos & Hfile & c & Hc).
      repeat split; try done. exists c. apply elem_of_app. by left.
Qed.

Lemma kept_best_model file0 w p :
  kept_best validate file0 w -> kept_best validate file0 (set_model p w).
Proof. by destruct w. Qed.

Lemma kept_best_restored file0 w :
  kept_best validate file0 w -> kept_best validate file0 (restored w).
Proof. unfold restored. destruct (best_model w) eqn:Hb; [|done]. by destruct w. Qed.

(** The loop keeps the best, however it ends, when no interrupt
    arrives. *)
Lemma epochs_loop_kept_best file0 max_patience valid_every epochs :
  forall epoch_count w,
    sigint w = None -> valid_every <> 0 ->
    kept_best validate file0 w ->
    let out := epochs_loop validate max_patience valid_every epoch_count
                           epochs w in
    kept_best validate file0 out.2 /\ sigint out.2 = None.
Proof.
  induction epochs as [|steps rest IH]; intros epoch_count w Hq Hve Hk.
  - simpl. by rewrite tick_quiet.
  - rewrite epochs_loop_quiet by done. cbv zeta.
    set (w1 := set_model _ w).
    assert (sigint w1 = None) as Hq1 by (by destruct w).
    assert (kept_best validate file0 w1) as Hk1
        by (by apply kept_best_model).
    destruct (epoch_count `mod` valid_every =? 0); [|by apply IH].
    destruct (validate (model w1)) as [vf1|e] eqn:Hv; [|done].
    pose proof (kept_best_cycle file0 w1 vf1 Hv Hk1) as Hk2.
    assert (sigint (after_cycle vf1 w1) = None) as Hq2
        by (by rewrite after_cycle_quiet).
    destruct (patience_counter _ =? max_patience).
    + simpl. split; [by apply kept_best_restored|].
      by rewrite restored_quiet.
    + by apply IH.
Qed.
End Quiet.

Section Stops.
Context {Params : Type}.
Variable validate : Params -> result Q.
Hypothesis total : forall p, exists f, validate p = Ok f.
Implicit Type w : world Params.

Lemma after_cycle_stderr vf1 w :
  stderr (after_cycle vf1 w)
  = stderr w ++ [(vf1, patience_counter (after_cycle vf1 w))].
Proof. unfold after_cycle. by destruct (Qgtb _ _). Qed.

Lemma restored_stderr w : stderr (restored w) = stderr w.
Proof. unfold restored. by destruct (best_model w). Qed.

Lemma epochs_loop_stops max_patience valid_every epochs :
  forall epoch_count w,
    valid_every <> 0 -> sigint w = None ->
    let out := epochs_loop validate max_patience valid_every epoch_count
                           epochs w in
    out.1 = Ok tt
    /\ exists new,
        stderr out.2 = stderr w ++ new
        /\ stops_at_max_patience max_patience
             (validations_from valid_every epoch_count (length epochs)) new.
Proof using total.
  induction epochs as [|steps rest IH]; intros epoch_count w Hve Hq.
  - simpl. rewrite tick_quiet by done. split; [done|]. exists [].
    split; [by rewrite app_nil_r|]. repeat split; simpl; try done; lia.
  - rewrite epochs_loop_quiet by done. cbv zeta.
    set (w1 := set_model _ w).
    assert (sigint w1 = None /\ stderr w1 = stderr w) as [Hq1 Hlog1]
        by (by destruct w).
    cbn [length validations_from].
    destruct (epoch_count `mod` valid_every =? 0).
    2:{ destruct (IH (epoch_count + 1) w1 Hve Hq1) as (Hok & new & Hnew & Hs).
        split; [done|]. exists new. by rewrite Hnew, Hlog1. }
    destruct (total (model w1)) as [vf1 ->].
    set (w2 := after_cycle vf1 w1).
    assert (sigint w2 = None) as Hq2
        by (unfold w2; by rewrite after_cycle_quiet).
    pose proof (after_cycle_stderr vf1 w1) as Hlog2. fold w2 in Hlog2.
    destruct (Z.eqb_spec (patience_counter w2) max_patience) as [Heq|Hne].
    + simpl. split; [done|]. exists [(vf1, max_patience)].
      rewrite restored_stderr, Hlog2, Hlog1, Heq. split; [done|].
      repeat split; simpl.
      * intros [|i] line Hi Hline; [done|]. by destruct i.
      * lia.
      * intros _. by exists vf1.
    + destruct (IH (epoch_count + 1) w2 Hve Hq2)
        as (Hok & new & Hnew & Hall & Hlen & Hlast).
      split; [done|]. exists ((vf1, patience_counter w2) :: new).
      rewrite Hnew, Hlog2, Hlog1, <- app_assoc. split; [done|].
      repeat split; simpl.
      * intros [|i] line Hi Hline; simpl in Hi.
        -- inversion Hi; subst line. done.
        -- f_equal. by eapply Hall.
      * lia.
      * intros Hlt. destruct Hlast as [f Hf]; [lia|].
        exists f. destruct new; [done|]. done.
Qed.
End Stops.

(** *** Statements that an interrupt may end *)

Section Interruptible.
Context {Params : Type}.
Variable validate : Params -> result Q.
Implicit Type w : world Params.

Lemma wp_ret {A} (a : A) post w : post (Ok a) w -> wp (ret a) post w.
Proof. done. Qed.

Lemma wp_raise {A} e (post : result A -> world Params -> Prop) w :
  post (Raised e) w -> wp (raise e) post w.
Proof. done. Qed.

Lemma wp_bind {A B} (c : M Params A) (k : A -> M Params B) post w :
  wp c (fun r w' => match r with
                    | Ok a => wp (k a) post w'
                    | Raised e => post (Raised e) w'
                    end) w ->
  wp (bind c k) post w.
Proof. unfold wp, bind. by destruct (c w) as [[a|e] w']. Qed.

Lemma wp_gets {A} (f : world Params -> A) post w :
  post (Ok (f w)) w -> wp (gets f) post w.
Proof. done. Qed.

Lemma wp_modify f post w : post (Ok tt) (f w) -> wp (modify f) post w.
Proof. done. Qed.

Lemma wp_lift {A} (r : result A) post w : post r w -> wp (lift r) post w.
Proof. done. Qed.

Lemma wp_tick post w :
  (forall s, post (Ok tt) (set_sigint s w)) ->
  post (Raised KeyboardInterrupt) (set_sigint None w) ->
  wp tick post w.
Proof.
  intros Hok Hint. unfold wp, tick.
  destruct (sigint w) as [[|n]|] eqn:Hs; simpl; [done|apply Hok|].
  specialize (Hok None). destruct w. simpl in Hs. by subst.
Qed.

Lemma wp_statement f post w :
  (forall s, post (Ok tt) (f (set_sigint s w))) ->
  post (Raised KeyboardInterrupt) (set_sigint None w) ->
  wp (statement f) post w.
Proof.
  intros Hok Hint. unfold statement. apply wp_bind, wp_tick; [|done].
  intros s. by apply wp_modify.
Qed.

Lemma wp_mono {A} (c : M Params A) (post post' : _ -> _ -> Prop) w :
  (forall r w', post r w' -> post' r w') -> wp c post w -> wp c post' w.
Proof. unfold wp. auto. Qed.

Ltac wp_step :=
  lazymatch goal with
  | |- wp (bind _ _) _ _ => apply wp_bind
  | |- wp (gets _) _ _ => apply wp_gets
  | |- wp (modify _) _ _ => apply wp_modify
  | |- wp (ret _) _ _ => apply wp_ret
  | |- wp (raise _) _ _ => apply wp_raise
  | |- wp (lift _) _ _ => apply wp_lift
  | |- wp (statement _) _ _ => apply wp_statement; [intros ?|]
  end;
  cbn [model best_f1 best_model patience_counter best_f1_model test_json
       stderr sigint set_model set_best_f1 set_best_model
       set_patience_counter set_best_f1_model set_test_json print
       set_sigint].

Lemma best_so_far_ext w w' :
  best_model w = best_model w' -> stderr w = stderr w' ->
  best_so_far validate w -> best_so_far validate w'.
Proof. unfold best_so_far. by intros <- <-. Qed.

Lemma kept_in_memory_ext w w' :
  best_f1 w = best_f1 w' -> best_model w = best_model w' ->
  stderr w = stderr w' ->
  kept_in_memory validate w -> kept_in_memory validate w'.
Proof. unfold kept_in_memory. by intros <- <- <-. Qed.

Lemma kept_in_memory_best_so_far w :
  kept_in_memory validate w -> best_so_far validate w.
Proof.
  unfold kept_in_memory, best_so_far. intros [Hlog Hbest].
  destruct (best_model w) as [p|].
  - destruct Hbest as [Hp Hpos]. by exists (best_f1 w).
  - intros line Hline. rewrite <- Hbest. by apply Hlog.
Qed.

Lemma kept_in_memory_nonneg w :
  kept_in_memory validate w -> (0 <= best_f1 w)%Q.
Proof.
  intros [_ Hbest]. destruct (best_model w).
  - apply Qlt_le_weak. apply Hbest.
  - rewrite Hbest. apply Qle_refl.
Qed.

(** A cycle keeps the best in memory when it completes, and leaves
    [best_model] the best so far wherever an interrupt ends it. *)
Lemma validation_wp max_patience w :
  kept_in_memory validate w ->
  wp (validation validate max_patience)
     (fun r w' => best_so_far validate w'
                  /\ forall stop, r = Ok stop -> kept_in_memory validate w')
     w.
Proof.
  intros Hk.
  pose proof (kept_in_memory_best_so_far w Hk) as Hb.
  pose proof (kept_in_memory_nonneg w Hk) as Hnn.
  destruct w as [m bf bm pc file tj log sig].
  unfold validation. do 4 wp_step. simpl model.
  destruct (validate m) as [vf1|e] eqn:Hv; [|by split].
  do 3 wp_step. simpl best_f1 in *.
  assert (forall w', best_model w' = bm -> stderr w' = log ->
                     best_so_far validate w') as Hold.
  { intros w' Hbm Hlog. by eapply best_so_far_ext; [| |exact Hb]. }
  destruct (Qgtb vf1 bf) eqn:Hgt.
  - apply Qgtb_true in Hgt.
    assert (0 < vf1)%Q as Hpos by (by eapply Qle_lt_trans).
    assert (forall line, line ∈ log -> (line.1 <= vf1)%Q) as Hlines.
    { intros line Hline. apply Qlt_le_weak.
      eapply Qle_lt_trans; [|exact Hgt]. by apply (proj1 Hk). }
    assert (forall w', best_model w' = Some m -> stderr w' = log ->
                       best_so_far validate w') as Hnew.
    { intros w' Hbm Hlog. unfold best_so_far. rewrite Hbm, Hlog.
      by exists vf1. }
    assert (forall w', best_f1 w' = vf1 -> best_model w' = Some m ->
                       stderr w' = log ++ [(vf1, 0)] ->
                       kept_in_memory validate w') as Hend.
    { intros w' Hbf Hbm Hlog. unfold kept_in_memory.
      rewrite Hbf, Hbm, Hlog. split; [|done].
      intros line Hline. apply elem_of_app in Hline as [Hline|Hline].
      - by apply Hlines.
      - apply list_elem_of_singleton in Hline. subst line. apply Qle_refl. }
    repeat wp_step;
      try (split; [|by intros ? [=]]; first [by apply Hold|by apply Hnew]).
    destruct (0 =? max_patience); repeat wp_step;
      (split; [apply kept_in_memory_best_so_far; by apply Hend|]);
      first [intros ? ?; discriminate|intros _ _; by apply Hend].
  - apply Qgtb_false in Hgt.
    assert (forall w', best_f1 w' = bf -> best_model w' = bm ->
                       stderr w' = log ++ [(vf1, pc + 1)] ->
                       kept_in_memory validate w') as Hend.
    { intros w' Hbf Hbm Hlog.
      eapply (kept_in_memory_ext
                (World m bf bm pc file tj (log ++ [(vf1, pc + 1)]) sig));
        try done.
      split; [|apply Hk]. simpl.
      intros line Hline. apply elem_of_app in Hline as [Hline|Hline].
      - by apply (proj1 Hk).
      - apply list_elem_of_singleton in Hline. by subst line. }
    repeat wp_step;
      try (split; [|by intros ? [=]]; by apply Hold).
    destruct (pc + 1 =? max_patience); repeat wp_step;
      [destruct bm as [p|]; repeat wp_step|..];
      (split; [apply kept_in_memory_best_so_far; by apply Hend|]);
      first [intros ? ?; discriminate|intros _ _; by apply Hend].
Qed.

Lemma file_so_far_ext file0 w w' :
  best_f1_model w = best_f1_model w' -> stderr w = stderr w' ->
  file_so_far validate file0 w -> file_so_far validate file0 w'.
Proof. unfold file_so_far. by intros <- <-. Qed.

Lemma kept_best_ext file0 w w' :
  best_f1 w = best_f1 w' -> best_model w = best_model w' ->
  best_f1_model w = best_f1_model w' -> stderr w = stderr w' ->
  kept_best validate file0 w -> kept_best validate file0 w'.
Proof. unfold kept_best. by intros <- <- <- <-. Qed.

Lemma kept_best_file_so_far file0 w :
  kept_best validate file0 w -> file_so_far validate file0 w.
Proof.
  unfold kept_best, file_so_far. intros [Hlog Hbest].
  destruct (best_model w) as [p|].
  - destruct Hbest as (Hp & Hpos & Hfile & _). right. right.
    by exists p, (best_f1 w).
  - destruct Hbest as [Hbf Hfile]. left. split; [done|].
    intros line Hline. rewrite <- Hbf. by apply Hlog.
Qed.

Lemma kept_best_nonneg file0 w :
  kept_best validate file0 w -> (0 <= best_f1 w)%Q.
Proof.
  intros [_ Hbest]. destruct (best_model w).
  - apply Qlt_le_weak. apply Hbest.
  - destruct Hbest as [-> _]. apply Qle_refl.
Qed.

(** A cycle keeps the best on disk when it completes, and leaves the
    file a best so far, or half written, wherever an interrupt ends
    it. *)
Lemma validation_wp_file file0 max_patience w :
  kept_best validate file0 w ->
  wp (validation validate max_patience)
     (loop_post (kept_best validate file0) (file_so_far validate file0)
                (fun _ => True))
     w.
Proof.
  intros Hk.
  pose proof (kept_best_file_so_far file0 w Hk) as Hb.
  pose proof (kept_best_nonneg file0 w Hk) as Hnn.
  destruct w as [m bf bm pc file tj log sig].
  unfold validation. do 4 wp_step. simpl model.
  destruct (validate m) as [vf1|e] eqn:Hv; [|by split].
  do 3 wp_step. simpl best_f1 in *.
  assert (forall w', best_f1_model w' = file -> stderr w' = log ->
                     file_so_far validate file0 w') as Hold.
  { intros w' Hfile Hlog. by eapply file_so_far_ext; [| |exact Hb]. }
  destruct (Qgtb vf1 bf) eqn:Hgt.
  - apply Qgtb_true in Hgt.
    assert (0 < vf1)%Q as Hpos by (by eapply Qle_lt_trans).
    assert (forall line, line ∈ log -> (line.1 <= vf1)%Q) as Hlines.
    { intros line Hline. apply Qlt_le_weak.
      eapply Qle_lt_trans; [|exact Hgt]. by apply (proj1 Hk). }
    assert (forall w', best_f1_model w' = Some Truncated ->
                       file_so_far validate file0 w') as Hopen.
    { intros w' Hfile. right. by left. }
    assert (forall w', best_f1_model w' = Some (Saved m) ->
                       stderr w' = log ->
                       file_so_far validate file0 w') as Hnew.
    { intros w' Hfile Hlog. right. right. exists m, vf1.
      by rewrite Hlog. }
    assert (forall w', best_f1 w' = vf1 -> best_model w' = Some m ->
                       best_f1_model w' = Some (Saved m) ->
                       stderr w' = log ++ [(vf1, 0)] ->
                       kept_best validate file0 w') as Hend.
    { intros w' Hbf Hbm Hfile Hlog. unfold kept_best.
      rewrite Hbf, Hbm, Hfile, Hlog. split.
      - intros line Hline. apply elem_of_app in Hline as [Hline|Hline].
        + by apply Hlines.
        + apply list_elem_of_singleton in Hline. subst line.
          apply Qle_refl.
      - repeat split; try done. exists 0. apply elem_of_app.
        right. by left. }
    repeat wp_step;
      try (split; [|done];
           first [by apply Hold|by apply Hopen|by apply Hnew]).
    destruct (0 =? max_patience); repeat wp_step;
      (split; [apply kept_best_file_so_far; by apply Hend|]);
      first [done|by apply Hend].
  - apply Qgtb_false in Hgt.
    assert (forall w', best_f1 w' = bf -> best_model w' = bm ->
                       best_f1_model w' = file ->
                       stderr w' = log ++ [(vf1, pc + 1)] ->
                       kept_best validate file0 w') as Hend.
    { intros w' Hbf Hbm Hfile Hlog.
      eapply (kept_best_ext file0
                (World m bf bm pc file tj (log ++ [(vf1, pc + 1)]) sig));
        try done.
      destruct Hk as [Hk1 Hk2]. split; simpl in *.
      - intros line Hline. apply elem_of_app in Hline as [Hline|Hline].
        + by apply Hk1.
        + apply list_elem_of_singleton in Hline. by subst line.
      - destruct bm as [p|]; [|done].
        destruct Hk2 as (Hp & Hpos & Hf & c & Hc).
        repeat split; try done. exists c. apply elem_of_app. by left. }
    repeat wp_step;
      try (split; [|done]; by apply Hold).
    destruct (pc + 1 =? max_patience); repeat wp_step;
      [destruct bm as [p|]; repeat wp_step|..];
      (split; [apply kept_best_file_so_far; by apply Hend|]);
      first [done|by apply Hend].
Qed.

Lemma wp_bind_with {A B} (c : M Params A) (k : A -> M Params B)
    (mid : result A -> world Params -> Prop) post w :
  wp c mid w ->
  (forall r w', mid r w' ->
                match r with
                | Ok a => wp (k a) post w'
                | Raised e => post (Raised e) w'
                end) ->
  wp (bind c k) post w.
Proof. intros Hc Hk. apply wp_bind. revert Hc. by apply wp_mono. Qed.

(** The loop, for a property [inv] that holds between the statements of
    an epoch outside a validation cycle, a property [any] that holds at
    every step, and a set [exns] of the exceptions that can end the
    loop. *)
Section Loop.
Variables inv any : world Params -> Prop.
Variable exns : exn -> Prop.
Variables max_patience valid_every : Z.

Hypothesis inv_any : forall w, inv w -> any w.
Hypothesis inv_sigint : forall w s, inv w -> inv (set_sigint s w).
Hypothesis inv_model : forall w p, inv w -> inv (set_model p w).
Hypothesis interrupts : exns KeyboardInterrupt.
Hypothesis divides : valid_every = 0 -> exns ZeroDivisionError.
Hypothesis cycle :
  forall w, inv w -> wp (validation validate max_patience) (loop_post inv any exns) w.

Lemma train_batches_inv steps : forall w,
  inv w -> wp (train_batches steps) (loop_post inv any exns) w.
Proof using inv_any inv_sigint inv_model interrupts.
  induction steps as [|p steps IH]; intros w Hw; cbn [train_batches].
  - apply wp_ret. split; [by apply inv_any|done].
  - apply wp_bind, wp_statement.
    + intros s. apply IH. by apply inv_model, inv_sigint.
    + split; [|done]. by apply inv_any, inv_sigint.
Qed.

Lemma epochs_loop_inv epochs : forall epoch_count w,
  inv w ->
  wp (epochs_loop validate max_patience valid_every epoch_count epochs)
     (loop_post inv any exns) w.
Proof using inv_any inv_sigint inv_model interrupts divides cycle.
  induction epochs as [|steps rest IH]; intros epoch_count w Hw;
    cbn [epochs_loop].
  - apply wp_tick.
    + intros s. split; [apply inv_any|]; by apply inv_sigint.
    + split; [|done]. by apply inv_any, inv_sigint.
  - apply wp_bind, wp_tick;
      [|split; [|done]; by apply inv_any, inv_sigint].
    intros s.
    eapply wp_bind_with; [apply train_batches_inv; by apply inv_sigint|].
    intros [[]|e] w1 [Hany Hr]; [|by split].
    apply wp_bind.
    destruct (Z.eqb_spec valid_every 0) as [Hz|_].
    { apply wp_raise. split; [done|by apply divides]. }
    apply wp_ret.
    destruct (epoch_count `mod` valid_every =? 0); [|by apply IH].
    eapply wp_bind_with; [by apply cycle|].
    intros [[|]|e] w2 [Hany2 Hr2]; [|by apply IH|by split].
    apply wp_ret. by split.
Qed.
End Loop.

Lemma kept_in_memory_fresh w :
  stderr w = [] -> kept_in_memory validate (fresh w).
Proof.
  intros Hlog. split; simpl; [|done]. rewrite Hlog.
  intros line Hline. by apply elem_of_nil in Hline.
Qed.

Lemma restore_best_model_restored w :
  restore_best_model w = (Ok tt, restored w).
Proof.
  unfold restore_best_model, restored, bind, gets.
  by destruct (best_model w).
Qed.

(** However the loop ends, the file is a best so far or half
    written. *)
Lemma epochs_loop_file_so_far file0 max_patience valid_every epochs w :
  kept_best validate file0 w ->
  file_so_far validate file0
    (epochs_loop validate max_patience valid_every 0 epochs w).2.
Proof.
  intros Hk.
  pose proof (epochs_loop_inv (kept_best validate file0)
                (file_so_far validate file0) (fun _ => True)
                max_patience valid_every) as Hloop.
  apply Hloop with (epochs := epochs) (epoch_count := 0) (w := w).
  - apply kept_best_file_so_far.
  - intros w' s. by apply kept_best_ext.
  - intros w' p. by apply kept_best_ext.
  - done.
  - done.
  - intros w'. apply validation_wp_file.
  - done.
Qed.

(** However the loop ends, [best_model] is the best so far. *)
Lemma epochs_loop_best_so_far max_patience valid_every epochs w :
  stderr w = [] ->
  best_so_far validate
    (epochs_loop validate max_patience valid_every 0 epochs (fresh w)).2.
Proof.
  intros Hlog.
  pose proof (epochs_loop_inv (kept_in_memory validate)
                (best_so_far validate) (fun _ => True)
                max_patience valid_every) as Hloop.
  apply Hloop with (epochs := epochs) (epoch_count := 0) (w := fresh w).
  - apply kept_in_memory_best_so_far.
  - intros w' s. by apply kept_in_memory_ext.
  - intros w' p. by apply kept_in_memory_ext.
  - done.
  - done.
  - intros w' Hw'. eapply wp_mono; [|by apply validation_wp].
    intros r w'' [Hb Hk]. split; [done|]. destruct r; [by eapply Hk|done].
  - by apply kept_in_memory_fresh.
Qed.
End Interruptible.

(** *** Runs in which every validation F1 is 0 *)

Section ZeroF1.
Context {Params : Type}.
Variable validate : Params -> result Q.
Hypothesis all_zero : forall p, exists f, validate p = Ok f /\ (f == 0)%Q.
Variable file0 : option (checkpoint_file Params).
Implicit Type w : world Params.

Ltac wp_step :=
  lazymatch goal with
  | |- wp (bind _ _) _ _ => apply wp_bind
  | |- wp (gets _) _ _ => apply wp_gets
  | |- wp (modify _) _ _ => apply wp_modify
  | |- wp (ret _) _ _ => apply wp_ret
  | |- wp (raise _) _ _ => apply wp_raise
  | |- wp (lift _) _ _ => apply wp_lift
  | |- wp (statement _) _ _ => apply wp_statement; [intros ?|]
  end;
  cbn [model best_f1 best_model patience_counter best_f1_model test_json
       stderr sigint set_model set_best_f1 set_best_model
       set_patience_counter set_best_f1_model set_test_json print
       set_sigint].




End ZeroF1.

(** An interrupted loop in a world where nothing was printed yet. *)
Lemma recovered_from {Params Features : Type}
    (forward : Params -> Features -> list (list Q))
    (validate : Params -> result Q) max_patience valid_every epochs
    test_batches (w w1 : world Params) :
  stderr w = [] ->
  epochs_loop validate max_patience valid_every 0 epochs (fresh w)
  = (Raised KeyboardInterrupt, w1) ->
  training validate max_patience valid_every epochs (fresh w)
  = (Ok tt, restored w1)
  /\ model (restored w1) = match best_model w1 with
                           | Some p => p
                           | None => model w1
                           end
  /\ best_so_far validate w1
  /\ train forward validate epochs max_patience valid_every test_batches w
     = test_phase forward test_batches (restored w1).
Proof.
  intros Hlog Hloop.
  assert (training validate max_patience valid_every epochs (fresh w)
          = (Ok tt, restored w1)) as Htraining.
  { unfold training, try_except_KeyboardInterrupt. rewrite Hloop.
    apply restore_best_model_restored. }
  split; [done|]. split.
  { unfold restored. by destruct (best_model w1), w1. }
  split.
  { pose proof (epochs_loop_best_so_far validate max_patience valid_every
                  epochs w Hlog) as Hb.
    by rewrite Hloop in Hb. }
  unfold train, bind, modify. fold (fresh w). by rewrite Htraining.
Qed.

(** C5.  When KeyboardInterrupt is raised in the training loop of Reveal,
    the handler ends the training normally, without raising again, with
    [best_model], if there is one, loaded into the model; [best_model]
    is then the best so far: it validates with a positive F1 that no F1
    reported so far exceeds; and [train] goes on with the test phase
    from that world. *)
Theorem interrupt_is_recovered {Params Features : Type}
    (forward : Params -> Features -> list (list Q))
    (validate : Params -> result Q) max_patience valid_every epochs
    test_batches m file test_file sig (w1 : world Params) :
  epochs_loop validate max_patience valid_every 0 epochs
              (before_run m file test_file sig)
  = (Raised KeyboardInterrupt, w1) ->
  training validate max_patience valid_every epochs
           (before_run m file test_file sig)
  = (Ok tt, restored w1)
  /\ model (restored w1) = match best_model w1 with
                           | Some p => p
                           | None => model w1
                           end
  /\ best_so_far validate w1
  /\ train forward validate epochs max_patience valid_every test_batches
           (before_run m file test_file sig)
     = test_phase forward test_batches (restored w1).
Proof.
  intros Hloop.
  by apply (recovered_from forward validate max_patience valid_every epochs
              test_batches (before_run m file test_file sig) w1).
Qed.

(** Ctrl-C after the second cycle has taken its snapshot: the training
    ends normally with that snapshot in the model. *)
Lemma interrupt_is_recovered_witness :
  exists w1,
    epochs_loop score_of 3 1 0 eight_epochs interrupted_start
    = (Raised KeyboardInterrupt, w1)
    /\ best_model w1 = Some 1%nat
    /\ training score_of 3 1 eight_epochs interrupted_start
       = (Ok tt, restored w1)
    /\ model (restored w1) = 1%nat.
Proof.
  eexists. split; [vm_compute; reflexivity|]. split; [reflexivity|].
  match goal with
  | |- context [restored ?w1] =>
      destruct (interrupt_is_recovered no_forward score_of 3 1 eight_epochs []
                  100%nat None None (Some 13%nat) w1)
        as (Htraining & Hmodel & _ & _)
  end; [vm_compute; reflexivity|].
  split; [exact Htraining|exact Hmodel].
Defined.





(** C2.  With the scores 1, 2, 3, 2, 2, 2 (and two more epochs after
    them) and [max_patience] 3, the training of Reveal ends at the sixth
    validation cycle, the checkpoint file holding the snapshot of the
    third cycle.  In a validation cycle without interrupt, the patience
    counter is reset to 0 and the checkpoint written exactly when the
    validation F1 is greater than [best_f1], the counter grows by 1
    otherwise, and the loop breaks exactly when the counter then equals
    [max_patience].  In a run without interrupt only the last report can
    show [max_patience], and the run validates every epoch due unless a
    report showed [max_patience]. *)
Theorem early_stopping_policy :
  (exists w',
      training score_of 3 1 eight_epochs start = (Ok tt, w')
      /\ stderr w' = [(1%Q, 0); (2%Q, 0); (3%Q, 0);
                      (2%Q, 1); (2%Q, 2); (2%Q, 3)]
      /\ best_f1_model w' = Some (Saved 2%nat)
      /\ model w' = 2%nat)
  /\ (forall (Params : Type) (validate : Params -> result Q) max_patience
             (w : world Params) vf1,
        sigint w = None -> validate (model w) = Ok vf1 ->
        exists stop w',
          validation validate max_patience w = (Ok stop, w')
          /\ ((best_f1 w < vf1)%Q ->
              patience_counter w' = 0
              /\ best_f1_model w' = Some (Saved (model w))
              /\ best_model w' = Some (model w) /\ best_f1 w' = vf1)
          /\ ((vf1 <= best_f1 w)%Q ->
              patience_counter w' = patience_counter w + 1
              /\ best_f1_model w' = best_f1_model w
              /\ best_model w' = best_model w /\ best_f1 w' = best_f1 w)
          /\ (stop = true <-> patience_counter w' = max_patience))
  /\ (forall (Params : Type) (validate : Params -> result Q) max_patience
             valid_every epochs m file test_file,
        valid_every <> 0 ->
        (forall p, exists f, validate p = Ok f) ->
        exists w' : world Params,
          training validate max_patience valid_every epochs
                   (before_run m file test_file None)
          = (Ok tt, w')
          /\ stops_at_max_patience max_patience
               (validations valid_every (length epochs)) (stderr w')).
Proof.
  split; [|split].
  - eexists. split; [vm_compute; reflexivity|]. repeat split.
  - intros Params validate max_patience w vf1 Hq Hv.
    rewrite (validation_quiet validate max_patience w vf1 Hq Hv). cbv zeta.
    set (w1 := after_cycle vf1 w).
    assert (((best_f1 w < vf1)%Q ->
             patience_counter w1 = 0
             /\ best_f1_model w1 = Some (Saved (model w))
             /\ best_model w1 = Some (model w) /\ best_f1 w1 = vf1)
            /\ ((vf1 <= best_f1 w)%Q ->
                patience_counter w1 = patience_counter w + 1
                /\ best_f1_model w1 = best_f1_model w
                /\ best_model w1 = best_model w /\ best_f1 w1 = best_f1 w))
      as [Himp Hnot].
    { unfold w1, after_cycle. destruct (Qgtb vf1 (best_f1 w)) eqn:Hgt.
      - apply Qgtb_true in Hgt. split; [done|].
        intros Hle. by apply Qle_not_lt in Hle.
      - apply Qgtb_false in Hgt. split; [|done].
        intros Hlt. by apply Qle_not_lt in Hgt. }
    destruct (Z.eqb_spec (patience_counter w1) max_patience) as [Heq|Hne].
    + exists true, (restored w1).
      assert (patience_counter (restored w1) = patience_counter w1
              /\ best_f1_model (restored w1) = best_f1_model w1
              /\ best_model (restored w1) = best_model w1
              /\ best_f1 (restored w1) = best_f1 w1) as (-> & -> & -> & ->).
      { unfold restored. destruct (best_model w1) eqn:Hb; [|done].
        simpl. by rewrite Hb. }
      done.
    + exists false, w1. split; [done|]. split; [done|]. split; [done|].
      split; [done|]. intros Heq. by destruct Hne.
  - intros Params validate max_patience valid_every epochs m file test_file
      Hve Htotal.
    pose proof (epochs_loop_stops validate Htotal max_patience valid_every
                  epochs 0 (before_run m file test_file None) Hve eq_refl)
      as Hloop.
    cbv zeta in Hloop. destruct Hloop as (Hok & new & Hnew & Hstops).
    unfold training, try_except_KeyboardInterrupt.
    destruct (epochs_loop _ _ _ _ _ _) as [r w1]. simpl in Hok, Hnew.
    subst r. exists w1. split; [done|]. by rewrite Hnew.
Qed.

(** A cycle with F1 2 after the best was 0. *)
Lemma early_stopping_policy_witness :
  exists stop w',
    validation score_of 3 (set_model 3%nat start) = (Ok stop, w')
    /\ patience_counter w' = 0
    /\ best_f1_model w' = Some (Saved 3%nat).
Proof.
  destruct (proj1 (proj2 early_stopping_policy) nat score_of 3
                  (set_model 3%nat start) 2%Q)
    as (stop & w' & Hval & Himp & _); [reflexivity|reflexivity|].
  exists stop, w'. split; [exact Hval|].
  destruct Himp as (Hpc & Hfile & _); [reflexivity|]. by split.
Defined.
End TrainerProofs.

Module CheckpointProofs.
Import Py Numpy SVulDClaims TrainerClaims TrainerProofs.

Section SVulDLoop.
Context {Params EarlyStopping : Type}.
Variable early_stopping_call : EarlyStopping -> Q -> EarlyStopping.
Variable early_stop : EarlyStopping -> bool.
Variable validate : Params -> result (SVulD.results * Q).
Variable n_gpu : Z.
Variable file0 : option Params.
Implicit Type s : SVulD.state Params EarlyStopping.

Lemma kept_best_f1_nonneg evaluated s best :
  kept_best_f1 validate file0 evaluated s best -> (0 <= best)%Q.
Proof.
  intros [_ [[-> _]|(p & res & loss & _ & _ & _ & _ & Hpos)]].
  - apply Qle_refl.
  - by apply Qlt_le_weak.
Qed.

(** One validation of SVulD keeps the best F1. *)
Lemma validation_kept seen s best s' best' stop :
  kept_best_f1 validate file0 seen s best ->
  SVulD.validation early_stopping_call early_stop validate n_gpu s best
  = Ok (s', best', stop) ->
  kept_best_f1 validate file0 (seen ++ [SVulD.model s]) s' best'
  /\ SVulD.model s' = SVulD.model s
  /\ stop = early_stop (SVulD.early_stopping s')
  /\ exists res loss,
       validate (SVulD.model s) = Ok (res, loss)
       /\ SVulD.early_stopping s'
          = early_stopping_call (SVulD.early_stopping s) loss.
Proof.
  intros Hk. pose proof (kept_best_f1_nonneg _ _ _ Hk) as Hnn.
  destruct Hk as [Hall Hfile]. unfold SVulD.validation.
  destruct (validate (SVulD.model s)) as [[res loss]|e] eqn:Hv; [|done].
  simpl.
  destruct (Qgtb (SVulD.f1 res) best) eqn:Hgt.
  - destruct (1 <? n_gpu); [done|]. simpl. intros [= <- <- <-].
    apply Qgtb_true in Hgt. split; [|split; [done|split; [done|by exists res, loss]]]. split.
    + intros p Hp. apply elem_of_app in Hp as [Hp|Hp].
      * destruct (Hall p Hp) as (r & l & Hr & Hle). exists r, l.
        split; [done|]. apply Qlt_le_weak. by eapply Qle_lt_trans.
      * apply list_elem_of_singleton in Hp. subst p.
        exists res, loss. split; [done|apply Qle_refl].
    + right. exists (SVulD.model s), res, loss.
      split; [apply elem_of_app; right; by left|].
      repeat split; try done. by eapply Qle_lt_trans.
  - simpl. intros [= <- <- <-].
    apply Qgtb_false in Hgt. split; [|split; [done|split; [done|by exists res, loss]]]. split.
    + intros p Hp. apply elem_of_app in Hp as [Hp|Hp]; [by apply Hall|].
      apply list_elem_of_singleton in Hp. subst p. by exists res, loss.
    + destruct Hfile as [Hzero|(p & r & l & Hp & Hrest)]; [by left|].
      right. exists p, r, l. split; [|done]. apply elem_of_app. by left.
Qed.

(** The loop of SVulD keeps the best F1 over the models it evaluates,
    gives the early-stopping object their losses, and leaves in memory
    the model of the last epoch it has run. *)
Lemma train_loop_kept epochs : forall seen s best s',
  kept_best_f1 validate file0 seen s best ->
  SVulD.train_loop early_stopping_call early_stop validate n_gpu epochs
                   s best
  = Ok s' ->
  exists n best' losses,
    (n <= length epochs)%nat
    /\ let evaluated := take n (models_after (SVulD.model s) epochs) in
       kept_best_f1 validate file0 (seen ++ evaluated) s' best'
       /\ losses_of validate evaluated losses
       /\ SVulD.early_stopping s'
          = foldl early_stopping_call (SVulD.early_stopping s) losses
       /\ ((n < length epochs)%nat ->
           early_stop (SVulD.early_stopping s') = true)
       /\ SVulD.model s' = List.last evaluated (SVulD.model s).
Proof.
  induction epochs as [|steps rest IH]; intros seen s best s' Hk; simpl.
  - intros [= <-]. exists 0%nat, best, []. simpl.
    rewrite app_nil_r.
    split; [lia|]. split; [done|]. split; [constructor|].
    split; [done|]. split; [lia|done].
  - set (s1 := SVulD.set_model _ s).
    assert (kept_best_f1 validate file0 seen s1 best) as Hk1 by done.
    destruct (SVulD.validation _ _ _ _ s1 best)
      as [[[s2 best2] stop]|e] eqn:Hval; [|done].
    simpl.
    destruct (validation_kept _ _ _ _ _ _ Hk1 Hval)
      as (Hk2 & Hm2 & Hstop & res & loss & Hv & Hes).
    change (SVulD.model s1) with (List.last steps (SVulD.model s)) in *.
    destruct stop.
    + intros [= <-]. exists 1%nat, best2, [loss]. simpl.
      rewrite take_0.
      split; [lia|]. split; [done|]. split.
      { constructor; [by exists res|constructor]. }
      split; [done|]. split; [|done]. intros _. by rewrite <- Hstop.
    + intros Hloop.
      destruct (IH _ _ _ _ Hk2 Hloop)
        as (n & best' & losses & Hn & Hk' & Hlosses & Hes' & Hstop'
            & Hmodel).
      exists (S n), best', (loss :: losses). simpl.
      rewrite Hm2, <- app_assoc in Hk'. simpl in Hk'.
      rewrite Hm2 in Hlosses, Hmodel.
      split; [lia|]. split; [done|]. split.
      { constructor; [by exists res|done]. }
      split; [by rewrite Hes', Hes|].
      split; [intros Hlt; apply Hstop'; lia|].
      rewrite Hmodel.
      destruct (take n _) as [|a l]; [done|by rewrite !List_last_cons].
Qed.
End SVulDLoop.

Section RevealStop.
Context {Params : Type}.
Variable validate : Params -> result Q.
Implicit Type w : Reveal.world Params.

(** When the loop stops for want of patience, the snapshot is loaded
    into the model. *)
Lemma epochs_loop_restores max_patience valid_every epochs :
  forall epoch_count w,
    Reveal.sigint w = None -> valid_every <> 0 ->
    ~ stopped_at max_patience w ->
    let out := Reveal.epochs_loop validate max_patience valid_every
                                  epoch_count epochs w in
    stopped_at max_patience out.2 ->
    forall p, Reveal.best_model out.2 = Some p -> Reveal.model out.2 = p.
Proof.
  induction epochs as [|steps rest IH]; intros epoch_count w Hq Hve Hns.
  - simpl. by rewrite tick_quiet.
  - rewrite epochs_loop_quiet by done. cbv zeta.
    set (w1 := Reveal.set_model _ w).
    assert (Reveal.sigint w1 = None /\ Reveal.stderr w1 = Reveal.stderr w)
      as [Hq1 Hlog1] by (by destruct w).
    assert (~ stopped_at max_patience w1) as Hns1
        by (unfold stopped_at; by rewrite Hlog1).
    destruct (epoch_count `mod` valid_every =? 0); [|by apply IH].
    destruct (validate (Reveal.model w1)) as [vf1|e] eqn:Hv; [|done].
    set (w2 := after_cycle vf1 w1).
    destruct (Z.eqb_spec (Reveal.patience_counter w2) max_patience)
      as [Heq|Hne].
    + simpl. intros _ p. unfold restored.
      destruct (Reveal.best_model w2) as [p2|] eqn:Hb.
      * unfold Reveal.set_model. cbn [Reveal.best_model Reveal.model].
        rewrite Hb. by intros [= ->].
      * by rewrite Hb.
    + apply IH; [by unfold w2; rewrite after_cycle_quiet|done|].
      intros [f Hf]. unfold w2 in Hf.
      rewrite after_cycle_stderr, last_snoc in Hf.
      injection Hf as _ Heq. by apply Hne.
Qed.
End RevealStop.

(** C1 (amended).  In both trainers the checkpoint file is the one taken
    at the best validation F1 so far, and only Reveal restores it on
    stop.  Reveal, at every step of the training, interrupted or not:
    the file is as before the run while no positive F1 was reported, or
    is being written, or holds a snapshot that validates with a positive
    F1 that no reported F1 exceeds; at the end of a training without
    interrupt, that is after any number of whole epochs, it holds the
    snapshot whose validation F1 is [best_f1], the highest F1 reported;
    and when that training has stopped for want of patience, this
    snapshot is the model in memory.  SVulD, after a [train] that
    returns, that is after any number of whole epochs: the file is
    untouched while no evaluated model had an F1 above 0, and otherwise
    holds an evaluated model whose F1 no other evaluated model exceeds;
    the validation losses go to the early-stopping object, which alone
    decides when the loop breaks, and have no part in the choice of the
    checkpoint; and the model in memory is that of the last epoch run,
    not the checkpoint. *)
Theorem checkpoint_is_best_f1 :
  (forall (Params : Type) (validate : Params -> result Q)
          max_patience valid_every epochs m file test_file,
      (forall sig,
          file_so_far validate file
            (Reveal.training validate max_patience valid_every epochs
                             (before_run m file test_file sig)).2)
      /\ (valid_every <> 0 ->
          let w' := (Reveal.training validate max_patience valid_every
                       epochs (before_run m file test_file None)).2 in
          kept_best validate file w'
          /\ (stopped_at max_patience w' ->
              forall p, Reveal.best_model w' = Some p ->
                        Reveal.model w' = p
                        /\ Reveal.best_f1_model w'
                           = Some (Reveal.Saved p))))
  /\ (forall (Params EarlyStopping : Type)
             (early_stopping_call : EarlyStopping -> Q -> EarlyStopping)
             (early_stop : EarlyStopping -> bool)
             (validate : Params -> result (SVulD.results * Q))
             n_gpu epochs (s s' : SVulD.state Params EarlyStopping),
        SVulD.train early_stopping_call early_stop validate n_gpu epochs s
        = Ok s' ->
        exists n best losses,
          (n <= length epochs)%nat
          /\ let evaluated := take n (models_after (SVulD.model s) epochs) in
             kept_best_f1 validate (SVulD.checkpoint s) evaluated s' best
             /\ losses_of validate evaluated losses
             /\ SVulD.early_stopping s'
                = foldl early_stopping_call (SVulD.early_stopping s) losses
             /\ ((n < length epochs)%nat ->
                 early_stop (SVulD.early_stopping s') = true)
             /\ SVulD.model s' = List.last evaluated (SVulD.model s)).
Proof.
  split.
  - intros Params validate max_patience valid_every epochs m file test_file.
    assert (forall sig,
               kept_best validate file (before_run m file test_file sig))
      as Hk.
    { intros sig. split; simpl; [|done].
      intros line Hline. by apply elem_of_nil in Hline. }
    split.
    + intros sig.
      pose proof (epochs_loop_file_so_far validate file max_patience
                    valid_every epochs _ (Hk sig)) as Hout.
      unfold Reveal.training, Reveal.try_except_KeyboardInterrupt.
      destruct (Reveal.epochs_loop _ _ _ _ _ _) as [[[]|e] w1]; [done|].
      simpl in Hout. destruct e; try done.
      rewrite restore_best_model_restored. simpl.
      eapply file_so_far_ext; [| |exact Hout];
        unfold restored; by destruct (Reveal.best_model w1).
    + intros Hve. cbv zeta.
      pose proof (epochs_loop_kept_best validate file max_patience
                    valid_every epochs 0 (before_run m file test_file None)
                    eq_refl Hve (Hk None))
        as [Hout _].
      pose proof (epochs_loop_restores validate max_patience valid_every
                    epochs 0 (before_run m file test_file None)
                    eq_refl Hve) as Hstop.
      cbv zeta in Hstop.
      assert (~ stopped_at max_patience (before_run m file test_file None))
        as Hns by (by intros [f Hf]).
      specialize (Hstop Hns).
      unfold Reveal.training, Reveal.try_except_KeyboardInterrupt.
      destruct (Reveal.epochs_loop _ _ _ _ _ _) as [[[]|e] w1].
      * simpl in *. split; [done|]. intros Hs p Hp.
        split; [by apply Hstop|].
        destruct Hout as [_ Hbest]. rewrite Hp in Hbest. apply Hbest.
      * assert (kept_best validate file (restored w1)) as Hkr
            by (by apply kept_best_restored).
        assert (stopped_at max_patience (restored w1) ->
                forall p, Reveal.best_model (restored w1) = Some p ->
                          Reveal.model (restored w1) = p
                          /\ Reveal.best_f1_model (restored w1)
                             = Some (Reveal.Saved p)) as Hr.
        { intros _ p Hp. split.
          - unfold restored in *.
            destruct (Reveal.best_model w1) as [p1|] eqn:Hb1.
            + destruct w1. simpl in *. congruence.
            + congruence.
          - destruct Hkr as [_ Hbest]. rewrite Hp in Hbest. apply Hbest. }
        destruct e; simpl in *;
          try (split; [done|]; intros Hs p Hp;
               split; [by apply Hstop|];
               destruct Hout as [_ Hbest]; rewrite Hp in Hbest;
               apply Hbest).
        rewrite restore_best_model_restored. simpl. done.
  - intros Params EarlyStopping early_stopping_call early_stop validate
      n_gpu epochs s s' Htrain.
    apply (train_loop_kept early_stopping_call early_stop validate n_gpu
             (SVulD.checkpoint s) epochs [] s 0%Q s'); [|done].
    split; [|by left]. intros p Hp. by apply elem_of_nil in Hp.
Qed.

(** The synthetic run of Reveal, which stops for want of patience with
    the snapshot of the third epoch in the model and in the file, and
    two epochs of SVulD. *)
Lemma checkpoint_is_best_f1_witness :
  (kept_best score_of None
     (Reveal.training score_of 3 1 eight_epochs start).2
   /\ Reveal.model (Reveal.training score_of 3 1 eight_epochs start).2
      = 2%nat
   /\ Reveal.best_f1_model
        (Reveal.training score_of 3 1 eight_epochs start).2
      = Some (Reveal.Saved 2%nat))
  /\ exists s',
       SVulD.train SVulD.EarlyStoppingSpec.call
                   SVulD.EarlyStoppingSpec.early_stop rising 1 two_epochs
                   before_training = Ok s'
       /\ SVulD.checkpoint s' = Some 2%nat.
Proof.
  split.
  - destruct (proj2 (proj1 checkpoint_is_best_f1 nat score_of 3 1
                           eight_epochs 100%nat None None) ltac:(lia))
      as [Hkept Hstop].
    split; [exact Hkept|].
    apply Hstop.
    + exists 2%Q. vm_compute. reflexivity.
    + vm_compute. reflexivity.
  - eexists. split; [vm_compute; reflexivity|reflexivity].
Defined.

(** Where the claim fails.  SVulD: with the F1 and the loss both rising
    the checkpoint is the model of the second epoch, the lowest loss
    that of the first; and after an early stop the model in memory is
    that of the second epoch, the checkpoint that of the first.
    Reveal: Ctrl-C between the snapshot of the second cycle and its
    file leaves the file of the first cycle, Ctrl-C one step later a
    file that is open and empty, and a run in which every F1 is 0 leaves
    no file. *)
Lemma checkpoint_is_not_as_specified :
  (exists s',
      SVulD.train SVulD.EarlyStoppingSpec.call
                  SVulD.EarlyStoppingSpec.early_stop rising 1 two_epochs
                  before_training = Ok s'
      /\ ~ checkpoint_at_lowest_loss rising (models_after 0%nat two_epochs)
                                     s')
  /\ (exists s',
        SVulD.train SVulD.EarlyStoppingSpec.call
                    SVulD.EarlyStoppingSpec.early_stop peaking 1
                    three_epochs impatient = Ok s'
        /\ SVulD.EarlyStoppingSpec.early_stop (SVulD.early_stopping s')
           = true
        /\ ~ restored_on_stop s')
  /\ ~ on_disk_is_best_seen score_of
         (Reveal.training score_of 3 1 eight_epochs interrupted_start).2
  /\ Reveal.best_f1_model
       (Reveal.training score_of 3 1 eight_epochs interrupted_in_write).2
     = Some Reveal.Truncated
  /\ ~ on_disk_is_best_seen zero_score
         (Reveal.training zero_score 3 1 eight_epochs start).2.
Proof.
  split.
  { eexists. split; [vm_compute; reflexivity|].
    intros Hlowest.
    assert (2 <= 1)%Q as Hle.
    { eapply (Hlowest 2%nat _ _ eq_refl eq_refl 1%nat); [|reflexivity].
      simpl. by left. }
    unfold Qle in Hle. simpl in Hle. lia. }
  split.
  { eexists. split; [vm_compute; reflexivity|]. split; [reflexivity|].
    intros Hr. specialize (Hr 1%nat eq_refl). discriminate. }
  split.
  { intros (p & Hfile & Hval). vm_compute in Hfile, Hval.
    injection Hfile as <-. discriminate. }
  split; [vm_compute; reflexivity|].
  intros (p & Hfile & _). vm_compute in Hfile. discriminate.
Qed.
End CheckpointProofs.


Module ZeroShotFacts.
Import Py ZeroShot ZeroShotClaims ZeroShotCases ZeroShotProofs.

Lemma load_splits_ext fs g p idxs : forall acc,
  (forall i, g !! SplitResult p i = fs !! SplitResult p i) ->
  load_splits g p idxs acc = load_splits fs p idxs acc.
Proof.
  induction idxs as [|i idxs IH]; intros acc Hs; [done|].
  simpl. rewrite Hs. destruct (fs !! SplitResult p i) as [[j|]|]; try done.
  destruct (extend acc j); [|done]. by apply IH.
Qed.

(** A second pass over files that already hold what the first pass
    wrote changes nothing and ends the same way. *)
Lemma merge_loop_again split_cnt ps : forall fs g,
  NoDup ps ->
  (forall p i, g !! SplitResult p i = fs !! SplitResult p i) ->
  (forall q, g !! MergedResult q
             = (merge_loop split_cnt ps fs).2 !! MergedResult q) ->
  merge_loop split_cnt ps g = ((merge_loop split_cnt ps fs).1, g).
Proof.
  induction ps as [|p rest IH]; intros fs g Hnd Hs Hm; [done|].
  apply NoDup_cons in Hnd as [Hp Hnd].
  simpl in *. rewrite Hs.
  destruct (fs !! SplitResult p 0) as [f0|]; [|done].
  rewrite (load_splits_ext fs g) by (intros i; apply Hs).
  destruct (load_splits fs p (range split_cnt) []) as [mr|e]; [|done].
  set (fs1 := <[MergedResult p := Json (JArr mr)]> fs) in *.
  assert (g !! MergedResult p = Some (Json (JArr mr))) as Hg.
  { rewrite Hm, merge_loop_other by done. apply lookup_insert_eq. }
  rewrite (insert_id g _ _ Hg).
  apply IH; [done| |done].
  intros q i. rewrite Hs. unfold fs1. by rewrite lookup_insert_ne.
Qed.

(** X1.  The merge writes merged files of the prompts 0 to 99 and
    nothing else: a split file is never changed or removed, and no
    merged file is written for a prompt id from 100 on, whatever split
    files that prompt has. *)
Theorem merge_leaves_other_files split_cnt fs pth :
  (forall q, (q < 100)%nat -> pth <> MergedResult q) ->
  (merge split_cnt fs).2 !! pth = fs !! pth.
Proof.
  intros Hpth. unfold merge. destruct pth as [p i|q].
  - apply merge_loop_split.
  - apply merge_loop_other. unfold range. rewrite elem_of_seq.
    intros [_ Hq]. apply (Hpth q); [|done].
    change (Z.to_nat 100) with 100%nat in Hq. lia.
Qed.

(** The merged file of prompt 100 stays as it is. *)
Lemma merge_leaves_other_files_witness :
  (merge 2 fs_example).2 !! MergedResult 100 = fs_example !! MergedResult 100.
Proof.
  apply (merge_leaves_other_files 2 fs_example (MergedResult 100)).
  intros q Hq [=]. lia.
Defined.

(** X2.  Running the merge again on the files it has left ends the
    same way and leaves every file as it is. *)
Theorem merge_again split_cnt fs :
  merge split_cnt (merge split_cnt fs).2 = merge split_cnt fs.
Proof.
  unfold merge.
  rewrite (merge_loop_again split_cnt (range 100) fs).
  - by destruct (merge_loop split_cnt (range 100) fs).
  - apply NoDup_seq.
  - intros p i. apply merge_loop_split.
  - done.
Qed.

Lemma load_splits_unreadable fs p i f e k : forall a acc,
  (a <= i < a + k)%nat ->
  (forall j, (a <= j < i)%nat ->
             exists items, fs !! SplitResult p j = Some (Json (JArr items))) ->
  fs !! SplitResult p i = Some f -> load_error f = Some e ->
  load_splits fs p (seq a k) acc = Raised e.
Proof.
  induction k as [|k IH]; intros a acc Hi Hbefore Hf He; [lia|].
  simpl. destruct (decide (a = i)) as [->|Hne].
  - rewrite Hf. destruct f as [[]|]; simpl in He; by inversion He.
  - destruct (Hbefore a ltac:(lia)) as [items ->]. simpl.
    apply (IH (S a)); [lia| |done|done]. intros j Hj. apply Hbefore. lia.
Qed.

Lemma merge_loop_unreadable split_cnt p i f e n : forall a fs,
  (a <= p < a + n)%nat ->
  (forall q, (a <= q < p)%nat -> complete split_cnt fs q) ->
  (i < Z.to_nat split_cnt)%nat ->
  (forall j, (j < i)%nat ->
             exists items, fs !! SplitResult p j = Some (Json (JArr items))) ->
  fs !! SplitResult p i = Some f -> load_error f = Some e ->
  exists fs',
    merge_loop split_cnt (seq a n) fs = (Raised e, fs')
    /\ forall q, (p <= q)%nat -> fs' !! MergedResult q = fs !! MergedResult q.
Proof.
  induction n as [|n IH]; intros a fs Hp Hall Hi Hbefore Hf He; [lia|].
  simpl. destruct (decide (a = p)) as [->|Hne].
  - assert (is_Some (fs !! SplitResult p 0)) as [f0 Hf0].
    { destruct (decide (i = 0%nat)) as [->|Hi0]; [by eexists|].
      destruct (Hbefore 0%nat ltac:(lia)) as [items0 ->]. by eexists. }
    rewrite Hf0. unfold range.
    rewrite (load_splits_unreadable fs p i f e); [by exists fs|lia| |done|done].
    intros j Hj. apply Hbefore. lia.
  - destruct (Hall a ltac:(lia)) as [[f0 Hf0] [arrays_a Ha]].
    rewrite Hf0. rewrite (load_splits_arrays _ _ _ arrays_a []); [|done].
    destruct (IH (S a) (<[MergedResult a := Json (JArr ([] ++ concat arrays_a))]> fs))
      as [fs' [Heq Hfs']]; [lia| |done| | |done|].
    + intros q Hq. apply complete_insert. apply Hall. lia.
    + intros j Hj. rewrite lookup_insert_ne; [|done]. by apply Hbefore.
    + by rewrite lookup_insert_ne.
    + exists fs'. split; [done|]. intros q Hq. rewrite Hfs'; [|done].
      rewrite lookup_insert_ne; [done|]. intros [=]. lia.
Qed.

(** X3.  A split file that is there and cannot be read as a list ends
    the merge with an error, also when it is the file of split 0: at a
    prompt [p] below 100, the prompts before it being complete and the
    files of [p] below [i] holding arrays, a file [i] that is not JSON
    gives JSONDecodeError and one that holds null, a boolean or a number
    gives TypeError; no merged file is written for [p] or for a later
    prompt. *)
Theorem unreadable_split_file split_cnt fs p i f e :
  (p < 100)%nat ->
  (forall q, (q < p)%nat -> complete split_cnt fs q) ->
  (i < Z.to_nat split_cnt)%nat ->
  (forall j, (j < i)%nat ->
             exists items, fs !! SplitResult p j = Some (Json (JArr items))) ->
  fs !! SplitResult p i = Some f -> load_error f = Some e ->
  exists fs',
    merge split_cnt fs = (Raised e, fs')
    /\ forall q, (p <= q)%nat -> fs' !! MergedResult q = fs !! MergedResult q.
Proof.
  intros Hp Hall Hi Hbefore Hf He. unfold merge, range.
  apply (merge_loop_unreadable split_cnt p i f e); try done.
  - change (Z.to_nat 100) with 100%nat. lia.
  - intros q Hq. apply Hall. lia.
Qed.

(** Split 1 of prompt 1 is not JSON: JSONDecodeError, prompt 0 being
    merged and prompt 1 not. *)
Lemma unreadable_split_file_witness :
  exists fs',
    merge 2 fs_cut_short = (Raised JSONDecodeError, fs')
    /\ forall q, (1 <= q)%nat ->
                 fs' !! MergedResult q = fs_cut_short !! MergedResult q.
Proof.
  apply (unreadable_split_file 2 fs_cut_short 1 1 Malformed JSONDecodeError).
  - lia.
  - intros q Hq. assert (q = 0%nat) as -> by lia. split.
    + by eexists.
    + exists [[JInt 1]; [JInt 2]]. repeat constructor.
  - vm_compute. lia.
  - intros j Hj. assert (j = 0%nat) as -> by lia. by eexists.
  - reflexivity.
  - reflexivity.
Defined.

(** X4.  With a [split_cnt] that is not positive the script starts no
    subprocess and touches no file: it ends with ZeroDivisionError for
    0, and for a negative [split_cnt] with AssertionError when it does
    not divide the number of GPUs and with the ValueError of
    [np.array_split] when it does. *)
Theorem nonpositive_split_cnt zero_shot all_gpus split_cnt fs :
  split_cnt <= 0 ->
  main zero_shot all_gpus split_cnt fs
  = (Raised (if split_cnt =? 0 then ZeroDivisionError
             else if Z.of_nat (length all_gpus) `mod` split_cnt =? 0
                  then ValueError else AssertionError), fs).
Proof.
  intros Hle. unfold main, fan_out.
  destruct (split_cnt =? 0) eqn:H0; [done|].
  destruct (Z.of_nat (length all_gpus) `mod` split_cnt =? 0); [|done].
  simpl. unfold array_split.
  destruct (Z.leb_spec split_cnt 0); [done|lia].
Qed.

(** Four GPUs in minus two groups. *)
Lemma nonpositive_split_cnt_witness :
  main (fun _ fs => (fs, [])) ZeroShot.all_gpus (-2) ∅ = (Raised ValueError, ∅).
Proof.
  apply (nonpositive_split_cnt (fun _ fs => (fs, [])) ZeroShot.all_gpus (-2) ∅).
  lia.
Defined.
End ZeroShotFacts.


Module RevealFacts.
Import Py Numpy Sklearn Reveal MetricsClaims ExportClaims TrainerClaims.
Import RevealCases.
Import MetricsProofs ExportProofs TrainerProofs.

(** *** The evaluators *)

Section Evaluators.
Context {Params Features : Type}.
Variable forward : Params -> Features -> list (list Q).

Lemma evaluate_patch_batches_agree m batches :
  forall predictions expectations all_probs all_ids out,
    evaluate_batches forward m batches predictions expectations
                     all_probs all_ids = Ok out ->
    evaluate_patch_batches forward m batches predictions expectations
                           all_ids
    = Ok (out.1.1.1, out.1.1.2, out.2).
Proof.
  induction batches as [|b rest IH];
    intros predictions expectations all_probs all_ids out Hout.
  - simpl in *. by inversion Hout.
  - simpl in *. unfold and_then in *.
    destruct (for_each argmax (forward m (features b))); [|done].
    destruct (for_each column1 (forward m (features b))); [|done].
    by eapply IH.
Qed.

(** X5.  Where [evaluate] returns, [evaluate_patch] returns the
    same accuracy, precision, recall and F1 and the same lists of
    predictions, targets and ids. *)
Theorem evaluate_patch_agrees m batches ev :
  evaluate forward m batches = Ok ev ->
  evaluate_patch forward m batches
  = Ok (acc ev, pr ev, rc ev, f1 ev,
        predictions ev, expectations ev, all_ids ev).
Proof.
  unfold evaluate, evaluate_patch. intros Hev.
  destruct (evaluate_batches forward m batches [] [] [] [])
    as [[[[p e] ps] ids]|] eqn:Hb; [|done].
  rewrite (evaluate_patch_batches_agree _ _ _ _ _ _ _ Hb).
  simpl in *. unfold and_then in *.
  destruct (accuracy_score e p); [|done].
  destruct (precision_score e p); [|done].
  destruct (recall_score e p); [|done].
  destruct (f1_score e p); [|done].
  by inversion Hev.
Qed.

Lemma for_each_app {A B} (f : A -> result B) l1 l2 r1 r2 :
  for_each f l1 = Ok r1 -> for_each f l2 = Ok r2 ->
  for_each f (l1 ++ l2) = Ok (r1 ++ r2).
Proof.
  revert r1. induction l1 as [|x l1 IH]; intros r1 H1 H2; simpl in *.
  - by inversion H1.
  - destruct (f x); [|done].
    destruct (for_each f l1) as [r|] eqn:Hr; [|done].
    inversion H1; subst r1. by rewrite (IH r eq_refl H2).
Qed.

Lemma evaluate_batches_predictions m batches :
  forall predictions expectations all_probs all_ids out,
    evaluate_batches forward m batches predictions expectations
                     all_probs all_ids = Ok out ->
    exists new,
      for_each argmax (rows_of forward m batches) = Ok new
      /\ out.1.1.1 = predictions ++ new.
Proof.
  induction batches as [|b rest IH];
    intros predictions expectations all_probs all_ids out Hout.
  - simpl in *. inversion Hout. exists []. by rewrite app_nil_r.
  - simpl in Hout. unfold and_then in Hout.
    destruct (for_each argmax (forward m (features b)))
      as [batch_pred|] eqn:Hp; [|done].
    destruct (for_each column1 (forward m (features b))); [|done].
    destruct (IH _ _ _ _ _ Hout) as (new & Hnew & Heq).
    exists (batch_pred ++ new). split.
    + unfold rows_of in *. simpl. by apply for_each_app.
    + by rewrite Heq, app_assoc.
Qed.

Lemma array_same_width (rows : list (list Q)) n :
  Forall (fun row : list Q => length row = n) rows ->
  array rows = Ok rows.
Proof.
  intros Hall. unfold array. destruct rows as [|row rest]; [done|].
  apply Forall_cons in Hall as [Hrow Hrest].
  replace (forallb _ rest) with true; [done|].
  symmetry. apply forallb_forall. intros r Hr.
  apply Nat.eqb_eq. rewrite Hrow.
  apply (proj1 (Forall_forall _ _) Hrest). by apply list_elem_of_In.
Qed.

(** X6.  Where [evaluate] returns predictions, and there is at
    least one, [predict] on the same batches returns the same
    predictions, provided the probability rows of the batches all
    have one width ([np.array] refuses rows of different widths). *)
Theorem predict_agrees m batches ev :
  evaluate forward m batches = Ok ev ->
  predictions ev <> [] ->
  same_width forward m batches ->
  predict forward m batches = Ok (predictions ev).
Proof.
  unfold evaluate. intros Hev Hne [n Hwidth].
  destruct (evaluate_batches forward m batches [] [] [] [])
    as [[[[p e] ps] ids]|] eqn:Hb; [|done].
  destruct (evaluate_batches_predictions _ _ _ _ _ _ _ Hb)
    as (new & Hnew & Heq).
  simpl in *. unfold and_then in Hev.
  destruct (accuracy_score e p); [|done].
  destruct (precision_score e p); [|done].
  destruct (recall_score e p); [|done].
  destruct (f1_score e p); [|done].
  inversion Hev; subst ev; simpl in *. subst p.
  unfold predict, predict_proba. fold (rows_of forward m batches).
  rewrite (array_same_width _ n Hwidth). simpl.
  destruct (rows_of forward m batches) as [|row rows] eqn:Hpp.
  - simpl in Hnew. by inversion Hnew; subst new.
  - done.
Qed.

(** X7.  F1, precision and recall are 0 whenever the model predicts
    class 0 for every example of the split, and 0 is then the
    validation F1 that [train] compares with [best_f1]. *)
Theorem no_positive_prediction m batches ev :
  evaluate forward m batches = Ok ev ->
  Forall (fun p => p = 0) (predictions ev) ->
  (f1 ev == 0)%Q /\ (pr ev == 0)%Q /\ (rc ev == 0)%Q
  /\ exists f, validate_on forward batches m = Ok f /\ (f == 0)%Q.
Proof.
  intros Hev Hall.
  destruct (reveal_evaluate_scores forward m batches ev Hev)
    as (_ & Hpr & Hrc & Hf1).
  assert (forall pairs : list (Z * Z),
             Forall (fun p => p = 0) (map snd pairs) ->
             tp_sum pairs = 0 /\ pred_sum pairs = 0) as Hz.
  { induction pairs as [|[y p] pairs IH]; intros Hp; [done|].
    apply Forall_cons in Hp as [Hp0 Hp]. simpl in Hp0. subst p.
    destruct (IH Hp) as [IH1 IH2].
    unfold tp_sum, pred_sum in *. simpl. rewrite IH1, IH2.
    by rewrite andb_false_r. }
  destruct (Hz (zip (expectations ev) (predictions ev))) as [Htp Hps].
  { eapply Forall_forall. intros p Hp.
    apply list_elem_of_fmap in Hp as ([y p'] & -> & Hin).
    apply elem_of_zip_r in Hin.
    by apply (proj1 (Forall_forall _ _) Hall). }
  assert (forall den, (prf_divide 0 den == 0)%Q) as Hdiv.
  { intros den. unfold prf_divide. destruct (den =? 0); [done|].
    unfold Qdiv. apply Qmult_0_l. }
  assert (f1 ev == 0)%Q as Hf.
  { rewrite Hf1. unfold Sklearn.f1. rewrite Htp. apply Hdiv. }
  split; [done|]. split.
  { rewrite Hpr. unfold precision. rewrite Htp. apply Hdiv. }
  split.
  { rewrite Hrc. unfold recall. rewrite Htp. apply Hdiv. }
  exists (f1 ev). split; [|done].
  unfold validate_on. by rewrite Hev.
Qed.
End Evaluators.

(** The small split of two batches. *)
Lemma evaluate_patch_agrees_witness :
  exists ev,
    evaluate reveal_rows tt reveal_split = Ok ev
    /\ evaluate_patch reveal_rows tt reveal_split
       = Ok (acc ev, pr ev, rc ev, f1 ev,
             predictions ev, expectations ev, all_ids ev).
Proof.
  eexists. split; [vm_compute; reflexivity|].
  apply (evaluate_patch_agrees reveal_rows tt reveal_split).
  vm_compute. reflexivity.
Defined.

Lemma predict_agrees_witness :
  predict reveal_rows tt reveal_split = Ok [1; 0; 1; 0].
Proof.
  apply (predict_agrees reveal_rows tt reveal_split
           (Evaluation (inject_Z 2 / inject_Z 4) (inject_Z 1 / inject_Z 2)
                       (inject_Z 1 / inject_Z 2)
                       (inject_Z (2 * 1) / inject_Z (2 + 2))
                       [1; 0; 0; 1]
                       [4 # 5; 1 # 10; 7 # 10; 2 # 5]%Q
                       [7; 3; 5; 1] [1; 0; 1; 0])).
  - vm_compute. reflexivity.
  - done.
  - exists 2%nat. repeat constructor.
Defined.

(** A split on which the model gives class 0 throughout. *)
Lemma no_positive_prediction_witness :
  exists f, validate_on reveal_rows negative_split tt = Ok f /\ (f == 0)%Q.
Proof.
  assert (exists ev, evaluate reveal_rows tt negative_split = Ok ev
                     /\ Forall (fun p => p = 0) (predictions ev))
    as (ev & Hev & Hall).
  { eexists. split; [vm_compute; reflexivity|]. simpl.
    repeat constructor. }
  apply (no_positive_prediction reveal_rows tt negative_split ev Hev Hall).
Defined.

(** *** The test file *)

Lemma insert_by_id_stable (k : Z) x l :
  filter (fun r : Z * Z => r.1 = k) (insert_by_id x l)
  = filter (fun r : Z * Z => r.1 = k) (x :: l).
Proof.
  induction l as [|y l IH]; [done|]. simpl.
  destruct (Z.leb_spec x.1 y.1) as [Hle|Hlt]; [done|].
  rewrite filter_cons, IH, !filter_cons.
  destruct (decide (y.1 = k)) as [Hy|Hy];
    destruct (decide (x.1 = k)) as [Hx|Hx]; try done. lia.
Qed.

Lemma sort_by_id_stable (k : Z) l :
  filter (fun r : Z * Z => r.1 = k) (sort_by_id l)
  = filter (fun r : Z * Z => r.1 = k) l.
Proof.
  induction l as [|x l IH]; [done|]. simpl.
  by rewrite insert_by_id_stable, !filter_cons, IH.
Qed.

(** X8.  The test file has one record per pair of an id and a
    prediction, as many as the shorter of the two lists has items, and
    the records of examples that share an id stay in the order of the
    evaluation. *)
Theorem test_export_is_stable (ev : evaluation) :
  exists items,
    test_export ev = JArr (map record_json items)
    /\ length items
       = Nat.min (length (all_ids ev)) (length (predictions ev))
    /\ forall k,
         filter (fun r : Z * Z => r.1 = k) items
         = filter (fun r : Z * Z => r.1 = k)
                  (zip (all_ids ev) (predictions ev)).
Proof.
  exists (sort_by_id (zip (all_ids ev) (predictions ev))).
  split; [done|]. split.
  - rewrite (Permutation_length (sort_by_id_perm _)).
    apply length_zip_with.
  - intros k. apply sort_by_id_stable.
Qed.

(** *** The training loop at the edges of its parameters *)

Section Edges.
Context {Params Features : Type}.
Variable forward : Params -> Features -> list (list Q).
Variable validate : Params -> result Q.
Implicit Type w : world Params.

(** X9.  With [valid_every = 0] and no interrupt, [train] ends with
    the ZeroDivisionError of [epoch_count % valid_every] once the
    batches of the first epoch are trained: no validation is run or
    reported, and the checkpoint file and the test file stay as they
    were. *)
Theorem valid_every_zero max_patience steps rest test_batches
    m file test_file :
  train forward validate (steps :: rest) max_patience 0 test_batches
        (before_run m file test_file None)
  = (Raised ZeroDivisionError,
     before_run (List.last steps m) file test_file None).
Proof.
  unfold train, before_run, bind at 1, modify at 1. simpl.
  unfold bind at 1, modify at 1. simpl.
  unfold bind at 1, modify at 1. simpl.
  unfold bind at 1, training, try_except_KeyboardInterrupt.
  cbn [epochs_loop]. unfold bind at 1.
  rewrite tick_quiet by done. unfold bind at 1.
  rewrite train_batches_quiet by done. simpl. reflexivity.
Qed.

Lemma last_app_last {A} (l1 l2 : list A) d :
  List.last (l1 ++ l2) d = List.last l2 (List.last l1 d).
Proof.
  revert d. induction l1 as [|x l1 IH]; intros d; [done|].
  rewrite <- app_comm_cons, !List_last_cons. apply IH.
Qed.

Hypothesis total : forall p, exists f, validate p = Ok f.

Lemma epochs_loop_negative_patience max_patience valid_every epochs :
  forall epoch_count w,
    max_patience < 0 -> valid_every <> 0 ->
    sigint w = None -> 0 <= patience_counter w ->
    let out := epochs_loop validate max_patience valid_every epoch_count
                           epochs w in
    out.1 = Ok tt
    /\ length (stderr out.2)
       = (length (stderr w)
          + validations_from valid_every epoch_count (length epochs))%nat
    /\ model out.2 = List.last (concat epochs) (model w).
Proof using total.
  induction epochs as [|steps rest IH];
    intros epoch_count w Hmp Hve Hq Hpc.
  - simpl. rewrite tick_quiet by done. simpl. split; [done|]. split; [lia|done].
  - rewrite epochs_loop_quiet by done. cbv zeta.
    set (w1 := set_model _ w).
    assert (sigint w1 = None /\ stderr w1 = stderr w
            /\ patience_counter w1 = patience_counter w
            /\ model w1 = List.last steps (model w))
      as (Hq1 & Hlog1 & Hpc1 & Hm1) by (by destruct w).
    cbn [length validations_from concat]. rewrite last_app_last, <- Hm1.
    destruct (epoch_count `mod` valid_every =? 0).
    2:{ destruct (IH (epoch_count + 1) w1 Hmp Hve Hq1 ltac:(lia))
          as (Hok & Hlen & Hmodel).
        split; [done|]. split; [|done]. rewrite Hlen, Hlog1. lia. }
    destruct (total (model w1)) as [vf1 ->].
    set (w2 := after_cycle vf1 w1).
    assert (sigint w2 = None) as Hq2
        by (unfold w2; by rewrite after_cycle_quiet).
    assert (0 <= patience_counter w2 /\ model w2 = model w1) as [Hpc2 Hm2].
    { unfold w2, after_cycle. destruct (Qgtb _ _); simpl; split; try done; lia. }
    pose proof (after_cycle_stderr vf1 w1) as Hlog2. fold w2 in Hlog2.
    destruct (Z.eqb_spec (patience_counter w2) max_patience) as [Heq|Hne];
      [lia|].
    destruct (IH (epoch_count + 1) w2 Hmp Hve Hq2 Hpc2)
      as (Hok & Hlen & Hmodel).
    split; [done|]. split.
    + rewrite Hlen, Hlog2, length_app, Hlog1. simpl. lia.
    + by rewrite Hmodel, Hm2.
Qed.

(** X10.  With a negative [max_patience] the loop never stops
    early: without interrupt every epoch is trained and every epoch
    due is validated, and the model after the loop is that of the last
    optimiser step, whatever scores were seen. *)
Theorem negative_patience_never_stops max_patience valid_every epochs
    m file test_file :
  max_patience < 0 -> valid_every <> 0 ->
  exists w',
    training validate max_patience valid_every epochs
             (before_run m file test_file None) = (Ok tt, w')
    /\ length (stderr w') = validations valid_every (length epochs)
    /\ model w' = List.last (concat epochs) m.
Proof using total.
  intros Hmp Hve.
  destruct (epochs_loop_negative_patience max_patience valid_every epochs
              0 (before_run m file test_file None) Hmp Hve eq_refl
              ltac:(simpl; lia)) as (Hok & Hlen & Hmodel).
  unfold training, try_except_KeyboardInterrupt.
  destruct (epochs_loop _ _ _ _ _ _) as [r w'] eqn:Hloop.
  simpl in *. subst r. exists w'. done.
Qed.

Lemma epochs_loop_zero_patience valid_every epochs :
  forall epoch_count w,
    valid_every <> 0 -> sigint w = None ->
    best_f1 w = 0%Q -> best_model w = None ->
    0 <= patience_counter w ->
    (forall line, line ∈ stderr w -> (line.1 <= 0)%Q) ->
    let out := epochs_loop validate 0 valid_every epoch_count epochs w in
    out.1 = Ok tt
    /\ forall i line,
         stderr out.2 !! i = Some line -> (0 < line.1)%Q ->
         S i = length (stderr out.2)
         /\ validate (model out.2) = Ok line.1
         /\ best_f1_model out.2 = Some (Saved (model out.2)).
Proof using total.
  induction epochs as [|steps rest IH];
    intros epoch_count w Hve Hq Hbf Hbm Hpc Hlog.
  - simpl. rewrite tick_quiet by done. simpl. split; [done|].
    intros i line Hi Hpos. apply list_elem_of_lookup_2 in Hi.
    apply Hlog in Hi. by apply Qle_not_lt in Hi.
  - rewrite epochs_loop_quiet by done. cbv zeta.
    set (w1 := set_model _ w).
    assert (sigint w1 = None /\ stderr w1 = stderr w
            /\ patience_counter w1 = patience_counter w
            /\ best_f1 w1 = 0%Q /\ best_model w1 = None)
      as (Hq1 & Hlog1 & Hpc1 & Hbf1 & Hbm1) by (by destruct w).
    destruct (epoch_count `mod` valid_every =? 0).
    2:{ apply IH; try done; first [lia|by rewrite Hlog1]. }
    destruct (total (model w1)) as [vf1 Hv]. rewrite Hv.
    set (w2 := after_cycle vf1 w1).
    assert (sigint w2 = None) as Hq2
        by (unfold w2; by rewrite after_cycle_quiet).
    destruct (Qgtb vf1 0) eqn:Hgt.
    + (* the first positive F1: saved, and the loop breaks *)
      assert (patience_counter w2 = 0
              /\ stderr w2 = stderr w ++ [(vf1, 0)]
              /\ best_model w2 = Some (model w1)
              /\ best_f1_model w2 = Some (Saved (model w1)))
        as (Hpc2 & Hlog2 & Hbm2 & Hfile2).
      { unfold w2, after_cycle. rewrite Hbf1, Hgt. simpl.
        by rewrite ?Hlog1. }
      rewrite Hpc2. simpl. split; [done|].
      assert (restored w2 = set_model (model w1) w2) as ->
          by (unfold restored; by rewrite Hbm2).
      apply Qgtb_true in Hgt.
      intros i line Hi Hpos.
      replace (stderr (set_model (model w1) w2)) with (stderr w2) in *
        by (by destruct w2).
      rewrite Hlog2 in Hi |- *.
      apply lookup_app_Some in Hi as [Hi|[Hlen Hi]].
      * apply list_elem_of_lookup_2 in Hi. apply Hlog in Hi.
        by apply Qle_not_lt in Hi.
      * apply list_lookup_singleton_Some in Hi as [Hi <-].
        rewrite length_app. simpl. split; [lia|].
        replace (model (set_model (model w1) w2)) with (model w1)
          by (by destruct w2).
        replace (best_f1_model (set_model (model w1) w2))
          with (best_f1_model w2) by (by destruct w2).
        done.
    + assert (patience_counter w2 = patience_counter w + 1
              /\ stderr w2 = stderr w ++ [(vf1, patience_counter w + 1)]
              /\ best_model w2 = None /\ best_f1 w2 = 0%Q)
        as (Hpc2 & Hlog2 & Hbm2 & Hbf2).
      { unfold w2, after_cycle. rewrite Hbf1, Hgt.
        cbn [patience_counter stderr best_model best_f1 print
             set_patience_counter].
        by rewrite ?Hlog1, ?Hpc1, ?Hbm1, ?Hbf1. }
      apply Qgtb_false in Hgt.
      destruct (Z.eqb_spec (patience_counter w2) 0) as [|_]; [lia|].
      apply IH; try done; [lia|].
      intros line Hline. rewrite Hlog2 in Hline.
      apply elem_of_app in Hline as [Hline|Hline]; [by apply Hlog|].
      apply list_elem_of_singleton in Hline. by subst line.
Qed.

(** X11.  With [max_patience = 0] the loop stops at the first
    validation that reports a positive F1: without interrupt, a
    report with a positive F1 is the last one, and the model of that
    cycle is then in the checkpoint file and in memory. *)
Theorem zero_patience_stops_at_first_improvement valid_every epochs
    m file test_file :
  valid_every <> 0 ->
  exists w',
    training validate 0 valid_every epochs
             (before_run m file test_file None) = (Ok tt, w')
    /\ forall i line,
         stderr w' !! i = Some line -> (0 < line.1)%Q ->
         S i = length (stderr w')
         /\ validate (model w') = Ok line.1
         /\ best_f1_model w' = Some (Saved (model w')).
Proof using total.
  intros Hve.
  destruct (epochs_loop_zero_patience valid_every epochs
              0 (before_run m file test_file None) Hve eq_refl eq_refl
              eq_refl ltac:(simpl; lia)) as (Hok & Hlines).
  { intros line Hline. by apply elem_of_nil in Hline. }
  unfold training, try_except_KeyboardInterrupt.
  destruct (epochs_loop _ _ _ _ _ _) as [r w'] eqn:Hloop.
  simpl in *. subst r. exists w'. done.
Qed.

(** The handler and the test phase leave the bookkeeping alone. *)
Lemma training_after_loop max_patience valid_every epochs w :
  let loop := epochs_loop validate max_patience valid_every 0 epochs w in
  let out := training validate max_patience valid_every epochs w in
  best_f1_model out.2 = best_f1_model loop.2
  /\ best_model out.2 = best_model loop.2
  /\ best_f1 out.2 = best_f1 loop.2
  /\ stderr out.2 = stderr loop.2.
Proof.
  cbv zeta. unfold training, try_except_KeyboardInterrupt.
  destruct (epochs_loop _ _ _ _ _ _) as [[[]|e] w1]; [done|].
  destruct e; try done. simpl.
  unfold restore_best_model, bind, gets, modify, ret.
  destruct (best_model w1) eqn:Hb; [|done]. by destruct w1.
Qed.

Lemma test_phase_loads test_batches w w' :
  test_phase forward test_batches w = (Ok tt, w') ->
  exists p,
    best_f1_model w = Some (Saved p) /\ model w' = p
    /\ best_f1_model w' = best_f1_model w
    /\ best_model w' = best_model w
    /\ best_f1 w' = best_f1 w /\ stderr w' = stderr w.
Proof.
  unfold test_phase, torch_load, bind, gets, modify, raise, ret, lift.
  destruct (best_f1_model w) as [[p|]|] eqn:Hfile; try done.
  intros Hw'. exists p. split; [done|].
  destruct (length test_batches =? 0)%nat.
  - inversion Hw'; subst w'. by destruct w.
  - simpl in Hw'.
    destruct (evaluate forward _ test_batches); [|done].
    inversion Hw'; subst w'. by destruct w.
Qed.

(** X12.  Whenever [train] returns, the model it leaves, which is
    the one it has tested, is the one of the checkpoint file; in a
    run without interrupt in which a snapshot was taken this is the
    best snapshot, whose validation F1 no reported F1 exceeds, also
    when the loop has ended for want of epochs, where the loop itself
    restores nothing. *)
Theorem tested_model_is_checkpoint epochs max_patience valid_every
    test_batches :
  (forall w w',
      train forward validate epochs max_patience valid_every
            test_batches w = (Ok tt, w') ->
      best_f1_model w' = Some (Saved (model w')))
  /\ (forall m file test_file w' p,
        valid_every <> 0 ->
        train forward validate epochs max_patience valid_every
              test_batches (before_run m file test_file None)
        = (Ok tt, w') ->
        best_model w' = Some p ->
        model w' = p /\ validate p = Ok (best_f1 w')
        /\ forall line, line ∈ stderr w' -> (line.1 <= best_f1 w')%Q).
Proof.
  split.
  - intros w w'. unfold train, bind at 1, modify at 1.
    unfold bind at 1, modify at 1. unfold bind at 1, modify at 1.
    unfold bind at 1.
    destruct (training _ _ _ _ _) as [[[]|e] w1]; [|done].
    intros Hw'. apply test_phase_loads in Hw'
      as (p & Hfile & Hm & Hfile' & _). by rewrite Hfile', Hfile, Hm.
  - intros m file test_file w' p Hve. unfold train, bind at 1, modify at 1.
    unfold bind at 1, modify at 1. unfold bind at 1, modify at 1.
    unfold bind at 1. simpl.
    change (World m 0%Q None 0 file test_file [] None)
      with (before_run m file test_file None).
    pose proof (training_after_loop max_patience valid_every epochs
                  (before_run m file test_file None)) as Hafter.
    cbv zeta in Hafter.
    destruct (epochs_loop_kept_best validate file max_patience valid_every
                epochs 0 (before_run m file test_file None))
      as [[Hlog Hbest] _]; [done|done| |].
    { split; [|done]. intros line Hline. by apply elem_of_nil in Hline. }
    destruct (training _ _ _ _ _) as [[[]|e] w1]; [|done].
    simpl in Hafter. destruct Hafter as (Hf & Hb & Hbf & Hs).
    intros Hw' Hp. apply test_phase_loads in Hw'
      as (p0 & Hfile & Hm & Hfile' & Hb' & Hbf' & Hs').
    rewrite Hb', Hb in Hp. rewrite Hp in Hbest.
    destruct Hbest as (Hval & _ & Hsaved & _).
    rewrite Hf, Hsaved in Hfile. inversion Hfile as [Heq].
    rewrite Hbf', Hbf, Hs', Hs.
    split; [congruence|]. split; [congruence|exact Hlog].
Qed.
End Edges.

Lemma score_of_total p : exists f, score_of p = Ok f.
Proof. by eexists. Qed.

(** Eight epochs with patience -1: eight reports. *)
Lemma negative_patience_never_stops_witness :
  exists w',
    training score_of (-1) 1 eight_epochs (before_run 100%nat None None None)
    = (Ok tt, w')
    /\ length (stderr w') = validations 1 (length eight_epochs)
    /\ model w' = List.last (concat eight_epochs) 100%nat.
Proof.
  apply (negative_patience_never_stops score_of score_of_total (-1) 1
           eight_epochs 100%nat None None); lia.
Defined.

(** The scores 1, 2, 3, ... with patience 0: one report. *)
Lemma zero_patience_stops_at_first_improvement_witness :
  exists w',
    training score_of 0 1 eight_epochs (before_run 100%nat None None None)
    = (Ok tt, w')
    /\ forall i line,
         stderr w' !! i = Some line -> (0 < line.1)%Q ->
         S i = length (stderr w')
         /\ score_of (model w') = Ok line.1
         /\ best_f1_model w' = Some (Saved (model w')).
Proof.
  apply (zero_patience_stops_at_first_improvement score_of score_of_total 1
           eight_epochs 100%nat None None); lia.
Defined.

(** The synthetic run: the model left is that of the third epoch. *)
Lemma tested_model_is_checkpoint_witness :
  exists w',
    train no_forward score_of eight_epochs 3 1 [] start = (Ok tt, w')
    /\ best_f1_model w' = Some (Saved (model w')).
Proof.
  eexists. split; [vm_compute; reflexivity|].
  apply (proj1 (tested_model_is_checkpoint no_forward score_of eight_epochs
                  3 1 []) start).
  vm_compute. reflexivity.
Defined.
End RevealFacts.


Module SVulDFacts.
Import Py Numpy Sklearn SVulD MetricsClaims ExportClaims SVulDClaims.
Import SVulDCases MetricsProofs ExportProofs TrainerProofs.

(** *** The features of an example *)

Lemma length_slice_to {A} (l : list A) k :
  length (slice_to l k)
  = if 0 <=? k then Nat.min (Z.to_nat k) (length l)
    else Z.to_nat (Z.of_nat (length l) + k).
Proof.
  unfold slice_to. destruct (0 <=? k) eqn:Hk; rewrite length_take; [done|].
  apply Z.leb_gt in Hk. lia.
Qed.

(** Ids that fit the block are padded to it. *)
Lemma padded_length args tokenizer (tokens : list string) :
  keeps_length tokenizer ->
  Z.of_nat (length tokens) <= block_size args ->
  let ids := convert_tokens_to_ids tokenizer tokens in
  Z.of_nat (length (ids ++ times (pad_token_id tokenizer)
                                 (block_size args - Z.of_nat (length ids))))
  = block_size args.
Proof.
  intros Hkeep Hfit. cbv zeta. rewrite length_app, Hkeep. unfold times.
  rewrite length_replicate. lia.
Qed.

Lemma length_framed tokenizer text :
  length (framed tokenizer text) = (4 + length text)%nat.
Proof. unfold framed. simpl. rewrite length_app. simpl. lia. Qed.

(** X14.  With a block size of at least 4 and a tokenizer that gives
    one id per token, the two id sequences of every example have
    exactly [block_size] entries: the text is cut to [block_size - 4]
    tokens, framed by the special tokens, converted, and padded
    with [pad_token_id]. *)
Theorem features_have_block_size args tokenizer j f :
  4 <= block_size args -> keeps_length tokenizer ->
  convert_examples_to_features args tokenizer j = Ok f ->
  let n := Z.to_nat (block_size args - 4) in
  input_tokens f = framed tokenizer (take n (tokenize tokenizer (js_code j)))
  /\ contrast_tokens f
     = framed tokenizer (take n (tokenize tokenizer (js_contrast j)))
  /\ Z.of_nat (length (input_ids f)) = block_size args
  /\ Z.of_nat (length (contrast_ids f)) = block_size args
  /\ (exists k, input_ids f
                = convert_tokens_to_ids tokenizer (input_tokens f)
                  ++ replicate k (pad_token_id tokenizer))
  /\ (exists k, contrast_ids f
                = convert_tokens_to_ids tokenizer (contrast_tokens f)
                  ++ replicate k (pad_token_id tokenizer)).
Proof.
  intros Hbs Hkeep. unfold convert_examples_to_features.
  destruct (getitem_label j) as [l|e]; [|done]. simpl.
  intros [= <-]. cbn [input_tokens contrast_tokens input_ids contrast_ids].
  assert (forall text : list string,
             slice_to text (block_size args - 4)
             = take (Z.to_nat (block_size args - 4)) text) as Hslice.
  { intros text. unfold slice_to.
    destruct (Z.leb_spec 0 (block_size args - 4)); [done|lia]. }
  rewrite !Hslice.
  split; [done|]. split; [done|].
  split.
  { apply (padded_length args tokenizer (framed tokenizer _) Hkeep).
    rewrite length_framed, length_take. lia. }
  split.
  { apply (padded_length args tokenizer (framed tokenizer _) Hkeep).
    rewrite length_framed, length_take. lia. }
  split; eexists; reflexivity.
Qed.

(** X15.  With a block size below 4, as the default -1 is, nothing
    is padded and the text loses its last [4 - block_size] tokens; the
    id sequences then have four entries more than tokens are kept, a
    length that depends on the text. *)
Theorem small_block_size_drops_from_the_end args tokenizer j f :
  block_size args < 4 -> keeps_length tokenizer ->
  convert_examples_to_features args tokenizer j = Ok f ->
  let kept text := (length text - Z.to_nat (4 - block_size args))%nat in
  let code := tokenize tokenizer (js_code j) in
  let contrast := tokenize tokenizer (js_contrast j) in
  input_tokens f = framed tokenizer (take (kept code) code)
  /\ contrast_tokens f = framed tokenizer (take (kept contrast) contrast)
  /\ input_ids f = convert_tokens_to_ids tokenizer (input_tokens f)
  /\ contrast_ids f = convert_tokens_to_ids tokenizer (contrast_tokens f)
  /\ length (input_ids f) = (4 + kept code)%nat
  /\ length (contrast_ids f) = (4 + kept contrast)%nat.
Proof.
  intros Hbs Hkeep. unfold convert_examples_to_features.
  destruct (getitem_label j) as [l|e]; [|done]. simpl.
  intros [= <-]. cbn [input_tokens contrast_tokens input_ids contrast_ids].
  assert (forall text : list string,
             slice_to text (block_size args - 4)
             = take (length text - Z.to_nat (4 - block_size args)) text)
    as Hslice.
  { intros text. unfold slice_to.
    destruct (Z.leb_spec 0 (block_size args - 4)); [lia|].
    f_equal. lia. }
  assert (forall tokens : list string,
             (4 <= length tokens)%nat ->
             times (pad_token_id tokenizer)
                   (block_size args
                    - Z.of_nat (length (convert_tokens_to_ids tokenizer
                                                              tokens)))
             = []) as Hpad.
  { intros tokens Hlen. unfold times. rewrite Hkeep.
    replace (Z.to_nat _) with 0%nat by lia. done. }
  unfold framed. rewrite !Hslice.
  rewrite !Hpad by (simpl; rewrite length_app; simpl; lia).
  rewrite !app_nil_r, !Hkeep. simpl.
  rewrite !length_app, !length_take. simpl.
  repeat (split; [done|]). split; lia.
Qed.

Lemma toy_tokenizer_keeps_length : keeps_length toy_tokenizer.
Proof. intros tokens. apply length_map. Qed.

(** The first example of the toy data in blocks of 8. *)
Lemma features_have_block_size_witness :
  exists f,
    convert_examples_to_features toy_args toy_tokenizer
      (Js "ab" "abcdefgh" (Some 1) 4) = Ok f
    /\ Z.of_nat (length (input_ids f)) = 8
    /\ Z.of_nat (length (contrast_ids f)) = 8.
Proof.
  eexists. split; [reflexivity|].
  destruct (features_have_block_size toy_args toy_tokenizer
              (Js "ab" "abcdefgh" (Some 1) 4) _ ltac:(simpl; lia)
              toy_tokenizer_keeps_length eq_refl)
    as (_ & _ & Hin & Hct & _).
  split; [exact Hin|exact Hct].
Defined.

(** The same example with the default block size: of the eight
    tokens of the contrast three are kept. *)
Lemma small_block_size_drops_from_the_end_witness :
  exists f,
    convert_examples_to_features default_args toy_tokenizer
      (Js "ab" "abcdefgh" (Some 1) 4) = Ok f
    /\ length (input_ids f) = 4%nat /\ length (contrast_ids f) = 7%nat.
Proof.
  eexists. split; [reflexivity|].
  destruct (small_block_size_drops_from_the_end default_args toy_tokenizer
              (Js "ab" "abcdefgh" (Some 1) 4) _ ltac:(simpl; lia)
              toy_tokenizer_keeps_length eq_refl)
    as (_ & _ & _ & _ & Hin & Hct).
  split; [exact Hin|exact Hct].
Defined.

(** *** [evaluate] *)

Section Evaluate.
Context {Params EarlyStopping : Type}.
Variable args : Args.
Variable tokenizer : Tokenizer.
Variable forward :
  Params -> list (list Z) -> option (list (list Z)) -> list Z ->
  Q * list (list Q).
Variable float_add : Q -> Q -> Q.
Variable early_stopping_call : EarlyStopping -> Q -> EarlyStopping.
Variable early_stop : EarlyStopping -> bool.

(** X16.  [evaluate] on a data file without examples ends with the
    ValueError of [np.concatenate], whatever the batch size; a
    training whose evaluation file is empty therefore fails, once it
    is set up, at the evaluation of its first epoch. *)
Theorem evaluate_needs_an_example m :
  evaluate args tokenizer forward float_add m [] = Raised ValueError
  /\ forall (Optimizer : Type) train_batch_size num_train_epochs n_gpu
            (optimizer : Z -> result Optimizer) train_dataset
            steps rest (s : state Params EarlyStopping) max_steps,
       train_setup train_batch_size num_train_epochs n_gpu optimizer
                   train_dataset = Ok max_steps ->
       train_from_setup early_stopping_call early_stop
         (validate_on args tokenizer forward float_add [])
         train_batch_size num_train_epochs n_gpu optimizer train_dataset
         (steps :: rest) s
       = Raised ValueError.
Proof.
  assert (forall m', evaluate args tokenizer forward float_add m' []
                     = Raised ValueError) as Hempty.
  { intros m'. unfold evaluate, DataLoader. simpl.
    by destruct (eval_batch_size args <=? 0). }
  split; [apply Hempty|].
  intros Optimizer train_batch_size num_train_epochs n_gpu optimizer
    train_dataset steps rest s max_steps Hsetup.
  unfold train_from_setup. rewrite Hsetup. simpl.
  unfold train. cbn [train_loop]. unfold validation, validate_on.
  cbn [model set_model]. by rewrite Hempty.
Qed.

Lemma evaluate_batches_loss m batches :
  forall eval_loss logits labels indices,
    (evaluate_batches forward float_add m batches eval_loss logits
                      labels indices).1.1.1
    = foldl float_add eval_loss (map (batch_loss forward m) batches).
Proof.
  induction batches as [|batch rest IH];
    intros eval_loss logits labels indices; [done|].
  simpl.
  change (batch_loss forward m batch)
    with (forward m (map input_ids batch) (Some (map contrast_ids batch))
                  (map label batch)).1.
  destruct (forward m _ _ _) as [lm_loss logit]. simpl. apply IH.
Qed.

(** X17.  The [eval_loss] that [evaluate] returns is the sum of the
    losses of the batches, added in order from 0.0: it is not divided
    by the number of batches. *)
Theorem eval_loss_is_a_sum m data res eval_loss indices preds :
  evaluate args tokenizer forward float_add m data
  = Ok (res, eval_loss, indices, preds) ->
  exists dataset batches,
    TextDataset args tokenizer data = Ok dataset
    /\ DataLoader dataset (eval_batch_size args) = Ok batches
    /\ concat batches = dataset
    /\ eval_loss
       = foldl float_add 0%Q (map (batch_loss forward m) batches).
Proof.
  unfold evaluate.
  destruct (TextDataset _ _ _) as [dataset|e] eqn:Hds; [|done]. simpl.
  destruct (DataLoader _ _) as [loader|e] eqn:Hdl; [|done]. simpl.
  pose proof (evaluate_batches_loss m loader 0%Q [] [] []) as Hloss.
  destruct (evaluate_batches _ _ _ _ _ _ _ _) as [[[loss logits] labels] idx].
  simpl in Hloss. subst loss.
  destruct (concatenate logits) as [logits'|e]; [|done]. simpl.
  destruct (concatenate labels) as [labels'|e]; [|done]. simpl.
  destruct (concatenate idx) as [idx'|e]; [|done]. simpl.
  destruct (threshold logits') as [preds'|e]; [|done]. simpl.
  destruct (accuracy_score _ _); [|done]. simpl.
  destruct (recall_score _ _); [|done]. simpl.
  destruct (precision_score _ _); [|done]. simpl.
  destruct (f1_score _ _); [|done]. simpl.
  intros [= <- <- <- <-]. exists dataset, loader.
  split; [done|]. split; [done|]. split; [|done].
  by apply DataLoader_concat in Hdl.
Qed.

(** *** Training *)

Variable validate : Params -> result (results * Q).

(** X18.  On a machine where torch counts no GPU, [train] runs no
    epoch: it ends with the ZeroDivisionError of
    [args.train_batch_size // args.n_gpu] when the loader and the
    optimiser could be built, and with their error otherwise. *)
Theorem no_gpu_no_training {Optimizer : Type} train_batch_size
    num_train_epochs (optimizer : Z -> result Optimizer) train_dataset
    epochs (s : state Params EarlyStopping) :
  (forall s',
      train_from_setup early_stopping_call early_stop validate
        train_batch_size num_train_epochs 0 optimizer train_dataset
        epochs s <> Ok s')
  /\ (0 < train_batch_size ->
      (forall max_steps, exists o, optimizer max_steps = Ok o) ->
      train_from_setup early_stopping_call early_stop validate
        train_batch_size num_train_epochs 0 optimizer train_dataset
        epochs s = Raised ZeroDivisionError).
Proof.
  unfold train_from_setup, train_setup, DataLoader. split.
  - intros s'. destruct (train_batch_size <=? 0); [done|]. simpl.
    by destruct (optimizer _).
  - intros Hbs Hopt. destruct (Z.leb_spec train_batch_size 0); [lia|].
    simpl. by destruct (Hopt (num_train_epochs
      * Z.of_nat (length (batches_of (length train_dataset)
                            (Z.to_nat train_batch_size) train_dataset))))
      as [o ->].
Qed.

(** No evaluation saves when no F1 is above 0, and none can when
    the model is wrapped. *)
Lemma train_loop_unsaved n_gpu epochs :
  (forall p res loss, validate p = Ok (res, loss) -> (f1 res <= 0)%Q)
  \/ 1 < n_gpu ->
  forall (s s' : state Params EarlyStopping) best_f1,
    (0 <= best_f1)%Q ->
    train_loop early_stopping_call early_stop validate n_gpu epochs s
               best_f1
    = Ok s' ->
    checkpoint s' = checkpoint s.
Proof.
  intros Hcase.
  induction epochs as [|steps rest IH]; intros s s' best_f1 Hb Hs'.
  - simpl in Hs'. by inversion Hs'.
  - cbn [train_loop] in Hs'. unfold validation in Hs'.
    cbn [model set_model] in Hs'.
    destruct (validate (List.last steps (model s)))
      as [[res loss]|e] eqn:Hv; [|done].
    cbn [and_then] in Hs'.
    destruct (Qgtb (f1 res) best_f1) eqn:Hgt.
    + exfalso. destruct Hcase as [Hzero|Hwrapped].
      * apply Qgtb_true in Hgt. apply Hzero in Hv.
        apply (Qlt_irrefl best_f1).
        eapply Qlt_le_trans; [exact Hgt|]. by eapply Qle_trans.
      * destruct (Z.ltb_spec 1 n_gpu); [done|lia].
    + simpl in Hs'. destruct (early_stop _).
      * by inversion Hs'.
      * by apply IH in Hs'.
Qed.

(** X19.  A training in which no evaluation finds an F1 above 0
    writes no checkpoint; when none was there before, the test
    branch that follows it ends with FileNotFoundError at the load,
    before it reads the test data. *)
Theorem no_f1_no_checkpoint {Optimizer : Type} train_batch_size
    num_train_epochs n_gpu (optimizer : Z -> result Optimizer)
    train_dataset epochs test_data (s s' : state Params EarlyStopping) :
  (forall p res loss, validate p = Ok (res, loss) -> (f1 res <= 0)%Q) ->
  train_from_setup early_stopping_call early_stop validate
    train_batch_size num_train_epochs n_gpu optimizer train_dataset
    epochs s = Ok s' ->
  checkpoint s' = checkpoint s
  /\ (checkpoint s = None ->
      test args tokenizer forward float_add EarlyStopping test_data s'
      = Raised FileNotFoundError).
Proof.
  intros Hzero. unfold train_from_setup.
  destruct (train_setup _ _ _ _ _); [|done]. simpl. unfold train.
  intros Hs'. apply train_loop_unsaved in Hs'; [|by left|apply Qle_refl].
  split; [done|]. intros Hnone. unfold test. by rewrite Hs', Hnone.
Qed.


(** *** [detect] *)

(** The batches of a loader are not empty, so that there are at
    most as many as examples, and as many only when every batch has
    one example. *)
Lemma batches_of_count {A} (n : nat) : forall fuel (l : list A),
  (0 < n)%nat -> (length l <= fuel)%nat ->
  (length (batches_of fuel n l) <= length l)%nat
  /\ (length (batches_of fuel n l) = length l ->
      n = 1%nat \/ (length l <= 1)%nat).
Proof.
  induction fuel as [|fuel IH]; intros l Hn Hlen.
  - destruct l; simpl in *; [split; [lia|]; intros _; right; lia|lia].
  - destruct l as [|x l]; [simpl; split; [lia|]; intros _; right; lia|].
    cbn [batches_of length].
    destruct (IH (drop n (x :: l)) Hn) as [Hle Heq].
    { rewrite length_drop. simpl in *. lia. }
    rewrite length_drop in Hle, Heq. cbn [length] in Hle, Heq.
    split; [lia|]. intros Hall.
    destruct (decide (n = 1%nat)) as [|Hne]; [by left|]. right. lia.
Qed.

Lemma detect_shape m data a indices preds :
  detect args tokenizer forward m data = Ok (a, indices, preds) ->
  exists dataset batches,
    TextDataset args tokenizer data = Ok dataset
    /\ DataLoader dataset (eval_batch_size args) = Ok batches
    /\ indices = map (map index) batches
    /\ length preds = length data /\ batches <> [].
Proof.
  unfold detect.
  destruct (TextDataset _ _ _) as [dataset|e] eqn:Hds; [|done]. simpl.
  destruct (DataLoader _ _) as [loader|e] eqn:Hdl; [|done]. simpl.
  pose proof (detect_batches_labels forward m loader [] [] []) as [Hlb Hix].
  destruct (detect_batches _ _ _ _ _ _) as [[logits labels] idx].
  simpl in Hlb, Hix. subst labels idx.
  destruct (concatenate logits) as [logits'|e]; [|done]. simpl.
  destruct (concatenate _) as [labels'|e] eqn:Hcat; [|done]. simpl.
  destruct (threshold logits') as [preds'|e]; [|done]. simpl.
  unfold accuracy_score, check_consistent_length.
  destruct (Nat.eqb_spec (length labels') (length (map Z.b2z preds')))
    as [Hlen|]; [|done].
  simpl. intros [= <- <- <-]. exists dataset, loader.
  split; [done|]. split; [done|]. split; [done|]. split.
  - pose proof Hcat as Hcat'. apply concatenate_concat in Hcat'.
    subst labels'.
    apply DataLoader_concat in Hdl.
    pose proof (for_each_length _ _ _ Hds) as Hdslen.
    rewrite concat_map_map, Hdl, !length_map in Hlen. congruence.
  - intros ->. done.
Qed.

(** X20.  The [do_detect] branch of [main] gets through only when
    every batch holds a single example, that is with
    [--eval_batch_size 1] or a data file of one example: it builds
    its table from the list of per-batch index arrays and the
    per-example predictions, two columns that otherwise differ in
    length. *)
Theorem detect_branch_needs_single_batches test_data
    (s : state Params EarlyStopping) out :
  detect_branch args tokenizer forward EarlyStopping test_data s = Ok out ->
  (eval_batch_size args = 1 \/ length test_data = 1%nat)
  /\ length out.2 = length test_data
  /\ Forall (fun row => length row.1 = 1%nat) out.2.
Proof.
  unfold detect_branch.
  destruct (checkpoint s) as [p|]; [|done]. cbn [model set_model].
  destruct (detect _ _ _ _ _) as [[[a indices] preds]|e] eqn:Hd; [|done].
  cbn [and_then]. unfold detect_export.
  destruct (Nat.eqb_spec (length indices) (length preds)) as [Hlen|];
    [|done].
  cbn [and_then]. intros [= <-]. cbn [snd].
  apply detect_shape in Hd
    as (dataset & batches & Hds & Hdl & -> & Hpreds & Hne).
  pose proof (for_each_length _ _ _ Hds) as Hdslen.
  pose proof (DataLoader_concat _ _ _ Hdl) as Hcat.
  unfold DataLoader in Hdl.
  destruct (Z.leb_spec (eval_batch_size args) 0) as [|Hbs]; [done|].
  injection Hdl as Hb.
  destruct (batches_of_count (Z.to_nat (eval_batch_size args))
              (length dataset) dataset ltac:(lia) ltac:(lia))
    as [Hle Heq].
  rewrite Hb in Hle, Heq. rewrite length_map in Hlen.
  assert (length batches = length dataset) as Hall by congruence.
  assert (dataset <> []) as Hds0.
  { intros ->. simpl in Hb. by subst batches. }
  split.
  { destruct (Heq Hall) as [H1|H1]; [left; lia|right].
    destruct dataset; [done|]. simpl in *. lia. }
  split.
  { rewrite length_zip_with, length_map. lia. }
  (* as many batches as examples, none of them empty: one each *)
  assert (Forall (fun b : list InputFeatures => (1 <= length b)%nat)
                 batches) as Hpos.
  { rewrite <- Hb. clear -Hbs.
    generalize (length dataset) as fuel. intros fuel. revert dataset.
    induction fuel as [|fuel IH]; intros l; [constructor|].
    destruct l as [|x l]; [constructor|]. cbn [batches_of].
    constructor; [|apply IH].
    rewrite length_take. simpl. lia. }
  assert (forall (bs : list (list InputFeatures)),
             Forall (fun b => (1 <= length b)%nat) bs ->
             length bs = length (concat bs) ->
             Forall (fun b => length b = 1%nat) bs) as Hone.
  { clear. induction bs as [|b bs IH]; intros Hpos Hlen; [constructor|].
    apply Forall_cons in Hpos as [Hb Hpos].
    simpl in Hlen. rewrite length_app in Hlen.
    assert (length bs <= length (concat bs))%nat as Hle.
    { clear -Hpos. induction Hpos as [|b bs Hb _ IH]; [done|].
      simpl. rewrite length_app. lia. }
    constructor; [lia|]. apply IH; [done|lia]. }
  specialize (Hone batches Hpos ltac:(by rewrite Hcat)).
  apply Forall_forall. intros [ix pred] Hrow.
  apply elem_of_zip_l in Hrow.
  apply list_elem_of_fmap in Hrow as (b & -> & Hb').
  simpl. rewrite length_map.
  by apply (proj1 (Forall_forall _ _) Hone).
Qed.

Lemma TextDataset_view data data' :
  map detect_view data = map detect_view data' ->
  match TextDataset args tokenizer data,
        TextDataset args tokenizer data' with
  | Ok dataset, Ok dataset' =>
      map (fun f => (contrast_ids f, label f, index f)) dataset
      = map (fun f => (contrast_ids f, label f, index f)) dataset'
  | Raised e, Raised e' => e = e'
  | _, _ => False
  end.
Proof.
  revert data'. induction data as [|j data IH]; intros [|j' data'] Hv;
    try done.
  simpl in Hv. injection Hv as Hc Hl Hi Hv. specialize (IH data' Hv).
  unfold TextDataset in *. simpl.
  unfold convert_examples_to_features, getitem_label.
  rewrite Hc, Hl, Hi.
  destruct (js_label j') as [l|]; [|done]. simpl.
  destruct (for_each _ data) as [ds|e];
    destruct (for_each _ data') as [ds'|e']; try done.
  simpl. by rewrite IH.
Qed.

Lemma batches_of_map {A B} (g : A -> B) n : forall fuel (l : list A),
  map (map g) (batches_of fuel n l) = batches_of fuel n (map g l).
Proof.
  induction fuel as [|fuel IH]; intros l; [done|].
  destruct l as [|x l]; [done|]. cbn [batches_of map].
  rewrite IH. change (g x :: map g l) with (map g (x :: l)).
  by rewrite <- fmap_take, <- fmap_drop.
Qed.

Lemma detect_batches_view m batches batches' :
  map (map (fun f => (contrast_ids f, label f, index f))) batches
  = map (map (fun f => (contrast_ids f, label f, index f))) batches' ->
  forall logits labels indices,
    detect_batches forward m batches logits labels indices
    = detect_batches forward m batches' logits labels indices.
Proof.
  revert batches'.
  induction batches as [|b batches IH]; intros [|b' batches'] Hv;
    try done.
  simpl in Hv. injection Hv as Hb Hv. intros logits labels indices.
  cbn [detect_batches].
  assert (map contrast_ids b = map contrast_ids b'
          /\ map label b = map label b' /\ map index b = map index b')
    as (-> & -> & ->).
  { split; [|split].
    - apply (f_equal (map (fun t : list Z * Z * Z => t.1.1))) in Hb.
      by rewrite !map_map in Hb.
    - apply (f_equal (map (fun t : list Z * Z * Z => t.1.2))) in Hb.
      by rewrite !map_map in Hb.
    - apply (f_equal (map (fun t : list Z * Z * Z => t.2))) in Hb.
      by rewrite !map_map in Hb. }
  destruct (forward m _ _ _). by apply IH.
Qed.

(** X21.  [detect] classifies the [contrast] text of an example and
    never its [code]: with id sequences of one length (a block size
    of at least 4, a tokenizer that gives one id per token), two data
    files that agree on the contrast, the label and the index of
    every example give the same result, whatever code they hold. *)
Theorem detect_reads_the_contrast m data data' :
  4 <= block_size args -> keeps_length tokenizer ->
  map detect_view data = map detect_view data' ->
  detect args tokenizer forward m data
  = detect args tokenizer forward m data'.
Proof.
  intros _ _ Hv. apply TextDataset_view in Hv. unfold detect.
  destruct (TextDataset args tokenizer data) as [ds|e];
    destruct (TextDataset args tokenizer data') as [ds'|e'];
    try done; [|by subst].
  simpl. unfold DataLoader.
  destruct (eval_batch_size args <=? 0); [done|]. simpl.
  assert (length ds = length ds') as Hlen.
  { apply (f_equal length) in Hv. by rewrite !length_map in Hv. }
  rewrite (detect_batches_view m _
             (batches_of (length ds') (Z.to_nat (eval_batch_size args))
                         ds')); [done|].
  by rewrite !batches_of_map, Hv, Hlen.
Qed.
End Evaluate.

(** One epoch with an empty evaluation file. *)
Lemma evaluate_needs_an_example_witness :
  train_from_setup (fun _ _ => tt) (fun _ => false)
    (validate_on toy_args toy_tokenizer toy_forward Qplus [])
    2 1 1 (fun _ => Ok tt) [] [[1]] toy_state
  = Raised ValueError.
Proof.
  apply (proj2 (evaluate_needs_an_example toy_args toy_tokenizer toy_forward
                  Qplus (fun _ _ => tt) (fun _ => false) 0)
               unit 2 1 1 (fun _ => Ok tt) [] [1] [] toy_state 0).
  reflexivity.
Defined.

(** The toy data in two batches: the loss is 1 + 1. *)
Lemma eval_loss_is_a_sum_witness :
  exists dataset batches,
    TextDataset toy_args toy_tokenizer toy_data = Ok dataset
    /\ DataLoader dataset (eval_batch_size toy_args) = Ok batches
    /\ concat batches = dataset
    /\ (0 + 1 + 1)%Q
       = foldl Qplus 0%Q (map (batch_loss toy_forward 2) batches).
Proof.
  assert (exists res indices preds,
             evaluate toy_args toy_tokenizer toy_forward Qplus 2 toy_data
             = Ok (res, (0 + 1 + 1)%Q, indices, preds))
    as (res & indices & preds & Hev).
  { do 3 eexists. vm_compute. reflexivity. }
  apply (eval_loss_is_a_sum toy_args toy_tokenizer toy_forward Qplus 2
           toy_data res _ indices preds Hev).
Defined.

(** The toy data on a machine without GPU. *)
Lemma no_gpu_no_training_witness :
  train_from_setup (fun _ _ => tt) (fun _ => false) flat
    2 1 0 (fun _ => Ok tt) [] two_epochs (State 0%nat tt None None)
  = Raised ZeroDivisionError.
Proof.
  apply (proj2 (no_gpu_no_training (fun _ _ => tt) (fun _ => false) flat
                  2 1 (fun _ => Ok tt) [] two_epochs
                  (State 0%nat tt None None))).
  - lia.
  - intros max_steps. by exists tt.
Defined.

(** Two epochs with F1 0 and no checkpoint before. *)
Lemma no_f1_no_checkpoint_witness :
  exists s',
    train_from_setup (fun _ _ => tt) (fun _ => false) flat
      2 1 1 (fun _ => Ok tt) [] two_epochs (State 0%nat tt None None)
    = Ok s'
    /\ checkpoint s' = None
    /\ test toy_args toy_tokenizer (fun _ => toy_forward 2) Qplus unit
            toy_data s'
       = Raised FileNotFoundError.
Proof.
  assert (exists s',
             train_from_setup (fun _ _ => tt) (fun _ => false) flat
               2 1 1 (fun _ => Ok tt) [] two_epochs
               (State 0%nat tt None None) = Ok s') as [s' Hs'].
  { eexists. vm_compute. reflexivity. }
  exists s'. split; [exact Hs'|].
  destruct (no_f1_no_checkpoint toy_args toy_tokenizer
              (fun _ : nat => toy_forward 2) Qplus
              (fun _ _ => tt) (fun _ => false) flat 2 1 1 (fun _ => Ok tt) []
              two_epochs toy_data (State 0%nat tt None None) s')
    as [Hsame Hload].
  - intros p res loss [= <- _]. simpl. apply Qle_refl.
  - exact Hs'.
  - split; [exact Hsame|]. by apply Hload.
Defined.


(** The toy data in batches of one example. *)
Lemma detect_branch_needs_single_batches_witness :
  exists out,
    detect_branch single_args toy_tokenizer toy_forward unit toy_data
                  toy_state = Ok out
    /\ (eval_batch_size single_args = 1 \/ length toy_data = 1%nat)
    /\ length out.2 = length toy_data
    /\ Forall (fun row => length row.1 = 1%nat) out.2.
Proof.
  eexists. split; [vm_compute; reflexivity|].
  apply (detect_branch_needs_single_batches single_args toy_tokenizer
           toy_forward toy_data toy_state).
  vm_compute. reflexivity.
Defined.

(** The toy data, and the same with other code. *)
Lemma detect_reads_the_contrast_witness :
  detect toy_args toy_tokenizer toy_forward 3 toy_data
  = detect toy_args toy_tokenizer toy_forward 3 other_code.
Proof.
  apply (detect_reads_the_contrast toy_args toy_tokenizer toy_forward 3
           toy_data other_code).
  - simpl. lia.
  - apply toy_tokenizer_keeps_length.
  - reflexivity.
Defined.
End SVulDFacts.
